(** * Hash-Creator: the hashing and verification engine of [main.py]

    A shallow embedding of class [HashGenerator] (digest computation, the
    concurrent scan, the manifest codec and the verifier) together with
    the properties its specification states about it.

    Conventions.
    - Python exceptions are values of type [exn]; a computation that may
      raise returns [exn + A] ([inl e] is "raise e").
    - A Python [dict] is an insertion-ordered association list ([dict V]).
    - A file on disk holds bytes ([list byte]); text written through
      [open(.., 'w', encoding='utf-8')] is stored as its byte string.
    - The file system is a snapshot ([OS]): regular files by path, and
      oracles for what the model does not compute itself (directories,
      [os.walk], [os.path.relpath], the clock). Paths are POSIX paths.
      Opening a file may fail; reading an opened file does not.
    - The cancellation flag [self.stop_event] is set by another thread at an
      arbitrary moment; what a run observes of it is given by oracles, one
      per place where the code calls [is_set()] ([Stops]). The order in
      which the thread pool completes its tasks is a parameter too
      ([Scheduler]). Theorems hold for every choice of them.
    - A progress callback is user code; the model records the calls made
      to it and assumes that it returns.
    - [hashlib], [xxhash] and [blake3] are external: they enter through
      the class [Hashlib]. The [json] module enters through the class
      [Json_module]; [PyJson] is a reference implementation of it.
      [zlib.crc32] is modelled from its public definition. *)

From Stdlib Require Import ZArith List String Ascii Bool Lia Permutation.
From Stdlib.Strings Require Import Byte.
From Stdlib Require DecimalString DecimalZ.
From Equations Require Import Equations.
From stdpp Require Import gmap strings list.
Import ListNotations.
Local Open Scope string_scope.
Local Open Scope list_scope.
Local Open Scope Z_scope.

Set Default Goal Selector "!".
Set Warnings "-register-all".

(* ===================================================================== *)
(** * Part I: definitions                                                 *)
(* ===================================================================== *)

(** ** Exceptions *)

Inductive os_error : Type :=
| FileNotFoundError | PermissionError | IsADirectoryError.

Inductive exn : Type :=
| ValueError (msg : string)
| TypeError (msg : string)
| KeyError (key : string)
| AttributeError (msg : string)
| OSError (kind : os_error) (path : string)
| JSONDecodeError (msg : string)
| RuntimeError (msg : string).

(** [str(e)] *)
Definition exn_str (e : exn) : string :=
  match e with
  | ValueError m | TypeError m | AttributeError m
  | JSONDecodeError m | RuntimeError m => m
  | KeyError k => "'" +:+ k +:+ "'"
  | OSError FileNotFoundError p =>
      "[Errno 2] No such file or directory: '" +:+ p +:+ "'"
  | OSError PermissionError p => "[Errno 13] Permission denied: '" +:+ p +:+ "'"
  | OSError IsADirectoryError p => "[Errno 21] Is a directory: '" +:+ p +:+ "'"
  end.

(** Sequencing of computations that may raise: [do x <- e ;; k] runs
    [e] and, unless it raises, goes on with [k]. *)
Notation "'do' x <- e ;; k" :=
  (match e with inl err => inl err | inr x => k end)
  (at level 10, x name, e at level 99, k at level 200,
   format "'[v' 'do'  x  <-  e  ;;  '/' k ']'").

(** [except (IOError, OSError, PermissionError)] *)
Definition is_os_error (e : exn) : bool :=
  match e with OSError _ _ => true | _ => false end.

Definition inspect {A} (a : A) : {b | a = b} := exist _ a eq_refl.

(** ** Python dictionaries

    Insertion ordered; assigning to an existing key keeps its position. *)

Definition dict (V : Type) : Type := list (string * V).

Fixpoint dict_get {V} (d : dict V) (k : string) : option V :=
  match d with
  | [] => None
  | (k', v) :: d' => if String.eqb k k' then Some v else dict_get d' k
  end.

(** [k in d] *)
Definition dict_mem {V} (k : string) (d : dict V) : bool :=
  match dict_get d k with Some _ => true | None => false end.

(** [d[k] = v] *)
Fixpoint dict_set {V} (d : dict V) (k : string) (v : V) : dict V :=
  match d with
  | [] => [(k, v)]
  | (k', v') :: d' =>
      if String.eqb k k' then (k', v) :: d' else (k', v') :: dict_set d' k v
  end.

Definition dict_keys {V} (d : dict V) : list string := map fst d.
Definition dict_values {V} (d : dict V) : list V := map snd d.
Definition dict_len {V} (d : dict V) : nat := length d.

(** Every dictionary Python can build has pairwise distinct keys. *)
Definition dict_wf {V} (d : dict V) : Prop := NoDup (dict_keys d).

(** ** Hexadecimal formatting: the format spec [08x] *)

Definition hex_digit (d : Z) : ascii :=
  nth (Z.to_nat d) (list_ascii_of_string "0123456789abcdef") "0"%char.

(** Digits of a non-negative [n], most significant first; [fuel] bounds
    the number of digits produced. *)
Fixpoint hex_digits (fuel : nat) (n : Z) (acc : list ascii) : list ascii :=
  match fuel with
  | O => acc
  | S fuel' =>
      let acc' := hex_digit (n mod 16) :: acc in
      if n / 16 =? 0 then acc' else hex_digits fuel' (n / 16) acc'
  end.

(** [format(n, 'x')] for [0 <= n]: a number below [2^(k+1)] has at most
    [k+1] hexadecimal digits. *)
Definition format_x (n : Z) : list ascii :=
  hex_digits (S (Z.to_nat (Z.log2 n))) n [].

(** [format(n, '0{width}x')]: sign first, then zeros up to [width]. *)
Definition format_0x (width : nat) (n : Z) : string :=
  if n <? 0 then
    let ds := format_x (- n) in
    string_of_list_ascii
      ("-"%char :: repeat "0"%char (width - 1 - length ds) ++ ds)
  else
    let ds := format_x n in
    string_of_list_ascii (repeat "0"%char (width - length ds) ++ ds).

Definition format_08x : Z -> string := format_0x 8.





(** ** [zlib.crc32]

    The CRC-32 of zlib (reflected polynomial [0xEDB88320], initial value
    and final complement [0xFFFFFFFF]), bit at a time. [value] is the
    running checksum of the data seen so far. *)

Definition crc32_poly : Z := 0xEDB88320.
Definition mask32 : Z := 0xffffffff.

Definition crc32_shift (c : Z) : Z :=
  if Z.testbit c 0 then Z.lxor (Z.shiftr c 1) crc32_poly else Z.shiftr c 1.

Definition byte_val (b : byte) : Z := Z.of_N (Byte.to_N b).

Definition crc32_byte (c : Z) (b : byte) : Z :=
  Nat.iter 8 crc32_shift (Z.lxor c (byte_val b)).

Definition zlib_crc32 (data : list byte) (value : Z) : Z :=
  Z.lxor (fold_left crc32_byte data (Z.lxor (Z.land value mask32) mask32))
         mask32.


(** ** Files and the operating system *)

Record file : Type := mkFile {
  f_bytes : list byte;          (* content *)
  f_readable : bool             (* may this process open it for reading *)
}.

(** One snapshot of what the process can see of the file system.
    [os_walk top] is the sequence of [(root, dirs, files)] triples that
    [os.walk(top)] yields; [os_writable p] tells whether [open(p, 'w')]
    succeeds; [os_mtime p] is [st_mtime] of [p] as [repr] prints the
    float; [os_relpath] is [os.path.relpath], which depends on the current
    directory ([inl] when it raises); [os_now k] is what the [k]-th call
    of [datetime.now().isoformat()] returns. *)
Record OS : Type := mkOS {
  os_files : gmap string file;
  os_isdir : string -> bool;
  os_walk : string -> exn + list (string * list string * list string);
  os_writable : string -> bool;
  os_mtime : string -> string;
  os_relpath : string -> string -> exn + string;
  os_now : nat -> string
}.

(** [os.path.isfile] *)
Definition os_path_isfile (os : OS) (p : string) : bool :=
  bool_decide (is_Some (os_files os !! p)).

(** [os.path.exists]; the empty path never exists. *)
Definition os_path_exists (os : OS) (p : string) : bool :=
  negb (String.eqb p "") && (os_path_isfile os p || os_isdir os p).

Definition ends_with_slash (s : string) : bool :=
  match rev (list_ascii_of_string s) with
  | c :: _ => Ascii.eqb c "/"%char
  | [] => false
  end.

Definition starts_with_slash (s : string) : bool :=
  match s with
  | String c _ => Ascii.eqb c "/"%char
  | EmptyString => false
  end.

(** [os.path.join(a, b)] of [posixpath]. *)
Definition os_path_join (a b : string) : string :=
  if starts_with_slash b then b
  else if String.eqb a "" || ends_with_slash a then a +:+ b
  else a +:+ "/" +:+ b.

(** [open(path, 'rb')]: the bytes the file object will deliver, or the
    [OSError] of a missing file, a directory or a file that may not be
    read. *)
Definition open_rb (os : OS) (p : string) : exn + list byte :=
  match os_files os !! p with
  | Some f => if f_readable f then inr (f_bytes f)
              else inl (OSError PermissionError p)
  | None => if os_isdir os p then inl (OSError IsADirectoryError p)
            else inl (OSError FileNotFoundError p)
  end.

(** [f.read(n)] on a binary file object whose unread bytes are [rest]:
    a negative size reads to the end of the file. *)
Definition f_read (n : Z) (rest : list byte) : list byte :=
  if n <? 0 then rest else firstn (Z.to_nat n) rest.

(** ** The digest provider *)

(** What [hashlib], [xxhash] and [blake3] provide. A constructor of
    [hashlib] may raise (an algorithm the build of OpenSSL disables);
    the two optional modules are either imported or not. *)
Class Hashlib : Type := {
  hasher : Type;
  hashlib_md5 : exn + hasher;
  hashlib_sha1 : exn + hasher;
  hashlib_sha3_256 : exn + hasher;
  hashlib_sha256 : exn + hasher;
  hashlib_sha512 : exn + hasher;
  hashlib_blake2b : exn + hasher;
  XXHASH_AVAILABLE : bool;
  xxhash_xxh64 : hasher;
  BLAKE3_AVAILABLE : bool;
  blake3_blake3 : hasher;
  h_update : hasher -> list byte -> hasher;
  h_hexdigest : hasher -> string
}.

Inductive io_event : Type :=
| EvOpen (path : string)
| EvRead (path : string) (got : nat)
| EvPrint (msg : string).

Definition is_file_io (e : io_event) : bool :=
  match e with EvOpen _ | EvRead _ _ => true | EvPrint _ => false end.

Inductive loop_outcome (S : Type) : Type :=
| Finished (st : S)
| Cancelled
| Raised (e : exn).
Arguments Finished {S} st.
Arguments Cancelled {S}.
Arguments Raised {S} e.

(** [try: body except Exception as e: handler(e)] *)
Definition try_except {A} (body : exn + A) (handler : exn -> exn + A)
  : exn + A :=
  match body with
  | inl e => handler e
  | inr a => inr a
  end.

Section ReadLoop.
Context {S : Type}.
Variable upd : S -> list byte -> exn + S.
(** [stop k]: what the [k]-th call of [self.stop_event.is_set()] of this
    loop returns. *)
Variable stop : nat -> bool.
Variable chunk_size : Z.

(** [while chunk := f.read(chunk_size):
       if self.stop_event.is_set(): return None
       hasher.update(chunk)]
    Returns the sizes of the chunks read, in order, and how the loop
    ended. *)
Equations? read_loop (rest : list byte) (k : nat) (st : S)
  : list nat * loop_outcome S by wf (length rest) lt :=
read_loop rest k st with inspect (f_read chunk_size rest) := {
  | @exist [] _ => ([0%nat], Finished st)
  | @exist (b :: bs) H =>
      if stop k then ([length (b :: bs)], Cancelled)
      else match upd st (b :: bs) with
           | inl e => ([length (b :: bs)], Raised e)
           | inr st' =>
               let r := read_loop (skipn (length (b :: bs)) rest)
                                  (Datatypes.S k) st' in
               (length (b :: bs) :: fst r, snd r)
           end }.
Proof.
  destruct rest as [|x rest].
  - unfold f_read in H. destruct (chunk_size <? 0); [discriminate|].
    rewrite firstn_nil in H. discriminate.
  - rewrite length_skipn. simpl. lia.
Qed.
End ReadLoop.

Section HashGenerator.
Context {HL : Hashlib}.

(** The table [algorithms] of [_get_supported_algorithms]: every name
    with what calling its lambda gives. *)
Definition algorithms : dict (exn + option hasher) :=
  [ ("MD5", sum_map id Some hashlib_md5);
    ("SHA1", sum_map id Some hashlib_sha1);
    ("SHA-3", sum_map id Some hashlib_sha3_256);
    ("SHA256", sum_map id Some hashlib_sha256);
    ("SHA512", sum_map id Some hashlib_sha512);
    ("xxHash64", inr (if XXHASH_AVAILABLE then Some xxhash_xxh64 else None));
    ("Blake2b", sum_map id Some hashlib_blake2b);
    ("Blake3", inr (if BLAKE3_AVAILABLE then Some blake3_blake3 else None));
    ("CRC32", inr None) ].

(** [_get_supported_algorithms]: CRC32 always, any other name when its
    lambda returns a hasher without raising. *)
Definition _get_supported_algorithms : dict (exn + option hasher) :=
  fold_left
    (fun available '(name, func) =>
       if String.eqb name "CRC32" then dict_set available name func
       else match func with
            | inr (Some _) => dict_set available name func
            | inr None => available
            | inl _ => available
            end)
    algorithms [].

Definition SUPPORTED_ALGORITHMS : dict (exn + option hasher) :=
  _get_supported_algorithms.

(** [with open(file_path, 'rb') as f:] followed by the chunk loop and
    the final [hexdigest()]. *)
Definition hash_stream {S} (upd : S -> list byte -> exn + S) (init : S)
    (fin : S -> exn + string)
    (os : OS) (stop : nat -> bool) (file_path : string) (chunk_size : Z)
  : list io_event * (exn + option string) :=
  match open_rb os file_path with
  | inl e => ([EvOpen file_path], inl e)
  | inr data =>
      let r := read_loop upd stop chunk_size data 0%nat init in
      let tr := EvOpen file_path :: map (EvRead file_path) (fst r) in
      match snd r with
      | Finished st => (tr, sum_map id Some (fin st))
      | Cancelled => (tr, inr None)
      | Raised e => (tr, inl e)
      end
  end.

Definition hasher_stream (h : hasher) :=
  hash_stream (fun st chunk => inr (h_update st chunk)) h
              (fun st => inr (h_hexdigest st)).

(** The body of the [try] of [calculate_file_hash]. *)
Definition calculate_file_hash_body (os : OS) (stop : nat -> bool)
    (file_path algorithm : string) (chunk_size : Z)
  : list io_event * (exn + option string) :=
  if negb (dict_mem algorithm SUPPORTED_ALGORITHMS) then
    ([], inl (ValueError ("Unsupported algorithm: " +:+ algorithm)))
  else if String.eqb algorithm "CRC32" then
    hash_stream (fun crc chunk => inr (zlib_crc32 chunk crc)) 0
                (fun crc => inr (format_08x (Z.land crc mask32)))
                os stop file_path chunk_size
  else if String.eqb algorithm "xxHash64" && XXHASH_AVAILABLE then
    hasher_stream xxhash_xxh64 os stop file_path chunk_size
  else if String.eqb algorithm "Blake3" && BLAKE3_AVAILABLE then
    hasher_stream blake3_blake3 os stop file_path chunk_size
  else
    (* hash_func = self.SUPPORTED_ALGORITHMS[algorithm]() *)
    match dict_get SUPPORTED_ALGORITHMS algorithm with
    | None => ([], inl (KeyError algorithm))
    | Some (inl e) => ([], inl e)
    | Some (inr (Some h)) => hasher_stream h os stop file_path chunk_size
    | Some (inr None) =>
        (* hash_func is None: its first use raises *)
        hash_stream
          (fun (_ : unit) _ =>
             inl (AttributeError
                    "'NoneType' object has no attribute 'update'"))
          tt
          (fun _ =>
             inl (AttributeError
                    "'NoneType' object has no attribute 'hexdigest'"))
          os stop file_path chunk_size
    end.

(** [calculate_file_hash]: the events of the call and what the caller
    gets, a return value ([inr]) or an exception ([inl]). Both handlers
    print and return [None]. *)
Definition calculate_file_hash (os : OS) (stop : nat -> bool)
    (file_path algorithm : string) (chunk_size : Z)
  : list io_event * (exn + option string) :=
  let '(tr, r) :=
    calculate_file_hash_body os stop file_path algorithm chunk_size in
  match r with
  | inr v => (tr, inr v)
  | inl e =>
      if is_os_error e then
        (tr ++ [EvPrint ("Error reading file " +:+ file_path +:+ ": "
                         +:+ exn_str e)], inr None)
      else
        (tr ++ [EvPrint ("Unexpected error processing " +:+ file_path
                         +:+ ": " +:+ exn_str e)], inr None)
  end.

(** The default [chunk_size]. *)
Definition default_chunk_size : Z := 8192.

(** The hasher of [algorithm] in its initial state, when the provider
    has one. *)
Definition fresh_hasher (algorithm : string) : option hasher :=
  match dict_get algorithms algorithm with
  | Some (inr (Some h)) => Some h
  | _ => None
  end.

(** The digest of the empty byte string: the checksum of no bytes for
    CRC32, otherwise what a hasher that was fed nothing finalizes to. *)
Definition empty_digest (algorithm : string) : string :=
  if String.eqb algorithm "CRC32" then format_08x (zlib_crc32 [] 0)
  else match fresh_hasher algorithm with
       | Some h => h_hexdigest h
       | None => ""
       end.
End HashGenerator.

(** ** The concurrent scan *)

(** The order in which [as_completed] hands back the futures: some
    rearrangement of the submitted ones, decided by the thread pool. *)
Record Scheduler : Type := mkScheduler {
  as_completed : forall {A : Type}, list A -> list A;
  as_completed_perm : forall (A : Type) (l : list A),
      Permutation l (as_completed l)
}.

(** What each place that reads the cancellation flag observes:
    [stop_walk k] at the [k]-th directory of the walk, [stop_hash p k] at
    the [k]-th chunk of the worker hashing [p], [stop_loop k] at the
    [k]-th iteration of the loop that consumes results. *)
Record Stops : Type := mkStops {
  stop_walk : nat -> bool;
  stop_hash : string -> nat -> bool;
  stop_loop : nat -> bool
}.

(** The accumulators of a scan and the calls made to
    [progress_callback]. *)
Record scan_state : Type := mkScan {
  results : dict string;
  error_files : list string;
  completed_files : nat;
  progress : list (nat * nat * string)
}.

(** [if hash_value:] *)
Definition truthy (v : option string) : bool :=
  match v with
  | Some s => negb (String.eqb s "")
  | None => false
  end.

(** [for file in files: ...] of the walk *)
Definition walk_files (os : OS) (root : string) (files : list string)
  : list string :=
  List.filter (fun p => os_path_isfile os p) (map (os_path_join root) files).

(** [for root, dirs, files in os.walk(location): ...] *)
Fixpoint walk_loop (os : OS) (stop : nat -> bool)
    (triples : list (string * list string * list string)) (k : nat)
  : list string :=
  match triples with
  | [] => []
  | (root, _, files) :: rest =>
      if stop k then []
      else walk_files os root files ++ walk_loop os stop rest (S k)
  end.

(** The [try] block that fills [file_list]. *)
Definition collect_files (os : OS) (stops : Stops) (location : string)
  : exn + list string :=
  if os_path_isfile os location then inr [location]
  else if os_isdir os location then
    match os_walk os location with
    | inl e => inl e
    | inr triples => inr (walk_loop os (stop_walk stops) triples 0)
    end
  else inr [].

(** One iteration of [for future in as_completed(future_to_file)], after
    the test of the flag. [res] is [future.result()]. *)
Definition scan_step (cb : bool) (total_files : nat)
    (file_path : string) (res : exn + option string) (st : scan_state)
  : scan_state :=
  let st1 :=
    match res with
    | inr hash_value =>
        if truthy hash_value then
          mkScan (dict_set (results st) file_path (default "" hash_value))
                 (error_files st) (completed_files st) (progress st)
        else
          mkScan (results st) (error_files st ++ [file_path])
                 (completed_files st) (progress st)
    | inl e =>
        mkScan (results st)
               (error_files st ++ [file_path +:+ " - Error: " +:+ exn_str e])
               (completed_files st) (progress st)
    end in
  let completed := S (completed_files st1) in
  mkScan (results st1) (error_files st1) completed
         (if cb then progress st1 ++ [(completed, total_files, file_path)]
          else progress st1).

(** [for future in as_completed(future_to_file):
       if self.stop_event.is_set(): break
       ...] *)
Fixpoint scan_loop (stop : nat -> bool) (cb : bool) (total_files : nat)
    (futures : list (string * (exn + option string))) (k : nat)
    (st : scan_state) : scan_state :=
  match futures with
  | [] => st
  | (file_path, res) :: rest =>
      if stop k then st
      else scan_loop stop cb total_files rest (S k)
             (scan_step cb total_files file_path res st)
  end.

Definition scan_init : scan_state := mkScan [] [] 0 [].

(** The results [done] handled one after the other. *)
Definition scan_steps (cb : bool) (total_files : nat)
    (done : list (string * (exn + option string))) (st : scan_state)
  : scan_state :=
  fold_left (fun st fut => scan_step cb total_files (fst fut) (snd fut) st)
            done st.

(** How many of [n] results the consuming loop takes, starting at its
    [k]-th iteration, before it sees the flag set. *)
Fixpoint iterations (stop : nat -> bool) (n k : nat) : nat :=
  match n with
  | O => O
  | S n' => if stop k then O else S (iterations stop n' (S k))
  end.

(** The calls [(c+1, total, p1), (c+2, total, p2), ...] for the paths
    [p1, p2, ...]. *)
Fixpoint number_from (c total : nat) (paths : list string)
  : list (nat * nat * string) :=
  match paths with
  | [] => []
  | p :: rest => (S c, total, p) :: number_from (S c) total rest
  end.

Section Scan.
Context {HL : Hashlib}.

(** [executor.submit(self.calculate_file_hash, file_path, algorithm)]
    for every path: the future's path and its result. *)
Definition submit_all (os : OS) (stops : Stops) (algorithm : string)
    (file_list : list string) : list (string * (exn + option string)) :=
  map (fun file_path =>
         (file_path,
          snd (calculate_file_hash os (stop_hash stops file_path)
                                   file_path algorithm default_chunk_size)))
      file_list.

(** [scan_location]: what the caller gets (the pair
    [(results, error_files)], or an exception) and the calls made to
    [progress_callback]; [cb] tells whether a callback was passed. *)
Definition scan_location (os : OS) (stops : Stops) (sched : Scheduler)
    (location algorithm : string) (cb : bool) (max_workers : Z)
  : (exn + (dict string * list string)) * list (nat * nat * string) :=
  match collect_files os stops location with
  | inl e => (inr ([], ["Scan error: " +:+ exn_str e]), [])
  | inr file_list =>
      let total_files := length file_list in
      if Nat.eqb total_files 0 then (inr ([], []), [])
      else if max_workers <=? 0 then
        (* ThreadPoolExecutor(max_workers=...) *)
        (inl (ValueError "max_workers must be greater than 0"), [])
      else
        let futures :=
          as_completed sched (submit_all os stops algorithm file_list) in
        let st := scan_loop (stop_loop stops) cb total_files futures 0
                            scan_init in
        (inr (results st, error_files st), progress st)
  end.
End Scan.

(** ** JSON values and the [json] module *)

(** What [json.load] returns and [json.dump] accepts. A float is
    identified with the decimal literal [repr] prints for it. *)
Inductive json : Type :=
| JNull
| JBool (b : bool)
| JInt (n : Z)
| JFloat (repr : string)
| JStr (s : string)
| JArr (items : list json)
| JObj (members : list (string * json)).

(** The [json] module as the code uses it: [json_dump] is
    [json.dump(data, f, indent=2, ensure_ascii=False)], giving the text
    written; [json_load] is [json.load(f)] on the text of the file. *)
Class Json_module : Type := {
  json_dump : json -> string;
  json_load : string -> exn + json
}.

(** [needle in haystack] on strings *)
Fixpoint is_substring (needle haystack : string) : bool :=
  String.prefix needle haystack ||
  match haystack with
  | EmptyString => false
  | String _ rest => is_substring needle rest
  end.

Definition is_JStr (k : string) (j : json) : bool :=
  match j with JStr s => String.eqb s k | _ => false end.

(** [k in data] for a string [k] *)
Definition py_in (k : string) (data : json) : exn + bool :=
  match data with
  | JObj members => inr (dict_mem k members)
  | JArr items => inr (existsb (is_JStr k) items)
  | JStr s => inr (is_substring k s)
  | _ => inl (TypeError "argument is not iterable")
  end.

(** [data[k]] for a string [k] *)
Definition json_getitem (data : json) (k : string) : exn + json :=
  match data with
  | JObj members =>
      match dict_get members k with
      | Some v => inr v
      | None => inl (KeyError k)
      end
  | _ => inl (TypeError "indices must be integers")
  end.

(** [data['metadata'][name]] *)
Definition metadata_field (data : json) (name : string) : exn + json :=
  match json_getitem data "metadata" with
  | inl e => inl e
  | inr metadata => json_getitem metadata name
  end.

(** [len(data)] *)
Definition json_len (data : json) : exn + nat :=
  match data with
  | JObj members => inr (length members)
  | JArr items => inr (length items)
  | JStr s => inr (String.length s)
  | _ => inl (TypeError "object has no len()")
  end.

(** [data.items()] *)
Definition json_items (data : json) : exn + list (string * json) :=
  match data with
  | JObj members => inr members
  | _ => inl (AttributeError "object has no attribute 'items'")
  end.

(** ** Writing and reading text files *)

Definition nl : string := String "010"%char EmptyString.

(** [open(p, 'w', encoding='utf-8')] followed by writing [text]: the
    file is created or truncated. *)
Definition write_text (os : OS) (p text : string) : exn + OS :=
  if os_isdir os p then inl (OSError IsADirectoryError p)
  else if negb (os_writable os p) then inl (OSError PermissionError p)
  else
    let readable :=
      match os_files os !! p with Some f => f_readable f | None => true end in
    inr (mkOS (<[p := mkFile (list_byte_of_string text) readable]>
                 (os_files os))
              (os_isdir os) (os_walk os) (os_writable os) (os_mtime os)
              (os_relpath os) (os_now os)).

Definition byte_in (lo hi : Z) (b : byte) : bool :=
  (lo <=? byte_val b) && (byte_val b <=? hi).

(** Well-formed UTF-8, as the strict decoder accepts it. *)
Fixpoint utf8_valid (bs : list byte) : bool :=
  match bs with
  | [] => true
  | b0 :: r =>
      if byte_in 0 0x7F b0 then utf8_valid r
      else
        match r with
        | [] => false
        | b1 :: r1 =>
            if byte_in 0xC2 0xDF b0
            then byte_in 0x80 0xBF b1 && utf8_valid r1
            else
              match r1 with
              | [] => false
              | b2 :: r2 =>
                  if byte_in 0xE0 0xEF b0 then
                    byte_in (if byte_in 0xE0 0xE0 b0 then 0xA0 else 0x80)
                            (if byte_in 0xED 0xED b0 then 0x9F else 0xBF) b1
                    && byte_in 0x80 0xBF b2 && utf8_valid r2
                  else
                    match r2 with
                    | [] => false
                    | b3 :: r3 =>
                        byte_in 0xF0 0xF4 b0
                        && byte_in (if byte_in 0xF0 0xF0 b0
                                    then 0x90 else 0x80)
                                   (if byte_in 0xF4 0xF4 b0
                                    then 0x8F else 0xBF) b1
                        && byte_in 0x80 0xBF b2 && byte_in 0x80 0xBF b3
                        && utf8_valid r3
                    end
              end
        end
  end.

(** [open(p, 'r', encoding='utf-8')] and reading the whole text; bytes
    that are not UTF-8 raise [UnicodeDecodeError], a [ValueError]. *)
Definition read_text (os : OS) (p : string) : exn + string :=
  match open_rb os p with
  | inl e => inl e
  | inr bs =>
      if utf8_valid bs then inr (string_of_list_byte bs)
      else inl (ValueError "'utf-8' codec can't decode bytes")
  end.

(** [os.stat(p)]: size and modification time. *)
Definition os_stat (os : OS) (p : string) : exn + (Z * string) :=
  match os_files os !! p with
  | Some f => inr (Z.of_nat (length (f_bytes f)), os_mtime os p)
  | None => inl (OSError FileNotFoundError p)
  end.

(** [os.path.dirname] of [posixpath]: everything up to the last slash,
    without trailing slashes unless it consists of slashes only. *)
Fixpoint rstrip_slash_rev (r : list ascii) : list ascii :=
  match r with
  | c :: r' => if Ascii.eqb c "/"%char then rstrip_slash_rev r' else r
  | [] => []
  end.

Fixpoint drop_basename_rev (r : list ascii) : list ascii :=
  match r with
  | c :: r' => if Ascii.eqb c "/"%char then r else drop_basename_rev r'
  | [] => []
  end.

Definition os_path_dirname (p : string) : string :=
  let head_rev := drop_basename_rev (rev (list_ascii_of_string p)) in
  if forallb (Ascii.eqb "/"%char) head_rev
  then string_of_list_ascii (rev head_rev)
  else string_of_list_ascii (rev (rstrip_slash_rev head_rev)).

(** [s.replace(old, new)] for a non-empty [old]; [skip] counts the
    characters of a match still to be dropped. *)
Fixpoint str_replace_from (old new : string) (skip : nat) (s : string)
  : string :=
  match s with
  | EmptyString => EmptyString
  | String c s' =>
      match skip with
      | S n => str_replace_from old new n s'
      | O =>
          if String.prefix old s
          then new +:+ str_replace_from old new (String.length old - 1) s'
          else String c (str_replace_from old new 0 s')
      end
  end.

Definition str_replace (old new s : string) : string :=
  str_replace_from old new 0 s.

Definition concat_lines (lines : list string) : string :=
  fold_right (fun l acc => l +:+ nl +:+ acc) "" lines.

(** ** The manifest codec *)

Section Codec.
Context {JM : Json_module}.

(** The entry stored for one hashed file. *)
Definition file_record (os : OS) (file_path hash_value : string) : json :=
  let '(file_size, file_mtime) :=
    match os_stat os file_path with
    | inr (size, mtime) => (JInt size, JFloat mtime)
    | inl _ => (JInt 0, JInt 0)
    end in
  JObj [ ("hash", JStr hash_value);
         ("full_path", JStr file_path);
         ("size", file_size);
         ("modified", file_mtime) ].

(** [for file_path, hash_value in hash_data.items(): ...]: only a
    [ValueError] of [relpath] is handled here. *)
Fixpoint add_records (os : OS) (base_path : string)
    (items : list (string * string)) (hashes : dict json)
  : exn + dict json :=
  match items with
  | [] => inr hashes
  | (file_path, hash_value) :: rest =>
      do rel_path <- match os_relpath os file_path base_path with
                     | inr rel_path => inr rel_path
                     | inl (ValueError _) => inr file_path
                     | inl e => inl e
                     end ;;
      add_records os base_path rest
        (dict_set hashes rel_path (file_record os file_path hash_value))
  end.

Definition manifest_metadata (os : OS) (hash_data : dict string)
    (error_files : list string) (algorithm scan_location : string) : json :=
  JObj [ ("algorithm", JStr algorithm);
         ("scan_location", JStr scan_location);
         ("timestamp", JStr (os_now os 0));
         ("total_files", JInt (Z.of_nat (dict_len hash_data)));
         ("error_files", JInt (Z.of_nat (length error_files)));
         ("application", JStr "File Hash Generator v2.0") ].

(** [base_path]: the directory against which paths are made relative. *)
Definition manifest_base (os : OS) (scan_location : string) : string :=
  if os_path_isfile os scan_location
  then os_path_dirname scan_location else scan_location.

(** The key under which a path is stored: its relative path, or the
    path itself when [relpath] raises. *)
Definition rel_key (os : OS) (base_path file_path : string) : string :=
  match os_relpath os file_path base_path with
  | inr rel_path => rel_path
  | inl _ => file_path
  end.

(** The dictionary [data] that [save_hashes] writes. *)
Definition manifest_data (os : OS) (hash_data : dict string)
    (error_files : list string) (algorithm scan_location : string)
  : exn + json :=
  let base_path := manifest_base os scan_location in
  do hashes <- add_records os base_path hash_data [] ;;
  inr (JObj [ ("metadata",
               manifest_metadata os hash_data error_files
                                 algorithm scan_location);
              ("hashes", JObj hashes);
              ("errors", JArr (map JStr error_files)) ]).

Definition error_report (os : OS) (error_files : list string)
    (algorithm scan_location : string) : string :=
  "Error Report - " +:+ os_now os 1 +:+ nl
  +:+ "Scan Location: " +:+ scan_location +:+ nl
  +:+ "Algorithm: " +:+ algorithm +:+ nl +:+ nl
  +:+ "Files with errors:" +:+ nl
  +:+ string_of_list_ascii (repeat "="%char 50) +:+ nl
  +:+ concat_lines error_files.

(** [save_hashes]: the file system afterwards and the value returned.
    An exception anywhere leaves what was written before it and
    returns [False]. *)
Definition save_hashes (os : OS) (hash_data : dict string)
    (error_files : list string)
    (output_file algorithm scan_location : string) : OS * bool :=
  match manifest_data os hash_data error_files algorithm scan_location with
  | inl _ => (os, false)
  | inr data =>
      match write_text os output_file (json_dump data) with
      | inl _ => (os, false)
      | inr os1 =>
          match error_files with
          | [] => (os1, true)
          | _ :: _ =>
              let error_file :=
                str_replace ".json" "_errors.txt" output_file in
              match write_text os1 error_file
                      (error_report os error_files algorithm scan_location)
              with
              | inl _ => (os1, false)
              | inr os2 => (os2, true)
              end
          end
      end
  end.

(** The body of the [try] of [load_hashes]. *)
Definition load_hashes_body (os : OS) (hash_file : string) : exn + json :=
  do text <- read_text os hash_file ;;
  do data <- json_load text ;;
  (* if 'metadata' not in data or 'hashes' not in data: raise *)
  do has_metadata <- py_in "metadata" data ;;
  if negb has_metadata then inl (ValueError "Invalid hash file format")
  else
    do has_hashes <- py_in "hashes" data ;;
    if negb has_hashes then inl (ValueError "Invalid hash file format")
    else inr data.

(** [load_hashes]: any exception of the body is printed and turned
    into [None]. *)
Definition load_hashes (os : OS) (hash_file : string)
  : exn + option json :=
  try_except (sum_map id Some (load_hashes_body os hash_file))
             (fun _ => inr None).
End Codec.

(** ** The verifier *)

Record verify_state : Type := mkVerify {
  v_results : dict string;               (* rel_path -> outcome *)
  v_corrupted : list json;               (* corrupted_files *)
  v_errors : list string;                (* error_files *)
  v_completed : nat;                     (* completed_files *)
  v_progress : list (nat * nat * string);(* calls of progress_callback *)
  v_hashed : list string                 (* paths whose digest was computed *)
}.

Definition verify_init : verify_state := mkVerify [] [] [] 0 [] [].

(** The [if]/[elif] chain that sets [current_path]. [base_path] is
    [None] or a string; [full_path] is whatever the manifest holds:
    [os.path.exists] raises [TypeError] on a value that is no path
    (integers, which it would take for file descriptors, are outside
    this model). *)
Definition resolve_current_path (os : OS) (base_path : option string)
    (rel_path : string) (full_path : json) : exn + option string :=
  if truthy base_path
     && os_path_exists os (os_path_join (default "" base_path) rel_path)
  then inr (Some (os_path_join (default "" base_path) rel_path))
  else
    match full_path with
    | JStr fp =>
        if os_path_exists os fp then inr (Some fp)
        else if os_path_exists os rel_path then inr (Some rel_path)
        else inr None
    | _ => inl (TypeError "stat: path should be string, bytes or os.PathLike")
    end.

(** The resolution as the specification words it: the candidates in
    their order of precedence, the first that exists wins. *)
Definition candidates (base_path : option string)
    (rel_path full_path : string) : list string :=
  (if truthy base_path
   then [os_path_join (default "" base_path) rel_path] else [])
  ++ [full_path; rel_path].

Definition resolve_spec (os : OS) (base_path : option string)
    (rel_path full_path : string) : option string :=
  List.find (os_path_exists os) (candidates base_path rel_path full_path).

(** The stored absolute path of an entry; the empty path, which never
    exists, when the entry has none. *)
Definition json_path (full_path : json) : string :=
  match full_path with JStr s => s | _ => "" end.

Definition entry_full_path (file_info : json) : string :=
  match file_info with
  | JObj members => json_path (default (JStr "") (dict_get members "full_path"))
  | _ => ""
  end.

(** The path checked for an entry, if any. *)
Definition entry_path (os : OS) (base_path : option string)
    (entry : string * json) : option string :=
  resolve_spec os base_path (fst entry) (entry_full_path (snd entry)).

(** The paths checked for the entries [done], in order. *)
Definition resolved_paths (os : OS) (base_path : option string)
    (done : list (string * json)) : list string :=
  flat_map (fun entry =>
              match entry_path os base_path entry with
              | Some p => [p]
              | None => []
              end) done.

Definition record_progress (cb : bool) (total_files : nat) (path : string)
    (st : verify_state) : verify_state :=
  let completed := S (v_completed st) in
  mkVerify (v_results st) (v_corrupted st) (v_errors st) completed
           (if cb then v_progress st ++ [(completed, total_files, path)]
            else v_progress st)
           (v_hashed st).

Definition set_outcome (rel_path outcome : string) (st : verify_state)
  : verify_state :=
  mkVerify (dict_set (v_results st) rel_path outcome) (v_corrupted st)
           (v_errors st) (v_completed st) (v_progress st) (v_hashed st).

Definition add_error (msg : string) (st : verify_state) : verify_state :=
  mkVerify (v_results st) (v_corrupted st) (v_errors st ++ [msg])
           (v_completed st) (v_progress st) (v_hashed st).

Definition add_corrupted (c : json) (st : verify_state) : verify_state :=
  mkVerify (v_results st) (v_corrupted st ++ [c]) (v_errors st)
           (v_completed st) (v_progress st) (v_hashed st).

Definition add_hashed (path : string) (st : verify_state) : verify_state :=
  mkVerify (v_results st) (v_corrupted st) (v_errors st)
           (v_completed st) (v_progress st) (v_hashed st ++ [path]).

Section Verifier.
Context {HL : Hashlib} {JM : Json_module}.

(** [self.calculate_file_hash(current_path, algorithm)] with the
    algorithm as the manifest gives it: a value that is no string is
    not a key of [SUPPORTED_ALGORITHMS], and the exception of the test
    is handled inside; no file is opened. *)
Definition calculate_file_hash_json (os : OS) (stop : nat -> bool)
    (file_path : string) (algorithm : json) : exn + option string :=
  match algorithm with
  | JStr a => snd (calculate_file_hash os stop file_path a
                                       default_chunk_size)
  | _ => inr None
  end.

(** One iteration of [for rel_path, file_info in hashes.items()], after
    the test of the flag. *)
Definition verify_step (os : OS) (stops : Stops)
    (base_path : option string) (cb : bool) (algorithm : json)
    (total_files : nat) (rel_path : string) (file_info : json)
    (st : verify_state) : exn + verify_state :=
  do stored_hash <- json_getitem file_info "hash" ;;
  (* full_path = file_info.get('full_path', '') *)
  let full_path :=
    match file_info with
    | JObj members => default (JStr "") (dict_get members "full_path")
    | _ => JStr ""
    end in
  do current <- resolve_current_path os base_path rel_path full_path ;;
  if negb (truthy current) then
    inr (record_progress cb total_files rel_path
           (add_error (rel_path +:+ " - File not found")
              (set_outcome rel_path "FILE_NOT_FOUND" st)))
  else
    let current_path := default "" current in
    let st1 := add_hashed current_path st in
    let st2 :=
      match calculate_file_hash_json os
              (stop_hash stops current_path) current_path algorithm
      with
      | inl e =>
          add_error (rel_path +:+ " - Verification error: " +:+ exn_str e)
            (set_outcome rel_path "VERIFICATION_ERROR" st1)
      | inr None =>
          add_error (rel_path +:+ " - Unable to read file")
            (set_outcome rel_path "READ_ERROR" st1)
      | inr (Some current_hash) =>
          if is_JStr current_hash stored_hash then
            set_outcome rel_path "MATCH" st1
          else
            add_corrupted
              (JObj [ ("path", JStr current_path);
                      ("relative_path", JStr rel_path);
                      ("stored_hash", stored_hash);
                      ("current_hash", JStr current_hash);
                      ("algorithm", algorithm) ])
              (set_outcome rel_path "MISMATCH" st1)
      end in
    inr (record_progress cb total_files current_path st2).

(** [for rel_path, file_info in hashes.items():
       if self.stop_event.is_set(): break
       ...]
    An exception ends the loop with the state reached. *)
Fixpoint verify_loop (os : OS) (stops : Stops) (base_path : option string)
    (cb : bool) (algorithm : json) (total_files : nat)
    (items : list (string * json)) (k : nat) (st : verify_state)
  : verify_state * option exn :=
  match items with
  | [] => (st, None)
  | (rel_path, file_info) :: rest =>
      if stop_loop stops k then (st, None)
      else
        match verify_step os stops base_path cb algorithm total_files
                          rel_path file_info st with
        | inl e => (st, Some e)
        | inr st' =>
            verify_loop os stops base_path cb algorithm total_files
                        rest (S k) st'
        end
  end.

Record verify_run : Type := mkRun {
  run_return : exn + (dict string * list json * list string);
  run_progress : list (nat * nat * string);
  run_hashed : list string
}.

(** [verify_integrity] *)
Definition verify_integrity (os : OS) (stops : Stops)
    (hash_file : string) (base_path : option string) (cb : bool)
  : verify_run :=
  match load_hashes os hash_file with
  | inl e => mkRun (inl e) [] []
  | inr None => mkRun (inr ([], [], ["Failed to load hash file"])) [] []
  | inr (Some hash_data) =>
      match
        do metadata <- json_getitem hash_data "metadata" ;;
        do algorithm <- json_getitem metadata "algorithm" ;;
        do hashes <- json_getitem hash_data "hashes" ;;
        do total_files <- json_len hashes ;;
        do items <- json_items hashes ;;
        inr (algorithm, total_files, items)
      with
      | inl e => mkRun (inl e) [] []
      | inr (algorithm, total_files, items) =>
          let '(st, raised) :=
            verify_loop os stops base_path cb algorithm total_files
                        items 0 verify_init in
          mkRun match raised with
                | Some e => inl e
                | None => inr (v_results st, v_corrupted st, v_errors st)
                end
                (v_progress st) (v_hashed st)
      end
  end.

(** [sum(1 for r in results.values() if r == outcome)] *)
Definition count_outcome (outcome : string) (results : dict string) : nat :=
  length (List.filter (String.eqb outcome) (dict_values results)).

Definition results_json (results : dict string) : json :=
  JObj (map (fun '(k, v) => (k, JStr v)) results).

(** The dictionary [report] of [save_verification_report]. *)
Definition verification_report (os : OS) (results : dict string)
    (corrupted_files : list json) (error_files : list string)
    (hash_file : string) : json :=
  JObj
    [ ("metadata",
       JObj [ ("verification_time", JStr (os_now os 0));
              ("source_hash_file", JStr hash_file);
              ("total_files_checked", JInt (Z.of_nat (dict_len results)));
              ("corrupted_files",
               JInt (Z.of_nat (length corrupted_files)));
              ("error_files", JInt (Z.of_nat (length error_files)));
              ("application", JStr "File Hash Generator v2.0") ]);
      ("summary",
       JObj [ ("matches", JInt (Z.of_nat (count_outcome "MATCH" results)));
              ("mismatches",
               JInt (Z.of_nat (count_outcome "MISMATCH" results)));
              ("not_found",
               JInt (Z.of_nat (count_outcome "FILE_NOT_FOUND" results)));
              ("read_errors",
               JInt (Z.of_nat (count_outcome "READ_ERROR" results)));
              ("verification_errors",
               JInt (Z.of_nat
                       (count_outcome "VERIFICATION_ERROR" results))) ]);
      ("detailed_results", results_json results);
      ("corrupted_files", JArr corrupted_files);
      ("errors", JArr (map JStr error_files)) ].

(** [report['summary'][name]] *)
Definition summary_field (report : json) (name : string) : exn + json :=
  match json_getitem report "summary" with
  | inl e => inl e
  | inr summary => json_getitem summary name
  end.

(** The five outcomes. *)
Definition outcomes : list string :=
  ["MATCH"; "MISMATCH"; "FILE_NOT_FOUND"; "READ_ERROR";
   "VERIFICATION_ERROR"].


(** The entries a verification considers: those of the manifest that
    the loop reaches before it sees the flag set. *)
Definition entries_considered (os : OS) (stops : Stops) (hash_file : string)
  : dict json :=
  match load_hashes os hash_file with
  | inr (Some hash_data) =>
      match json_getitem hash_data "hashes" with
      | inr (JObj items) =>
          firstn (iterations (stop_loop stops) (length items) 0) items
      | _ => []
      end
  | _ => []
  end.

End Verifier.

(** ** A reference [json] module

    [json.dumps(data, indent=2, ensure_ascii=False)] and [json.loads] of
    CPython, on byte strings that hold UTF-8. *)

Module PyJson.

Definition dquote : ascii := "034"%char.
Definition code (c : ascii) : Z := Z.of_N (N_of_ascii c).
Definition chr (n : Z) : ascii := ascii_of_N (Z.to_N n).

(** *** Printing *)

(** The replacement of one character inside a string literal. *)
Definition escape_char (c : ascii) : list ascii :=
  let n := code c in
  if n =? 34 then ["\"%char; dquote]
  else if n =? 92 then ["\"%char; "\"%char]
  else if n =? 8 then ["\"%char; "b"%char]
  else if n =? 12 then ["\"%char; "f"%char]
  else if n =? 10 then ["\"%char; "n"%char]
  else if n =? 13 then ["\"%char; "r"%char]
  else if n =? 9 then ["\"%char; "t"%char]
  else if n <? 32 then
    "\"%char :: "u"%char :: list_ascii_of_string (format_0x 4 n)
  else [c].

Definition quote (s : string) : string :=
  string_of_list_ascii
    (dquote :: flat_map escape_char (list_ascii_of_string s) ++ [dquote]).

Definition float_text (repr : string) : string :=
  if String.eqb repr "nan" then "NaN"
  else if String.eqb repr "inf" then "Infinity"
  else if String.eqb repr "-inf" then "-Infinity"
  else repr.

Definition int_text (n : Z) : string :=
  DecimalString.NilZero.string_of_int (Z.to_int n).

Definition indent (level : nat) : string :=
  string_of_list_ascii (repeat " "%char (2 * level)).

Fixpoint join (sep : string) (parts : list string) : string :=
  match parts with
  | [] => ""
  | [p] => p
  | p :: rest => p +:+ sep +:+ join sep rest
  end.

Fixpoint dump_value (level : nat) (j : json) {struct j} : string :=
  match j with
  | JNull => "null"
  | JBool true => "true"
  | JBool false => "false"
  | JInt n => int_text n
  | JFloat r => float_text r
  | JStr s => quote s
  | JArr [] => "[]"
  | JArr items =>
      "[" +:+ nl
      +:+ join ("," +:+ nl)
            (map (fun x => indent (S level) +:+ dump_value (S level) x)
                 items)
      +:+ nl +:+ indent level +:+ "]"
  | JObj [] => "{}"
  | JObj members =>
      "{" +:+ nl
      +:+ join ("," +:+ nl)
            (map (fun kv =>
                    indent (S level) +:+ quote (fst kv) +:+ ": "
                    +:+ dump_value (S level) (snd kv))
                 members)
      +:+ nl +:+ indent level +:+ "}"
  end.

Definition dumps (data : json) : string := dump_value 0 data.

(** *** Parsing *)

Definition is_ws (c : ascii) : bool :=
  let n := code c in (n =? 32) || (n =? 9) || (n =? 10) || (n =? 13).

Fixpoint skip_ws (s : list ascii) : list ascii :=
  match s with
  | c :: r => if is_ws c then skip_ws r else s
  | [] => []
  end.

Definition is_digit (c : ascii) : bool :=
  (48 <=? code c) && (code c <=? 57).

Fixpoint span_digits (s : list ascii) : list ascii * list ascii :=
  match s with
  | c :: r =>
      if is_digit c
      then let '(ds, rest) := span_digits r in (c :: ds, rest)
      else ([], s)
  | [] => ([], [])
  end.

Definition hexval (c : ascii) : option Z :=
  let n := code c in
  if (48 <=? n) && (n <=? 57) then Some (n - 48)
  else if (97 <=? n) && (n <=? 102) then Some (n - 87)
  else if (65 <=? n) && (n <=? 70) then Some (n - 55)
  else None.

Definition hex4 (a b c d : ascii) : option Z :=
  match hexval a, hexval b, hexval c, hexval d with
  | Some x, Some y, Some z, Some w => Some (((x * 16 + y) * 16 + z) * 16 + w)
  | _, _, _, _ => None
  end.

(** UTF-8 of a code point. *)
Definition utf8 (cp : Z) : list ascii :=
  if cp <? 0x80 then [chr cp]
  else if cp <? 0x800 then
    [chr (0xC0 + cp / 64); chr (0x80 + cp mod 64)]
  else if cp <? 0x10000 then
    [chr (0xE0 + cp / 4096); chr (0x80 + (cp / 64) mod 64);
     chr (0x80 + cp mod 64)]
  else
    [chr (0xF0 + cp / 262144); chr (0x80 + (cp / 4096) mod 64);
     chr (0x80 + (cp / 64) mod 64); chr (0x80 + cp mod 64)].

Definition simple_escape (c : ascii) : option ascii :=
  let n := code c in
  if n =? 34 then Some dquote
  else if n =? 92 then Some "\"%char
  else if n =? 47 then Some "/"%char
  else if n =? 98 then Some (chr 8)
  else if n =? 102 then Some (chr 12)
  else if n =? 110 then Some (chr 10)
  else if n =? 114 then Some (chr 13)
  else if n =? 116 then Some (chr 9)
  else None.

(** A low surrogate escape at the head of [s]. *)
Definition low_surrogate (s : list ascii) : option Z :=
  match s with
  | b :: u :: g1 :: g2 :: g3 :: g4 :: _ =>
      if (code b =? 92) && (code u =? 117) then
        match hex4 g1 g2 g3 g4 with
        | Some lo => if (0xDC00 <=? lo) && (lo <=? 0xDFFF)
                     then Some lo else None
        | None => None
        end
      else None
  | _ => None
  end.

(** The rest of a string literal, after its opening quote; [acc] holds
    the characters decoded so far, last first. *)
Fixpoint parse_string (s : list ascii) (acc : list ascii)
  : option (string * list ascii) :=
  match s with
  | [] => None
  | c :: r =>
      if code c =? 34 then Some (string_of_list_ascii (rev acc), r)
      else if code c =? 92 then
        match r with
        | [] => None
        | e :: r1 =>
            if code e =? 117 then
              match r1 with
              | h1 :: h2 :: h3 :: h4 :: r5 =>
                  match hex4 h1 h2 h3 h4 with
                  | None => None
                  | Some cp =>
                      match
                        (if (0xD800 <=? cp) && (cp <=? 0xDBFF)
                         then low_surrogate r5 else None), r5
                      with
                      | Some lo, _ :: _ :: _ :: _ :: _ :: _ :: r11 =>
                          parse_string r11
                            (rev (utf8 (0x10000 + (cp - 0xD800) * 1024
                                        + (lo - 0xDC00))) ++ acc)
                      | _, _ => parse_string r5 (rev (utf8 cp) ++ acc)
                      end
                  end
              | _ => None
              end
            else
              match simple_escape e with
              | Some x => parse_string r1 (x :: acc)
              | None => None
              end
        end
      else if code c <? 32 then None
      else parse_string r (c :: acc)
  end.

Definition to_int (ds : list ascii) : option Z :=
  option_map Z.of_int
    (DecimalString.NilZero.int_of_string (string_of_list_ascii ds)).

(** A number at the head of [s], as the scanner's regular expression
    matches it: an optional minus sign, then a zero or a digit string
    without leading zero, then optionally a point with digits, then
    optionally an exponent. A part that does not match is left in the
    input. *)
Definition parse_number (s : list ascii) : option (json * list ascii) :=
  let '(sign, s1) :=
    match s with
    | c :: r => if code c =? 45 then ([c], r) else ([], s)
    | [] => ([], s)
    end in
  match s1 with
  | [] => None
  | d :: r1 =>
      if negb (is_digit d) then None
      else
        let '(ipart, s2) :=
          if code d =? 48 then ([d], r1) else span_digits s1 in
        let '(frac, s3) :=
          match s2 with
          | p :: r2 =>
              if code p =? 46 then
                match span_digits r2 with
                | ([], _) => ([], s2)
                | (ds, rest) => (p :: ds, rest)
                end
              else ([], s2)
          | [] => ([], s2)
          end in
        let '(expo, s4) :=
          match s3 with
          | e :: r3 =>
              if (code e =? 101) || (code e =? 69) then
                let '(sg, r4) :=
                  match r3 with
                  | x :: r' =>
                      if (code x =? 43) || (code x =? 45)
                      then ([x], r') else ([], r3)
                  | [] => ([], r3)
                  end in
                match span_digits r4 with
                | ([], _) => ([], s3)
                | (ds, rest) => (e :: sg ++ ds, rest)
                end
              else ([], s3)
          | [] => ([], s3)
          end in
        match frac, expo with
        | [], [] =>
            match to_int (sign ++ ipart) with
            | Some n => Some (JInt n, s4)
            | None => None
            end
        | _, _ =>
            Some (JFloat (string_of_list_ascii
                            (sign ++ ipart ++ frac ++ expo)), s4)
        end
  end.

Fixpoint strip_prefix (p s : list ascii) : option (list ascii) :=
  match p, s with
  | [], _ => Some s
  | a :: p', b :: s' => if Ascii.eqb a b then strip_prefix p' s' else None
  | _ :: _, [] => None
  end.

Definition parse_literal (s : list ascii) : option (json * list ascii) :=
  let try_lit (text : string) (v : json) :=
    option_map (pair v) (strip_prefix (list_ascii_of_string text) s) in
  match try_lit "null" JNull with
  | Some r => Some r
  | None =>
  match try_lit "true" (JBool true) with
  | Some r => Some r
  | None =>
  match try_lit "false" (JBool false) with
  | Some r => Some r
  | None =>
  match parse_number s with
  | Some r => Some r
  | None =>
  match try_lit "NaN" (JFloat "nan") with
  | Some r => Some r
  | None =>
  match try_lit "Infinity" (JFloat "inf") with
  | Some r => Some r
  | None => try_lit "-Infinity" (JFloat "-inf")
  end end end end end end.

(** [parse_value fuel s]: the value at the head of [s] (no leading
    white space) and what follows it. [parse_items] reads the elements
    of an array after the first, [parse_members] the members of an
    object; a repeated key keeps its first position and takes the last
    value, as a Python [dict] does. *)
Fixpoint parse_value (fuel : nat) (s : list ascii)
  : option (json * list ascii) :=
  match fuel with
  | O => None
  | S fuel' =>
      match s with
      | [] => None
      | c :: r =>
          if code c =? 34 then
            option_map (fun '(str, rest) => (JStr str, rest))
                       (parse_string r [])
          else if code c =? 91 then
            match skip_ws r with
            | c1 :: r1 =>
                if code c1 =? 93 then Some (JArr [], r1)
                else
                  match parse_value fuel' (c1 :: r1) with
                  | None => None
                  | Some (v, rest) =>
                      option_map (fun '(vs, rest') => (JArr (v :: vs), rest'))
                                 (parse_items fuel' (skip_ws rest))
                  end
            | [] => None
            end
          else if code c =? 123 then
            match skip_ws r with
            | c1 :: r1 =>
                if code c1 =? 125 then Some (JObj [], r1)
                else
                  option_map (fun '(ms, rest') => (JObj ms, rest'))
                             (parse_members fuel' (c1 :: r1) [])
            | [] => None
            end
          else parse_literal s
      end
  end

with parse_items (fuel : nat) (s : list ascii)
  : option (list json * list ascii) :=
  match fuel with
  | O => None
  | S fuel' =>
      match s with
      | c :: r =>
          if code c =? 93 then Some ([], r)
          else if code c =? 44 then
            match parse_value fuel' (skip_ws r) with
            | None => None
            | Some (v, rest) =>
                option_map (fun '(vs, rest') => (v :: vs, rest'))
                           (parse_items fuel' (skip_ws rest))
            end
          else None
      | [] => None
      end
  end

with parse_members (fuel : nat) (s : list ascii) (acc : dict json)
  : option (dict json * list ascii) :=
  match fuel with
  | O => None
  | S fuel' =>
      match s with
      | c :: r =>
          if code c =? 34 then
            match parse_string r [] with
            | None => None
            | Some (key, rest) =>
                match skip_ws rest with
                | c1 :: r1 =>
                    if code c1 =? 58 then
                      match parse_value fuel' (skip_ws r1) with
                      | None => None
                      | Some (v, rest1) =>
                          let acc' := dict_set acc key v in
                          match skip_ws rest1 with
                          | c2 :: r2 =>
                              if code c2 =? 125 then Some (acc', r2)
                              else if code c2 =? 44 then
                                parse_members fuel' (skip_ws r2) acc'
                              else None
                          | [] => None
                          end
                      end
                    else None
                | [] => None
                end
            end
          else None
      | [] => None
      end
  end.

(** [json.loads]: one value, white space allowed around it. *)
Definition loads (text : string) : exn + json :=
  let s := list_ascii_of_string text in
  match parse_value (2 * length s + 2) (skip_ws s) with
  | Some (v, rest) =>
      match skip_ws rest with
      | [] => inr v
      | _ :: _ => inl (JSONDecodeError "Extra data")
      end
  | None => inl (JSONDecodeError "Expecting value")
  end.

End PyJson.

#[export] Instance py_json : Json_module :=
  {| json_dump := PyJson.dumps; json_load := PyJson.loads |}.


(** What one result adds to the scan: the entry of [results] for a
    digest that is not empty, the entry of [error_files] otherwise. *)
Definition hashed_of (fut : string * (exn + option string))
  : list (string * string) :=
  match snd fut with
  | inr (Some h) => if String.eqb h "" then [] else [(fst fut, h)]
  | _ => []
  end.

Definition failed_of (fut : string * (exn + option string)) : list string :=
  match snd fut with
  | inr hash_value => if truthy hash_value then [] else [fst fut]
  | inl e => [fst fut +:+ " - Error: " +:+ exn_str e]
  end.

(** ** What a verification does with one entry

    The outcome, the corruption record, the error entry and the path
    reported to the callback for one entry of the manifest, each as a
    function of that entry alone. *)

Section EntryOutcome.
Context {HL : Hashlib}.

(** [file_info['hash']] *)
Definition entry_stored_hash (file_info : json) : json :=
  match json_getitem file_info "hash" with
  | inr stored_hash => stored_hash
  | inl _ => JNull
  end.

(** The digest computed for the path found for an entry. *)
Definition entry_digest (os : OS) (stops : Stops) (base_path : option string)
    (algorithm : json) (entry : string * json)
  : option (string * (exn + option string)) :=
  match entry_path os base_path entry with
  | None => None
  | Some current_path =>
      Some (current_path,
            calculate_file_hash_json os (stop_hash stops current_path)
                                     current_path algorithm)
  end.

Definition entry_outcome (os : OS) (stops : Stops)
    (base_path : option string) (algorithm : json) (entry : string * json)
  : string :=
  match entry_digest os stops base_path algorithm entry with
  | None => "FILE_NOT_FOUND"
  | Some (_, inl _) => "VERIFICATION_ERROR"
  | Some (_, inr None) => "READ_ERROR"
  | Some (_, inr (Some current_hash)) =>
      if is_JStr current_hash (entry_stored_hash (snd entry))
      then "MATCH" else "MISMATCH"
  end.

Definition entry_corrupted (os : OS) (stops : Stops)
    (base_path : option string) (algorithm : json) (entry : string * json)
  : list json :=
  match entry_digest os stops base_path algorithm entry with
  | Some (current_path, inr (Some current_hash)) =>
      if is_JStr current_hash (entry_stored_hash (snd entry)) then []
      else [JObj [ ("path", JStr current_path);
                   ("relative_path", JStr (fst entry));
                   ("stored_hash", entry_stored_hash (snd entry));
                   ("current_hash", JStr current_hash);
                   ("algorithm", algorithm) ]]
  | _ => []
  end.

Definition entry_errors (os : OS) (stops : Stops)
    (base_path : option string) (algorithm : json) (entry : string * json)
  : list string :=
  match entry_digest os stops base_path algorithm entry with
  | None => [fst entry +:+ " - File not found"]
  | Some (_, inl e) =>
      [fst entry +:+ " - Verification error: " +:+ exn_str e]
  | Some (_, inr None) => [fst entry +:+ " - Unable to read file"]
  | Some (_, inr (Some _)) => []
  end.

(** The path passed to the progress callback for an entry. *)
Definition entry_reported (os : OS) (base_path : option string)
    (entry : string * json) : string :=
  match entry_path os base_path entry with
  | Some current_path => current_path
  | None => fst entry
  end.
End EntryOutcome.

(** ** The verification report on disk *)

(** The builtin [repr], which [str] falls back to for everything but
    strings; [PyRepr] is a reference implementation of it. *)
Class Python_repr : Type := {
  py_repr : json -> string
}.

(** [str(v)], as an f-string formats a value without a format spec. *)
Definition py_str {PR : Python_repr} (v : json) : string :=
  match v with
  | JStr s => s
  | _ => py_repr v
  end.

(** [repr] of CPython on the values of [json]. Bytes above [0x7f] are
    kept as they are, which is right for text that is printable. *)
Module PyRepr.

Definition squote : ascii := "039"%char.

Definition has (c : ascii) (s : string) : bool :=
  existsb (Ascii.eqb c) (list_ascii_of_string s).

(** The replacement of one character inside a literal quoted by [q]. *)
Definition escape_char (q c : ascii) : list ascii :=
  let n := PyJson.code c in
  if Ascii.eqb c q || (n =? 92) then ["\"%char; c]
  else if n =? 9 then ["\"%char; "t"%char]
  else if n =? 10 then ["\"%char; "n"%char]
  else if n =? 13 then ["\"%char; "r"%char]
  else if (n <? 32) || (n =? 127) then
    "\"%char :: "x"%char :: list_ascii_of_string (format_0x 2 n)
  else [c].

(** Single quotes, unless the string has one and has no double quote. *)
Definition repr_str (s : string) : string :=
  let q := if has squote s && negb (has PyJson.dquote s)
           then PyJson.dquote else squote in
  string_of_list_ascii
    (q :: flat_map (escape_char q) (list_ascii_of_string s) ++ [q]).

Fixpoint repr (j : json) {struct j} : string :=
  match j with
  | JNull => "None"
  | JBool true => "True"
  | JBool false => "False"
  | JInt n => PyJson.int_text n
  | JFloat r => r
  | JStr s => repr_str s
  | JArr items => "[" +:+ PyJson.join ", " (map repr items) +:+ "]"
  | JObj members =>
      "{" +:+ PyJson.join ", "
                (map (fun kv => repr_str (fst kv) +:+ ": " +:+ repr (snd kv))
                     members)
      +:+ "}"
  end.

End PyRepr.

#[export] Instance py_repr_ref : Python_repr := {| py_repr := PyRepr.repr |}.

Section Report.
Context {JM : Json_module} {PR : Python_repr}.

(** The value of [{file_info[key]}] inside an f-string. *)
Definition format_field (file_info : json) (key : string) : exn + string :=
  do v <- json_getitem file_info key ;;
  inr (py_str v).

(** A sequence of [f.write(f"{prefix}{file_info[key]}{suffix}")]: the
    text written, and the exception that ended the sequence, if any. An
    f-string is evaluated before anything of it is written. *)
Fixpoint write_fields (fields : list (string * string * string))
    (file_info : json) : string * option exn :=
  match fields with
  | [] => ("", None)
  | (prefix, key, suffix) :: rest =>
      match format_field file_info key with
      | inl e => ("", Some e)
      | inr v =>
          let '(text, raised) := write_fields rest file_info in
          (prefix +:+ v +:+ suffix +:+ text, raised)
      end
  end.

(** The five lines written for the [i]-th corrupted file. *)
Definition corrupted_fields (i : nat) : list (string * string * string) :=
  [ (PyJson.int_text (Z.of_nat i) +:+ ". ", "relative_path", nl);
    ("   Full Path: ", "path", nl);
    ("   Algorithm: ", "algorithm", nl);
    ("   Expected:  ", "stored_hash", nl);
    ("   Actual:    ", "current_hash", nl +:+ nl) ].

(** [for i, file_info in enumerate(corrupted_files, i): ...] *)
Fixpoint write_corrupted (i : nat) (corrupted_files : list json)
  : string * option exn :=
  match corrupted_files with
  | [] => ("", None)
  | file_info :: rest =>
      match write_fields (corrupted_fields i) file_info with
      | (text, Some e) => (text, Some e)
      | (text, None) =>
          let '(text', raised) := write_corrupted (S i) rest in
          (text +:+ text', raised)
      end
  end.

Definition corrupted_header (os : OS) (corrupted_files : list json)
    (hash_file : string) : string :=
  "Corrupted Files Report - " +:+ os_now os 1 +:+ nl
  +:+ "Source: " +:+ hash_file +:+ nl
  +:+ "Total corrupted files: "
  +:+ PyJson.int_text (Z.of_nat (length corrupted_files)) +:+ nl +:+ nl.

(** What the file of the corrupted files holds once its [with] block is
    left, normally or by an exception. *)
Definition corrupted_listing (os : OS) (corrupted_files : list json)
    (hash_file : string) : string :=
  corrupted_header os corrupted_files hash_file
  +:+ fst (write_corrupted 1 corrupted_files).

(** [save_verification_report]: the file system afterwards and the
    value returned. An exception anywhere leaves what was written
    before it and returns [False]. *)
Definition save_verification_report (os : OS) (results : dict string)
    (corrupted_files : list json) (error_files : list string)
    (output_file hash_file : string) : OS * bool :=
  let report :=
    verification_report os results corrupted_files error_files hash_file in
  match write_text os output_file (json_dump report) with
  | inl _ => (os, false)
  | inr os1 =>
      match corrupted_files with
      | [] => (os1, true)
      | _ :: _ =>
          let corrupted_file :=
            str_replace ".json" "_corrupted.txt" output_file in
          match write_text os1 corrupted_file
                  (corrupted_listing os corrupted_files hash_file)
          with
          | inl _ => (os1, false)
          | inr os2 =>
              (os2,
               match snd (write_corrupted 1 corrupted_files) with
               | None => true
               | Some _ => false
               end)
          end
      end
  end.
End Report.


(** An entry of a manifest on which an iteration of the verifier does
    not raise: an object with a stored digest whose absolute path, if
    it has one, is a string. *)
Definition entry_wellformed (file_info : json) : Prop :=
  exists members stored,
    file_info = JObj members /\
    dict_get members "hash" = Some stored /\
    (dict_get members "full_path" = None \/
     exists full_path, dict_get members "full_path" = Some (JStr full_path)).

(** ** The window: what its worker threads and its result view compute

    Of class [ModernHashGeneratorGUI] the model keeps the computations
    of [hash_thread], [verify_thread] and [display_verify_results]. The
    widgets are represented by the calls the thread makes to them or
    schedules with [root.after], in order; dialog titles are left out.
    Like a progress callback, a call to a widget is assumed to return. *)

Inductive gui_call : Type :=
| SetProgressVar (text : string)
    (* progress_var.set(text), verify_progress_var.set(text) *)
| UpdateStatus (message : string)
    (* self.update_status(message) *)
| UpdateProgress (current total : nat) (current_file : string)
    (* the progress callback: update_progress, update_verify_progress *)
| ShowError (message : string)
    (* messagebox.showerror(title, message) *)
| DisplayResults
    (* display_hash_results, display_verify_results *)
| OperationComplete.
    (* hash_generation_complete, verification_complete, in [finally] *)

(** What a worker thread leaves: the file system, the calls, and the
    attributes it assigned, if it came to assign them. *)
Record thread_run (A : Type) : Type := mkThread {
  t_os : OS;
  t_calls : list gui_call;
  t_result : option A
}.
Arguments mkThread {A} t_os t_calls t_result.
Arguments t_os {A} t.
Arguments t_calls {A} t.
Arguments t_result {A} t.

(** [f"{prefix}{timestamp}.json"] *)
Definition auto_filename (prefix timestamp : string) : string :=
  prefix +:+ timestamp +:+ ".json".

(** Truth value of a list or dictionary. *)
Definition nonempty {A} (l : list A) : bool :=
  match l with [] => false | _ :: _ => true end.

Definition progress_calls (progress : list (nat * nat * string))
  : list gui_call :=
  map (fun '(current, total, current_file) =>
         UpdateProgress current total current_file) progress.

Section Window.
Context {HL : Hashlib} {JM : Json_module} {PR : Python_repr}.

(** [hash_thread] of [generate_hashes]; [timestamp] is what
    [datetime.now().strftime("%Y%m%d_%H%M%S")] gives. *)
Definition hash_thread (os : OS) (stops : Stops) (sched : Scheduler)
    (location algorithm : string) (max_workers : Z) (autosave : bool)
    (timestamp : string) : thread_run (dict string * list string) :=
  let '(returned, progress) :=
    scan_location os stops sched location algorithm true max_workers in
  let calls :=
    [SetProgressVar "Initializing hash generation...";
     UpdateStatus "Starting hash generation..."]
    ++ progress_calls progress in
  match returned with
  | inl e =>
      mkThread os
        (calls ++ [ShowError ("Hash generation failed: " +:+ exn_str e);
                   OperationComplete])
        None
  | inr (hash_results, error_files) =>
      if autosave && (nonempty hash_results || nonempty error_files) then
        let auto := auto_filename "hash_results_" timestamp in
        (* the value save_hashes returns is not looked at *)
        let saved :=
          save_hashes os hash_results error_files auto algorithm location in
        mkThread (fst saved)
          (calls ++ [UpdateStatus ("Results auto-saved to " +:+ auto);
                     DisplayResults; OperationComplete])
          (Some (hash_results, error_files))
      else
        mkThread os (calls ++ [DisplayResults; OperationComplete])
                 (Some (hash_results, error_files))
  end.

End Window.

(** [status_counts] of [display_verify_results]:
    [for status in results.values():
        status_counts[status] = status_counts.get(status, 0) + 1] *)
Definition status_counts (results : dict string) : dict nat :=
  fold_left
    (fun counts status =>
       dict_set counts status (S (default 0%nat (dict_get counts status))))
    (dict_values results)
    [("MATCH", 0%nat); ("MISMATCH", 0%nat); ("FILE_NOT_FOUND", 0%nat);
     ("READ_ERROR", 0%nat); ("VERIFICATION_ERROR", 0%nat)].

(** [grouped] of [display_verify_results]:
    [for file_path, status in results.items():
        if status not in grouped: grouped[status] = []
        grouped[status].append(file_path)] *)
Definition grouped (results : dict string) : dict (list string) :=
  fold_left
    (fun groups '(file_path, status) =>
       let groups1 :=
         if dict_mem status groups then groups
         else dict_set groups status [] in
       dict_set groups1 status
         (default [] (dict_get groups1 status) ++ [file_path]))
    results [].

(** The paths with a given status, in the order of the mapping. *)
Definition paths_with (status : string) (results : dict string)
  : list string :=
  map fst (List.filter (fun entry => String.eqb status (snd entry)) results).

(** ** Concrete environments

    A small digest provider, schedulers and file systems on which the
    model runs. *)

Module Demo.

(** A provider without [xxhash], with [blake3], and whose OpenSSL
    refuses MD5; every hasher is a running CRC with its own start
    value. *)
#[export] Instance hashlib : Hashlib :=
  {| hasher := Z;
     hashlib_md5 := inl (ValueError "unsupported hash type md5");
     hashlib_sha1 := inr 1;
     hashlib_sha3_256 := inr 2;
     hashlib_sha256 := inr 3;
     hashlib_sha512 := inr 4;
     hashlib_blake2b := inr 5;
     XXHASH_AVAILABLE := false;
     xxhash_xxh64 := 6;
     BLAKE3_AVAILABLE := true;
     blake3_blake3 := 7;
     h_update := fun h chunk => zlib_crc32 chunk h;
     h_hexdigest := fun h => format_08x h |}.

(** Results come back in the order of submission. *)
Definition fifo : Scheduler :=
  {| as_completed := fun A l => l;
     as_completed_perm := fun A l => Permutation_refl l |}.

(** The task submitted last finishes first. *)
Definition lifo : Scheduler :=
  {| as_completed := fun A l => rev l;
     as_completed_perm := fun A l => Permutation_rev l |}.

Definition never : nat -> bool := fun _ => false.
Definition always : nat -> bool := fun _ => true.
(** The flag is set once [n] checks have seen it clear. *)
Definition from (n : nat) : nat -> bool := fun k => Nat.leb n k.

Definition no_stop : Stops := mkStops never (fun _ => never) never.
(** The consuming loop sees the flag from its [n]-th iteration on. *)
Definition stop_after (n : nat) : Stops :=
  mkStops never (fun _ => never) (from n).

(** A directory [/data] with the given files (name and content), all
    readable; everything may be written. *)
Definition data_dir (entries : list (string * string)) : OS :=
  {| os_files :=
       list_to_map
         (map (fun e => ("/data/" +:+ fst e,
                         mkFile (list_byte_of_string (snd e)) true))
              entries);
     os_isdir := fun p => String.eqb p "/data";
     os_walk := fun top =>
       inr (if String.eqb top "/data"
            then [("/data", [], map fst entries)] else []);
     os_writable := fun _ => true;
     os_mtime := fun _ => "1700000000.5";
     os_relpath := fun p start =>
       if String.prefix (start +:+ "/") p
       then inr (String.substring (String.length start + 1)
                   (String.length p - String.length start - 1) p)
       else inr p;
     os_now := fun k =>
       if Nat.eqb k 0 then "2024-01-01T00:00:00" else "2024-01-01T00:00:01"
  |}.

Definition three_files : OS :=
  data_dir [("a.bin", "123456789"); ("b.bin", ""); ("c.bin", "abc")].

(** The same, but [/data/b.bin] may not be read. *)
Definition one_locked : OS :=
  {| os_files :=
       <["/data/b.bin" := mkFile [] false]> (os_files three_files);
     os_isdir := os_isdir three_files;
     os_walk := os_walk three_files;
     os_writable := os_writable three_files;
     os_mtime := os_mtime three_files;
     os_relpath := os_relpath three_files;
     os_now := os_now three_files |}.

End Demo.

(* ===================================================================== *)
(** * Part II: properties                                                 *)
(* ===================================================================== *)

(** ** Dictionaries *)

Section DictFacts.
Context {V : Type}.
Implicit Types (d : dict V) (k : string) (v : V).

Lemma dict_get_in_keys d k : dict_mem k d = true <-> In k (dict_keys d).
Proof.
  unfold dict_mem. induction d as [|[k' v'] d IH]; simpl.
  - split; [discriminate | tauto].
  - destruct (String.eqb_spec k k') as [->|Hne].
    + split; auto.
    + rewrite IH. split; [auto | intros [H|H]; [congruence | exact H]].
Qed.

Lemma dict_get_set_eq d k v : dict_get (dict_set d k v) k = Some v.
Proof.
  induction d as [|[k' v'] d IH]; simpl.
  - now rewrite String.eqb_refl.
  - destruct (String.eqb_spec k k') as [->|Hne]; simpl.
    + now rewrite String.eqb_refl.
    + destruct (String.eqb_spec k k'); [contradiction | exact IH].
Qed.

Lemma dict_get_set_ne d k k' v :
  k <> k' -> dict_get (dict_set d k v) k' = dict_get d k'.
Proof.
  intros Hne. induction d as [|[k0 v0] d IH]; simpl.
  - destruct (String.eqb_spec k' k); [congruence | reflexivity].
  - destruct (String.eqb_spec k k0) as [->|Hk]; simpl.
    + destruct (String.eqb_spec k' k0); [congruence | reflexivity].
    + now rewrite IH.
Qed.

Lemma dict_set_old d k v :
  In k (dict_keys d) -> dict_keys (dict_set d k v) = dict_keys d.
Proof.
  induction d as [|[k' v'] d IH]; simpl; [tauto|].
  intros Hin. destruct (String.eqb_spec k k') as [->|Hne]; simpl.
  - reflexivity.
  - f_equal. apply IH. destruct Hin; [congruence | assumption].
Qed.

Lemma dict_set_new d k v :
  ~ In k (dict_keys d) -> dict_set d k v = d ++ [(k, v)].
Proof.
  induction d as [|[k' v'] d IH]; simpl; [reflexivity|].
  intros Hnin. destruct (String.eqb_spec k k') as [->|Hne].
  - tauto.
  - f_equal. apply IH. tauto.
Qed.

Lemma dict_set_len_le d k v :
  (dict_len (dict_set d k v) <= S (dict_len d))%nat.
Proof.
  unfold dict_len. induction d as [|[k' v'] d IH]; simpl; [lia|].
  destruct (String.eqb k k'); simpl; lia.
Qed.

Lemma dict_set_wf d k v : dict_wf d -> dict_wf (dict_set d k v).
Proof.
  unfold dict_wf. intros Hwf.
  destruct (in_dec string_dec k (dict_keys d)) as [Hin|Hnin].
  - now rewrite dict_set_old.
  - rewrite dict_set_new by assumption. unfold dict_keys.
    rewrite map_app. simpl. apply NoDup_app. repeat split.
    + exact Hwf.
    + intros x Hx Hx'. apply list_elem_of_In in Hx, Hx'.
      destruct Hx' as [<-|[]]. contradiction.
    + apply NoDup_singleton.
Qed.
End DictFacts.

Section DictSetFacts.
Context {V : Type}.

Lemma dict_set_keys_in (d : dict V) k v p :
  In p (dict_keys (dict_set d k v)) <-> p = k \/ In p (dict_keys d).
Proof.
  destruct (in_dec string_dec k (dict_keys d)) as [Hin|Hnin].
  - rewrite dict_set_old by exact Hin. split; [auto|].
    intros [->|H]; assumption.
  - rewrite dict_set_new by exact Hnin. unfold dict_keys.
    rewrite map_app, in_app_iff. cbn. split.
    + intros [H|[<-|[]]]; auto.
    + intros [->|H]; auto.
Qed.


Lemma dict_get_not_in (d : dict V) k :
  ~ In k (dict_keys d) -> dict_get d k = None.
Proof.
  induction d as [|[k' v'] d IH]; cbn; [reflexivity|].
  intros Hnin. destruct (String.eqb_spec k k') as [->|_]; [tauto|].
  apply IH. tauto.
Qed.
End DictSetFacts.

(** ** Hexadecimal formatting *)

Section HexFacts.






End HexFacts.

(** ** CRC-32 *)

Section CrcFacts.













End CrcFacts.

(** ** The chunk loop *)

Section ReadLoopFacts.
Context {S : Type}.
Variable upd : S -> list byte -> exn + S.
Variable stop : nat -> bool.
Variable chunk_size : Z.

Lemma read_loop_step rest k st :
  read_loop upd stop chunk_size rest k st =
  match f_read chunk_size rest with
  | [] => ([0%nat], Finished st)
  | b :: bs =>
      if stop k then ([length (b :: bs)], Cancelled)
      else match upd st (b :: bs) with
           | inl e => ([length (b :: bs)], Raised e)
           | inr st' =>
               let r := read_loop upd stop chunk_size
                          (skipn (length (b :: bs)) rest)
                          (Datatypes.S k) st' in
               (length (b :: bs) :: fst r, snd r)
           end
  end.
Proof.
  simp read_loop.
  generalize (inspect (f_read chunk_size rest)). intros [l Hl].
  destruct l as [|b bs]; simp read_loop; cbn; rewrite Hl; reflexivity.
Qed.



Lemma f_read_split rest :
  rest = f_read chunk_size rest
         ++ skipn (length (f_read chunk_size rest)) rest.
Proof.
  unfold f_read. destruct (chunk_size <? 0).
  - rewrite skipn_all. now rewrite app_nil_r.
  - set (n := Z.to_nat chunk_size).
    destruct (Nat.le_gt_cases n (length rest)) as [Hle|Hgt].
    + rewrite length_firstn, Nat.min_l by exact Hle.
      symmetry. apply firstn_skipn.
    + rewrite firstn_all2 by lia. rewrite skipn_all.
      now rewrite app_nil_r.
Qed.

Lemma f_read_eof rest :
  chunk_size <> 0 -> f_read chunk_size rest = [] -> rest = [].
Proof.
  unfold f_read. intros Hcs.
  destruct (Z.ltb_spec chunk_size 0) as [Hneg|Hpos]; [auto|].
  destruct rest as [|b rest]; [reflexivity|].
  destruct (Z.to_nat chunk_size) eqn:E; [lia | discriminate].
Qed.
End ReadLoopFacts.



(** ** The digest provider *)

Section ProviderFacts.
Context {HL : Hashlib}.

Ltac case_provider :=
  unfold SUPPORTED_ALGORITHMS, _get_supported_algorithms, algorithms;
  destruct HL as [hty md5 sha1 sha3 sha256 sha512 blake2b
                    xx xxh64 b3 blake3 update hexdigest];
  cbn [hasher hashlib_md5 hashlib_sha1 hashlib_sha3_256
       hashlib_sha256 hashlib_sha512 hashlib_blake2b XXHASH_AVAILABLE
       xxhash_xxh64 BLAKE3_AVAILABLE blake3_blake3];
  destruct md5, sha1, sha3, sha256, sha512, blake2b, xx, b3.

(** CRC32 is available whatever the provider lacks. *)
Lemma crc32_supported : dict_mem "CRC32" SUPPORTED_ALGORITHMS = true.
Proof. case_provider; reflexivity. Qed.

(** What the table of available algorithms holds: [None] for CRC32 and,
    for any other name, the hasher its constructor returns. *)
Lemma supported_lookup algorithm v :
  dict_get SUPPORTED_ALGORITHMS algorithm = Some v ->
  (algorithm = "CRC32" /\ v = inr None) \/
  (String.eqb algorithm "CRC32" = false /\
   exists h, v = inr (Some h) /\ fresh_hasher algorithm = Some h).
Proof.
  unfold fresh_hasher. case_provider; cbn; intros Hget;
    repeat match type of Hget with
      | context [String.eqb algorithm ?k] =>
          destruct (String.eqb_spec algorithm k) as [->|?];
          [cbn in Hget |- *; injection Hget as <-;
           first [left; split; reflexivity
                 |right; split; [reflexivity|eexists; split; reflexivity]]
          |]
      end;
    discriminate Hget.
Qed.
End ProviderFacts.

(** ** Digests of single files *)

Section DigestFacts.
Context {HL : Hashlib}.


Lemma fresh_hasher_xxhash h :
  fresh_hasher "xxHash64" = Some h -> XXHASH_AVAILABLE = true ->
  h = xxhash_xxh64.
Proof.
  unfold fresh_hasher, algorithms. cbn. intros H Hav.
  rewrite Hav in H. congruence.
Qed.

Lemma fresh_hasher_blake3 h :
  fresh_hasher "Blake3" = Some h -> BLAKE3_AVAILABLE = true ->
  h = blake3_blake3.
Proof.
  unfold fresh_hasher, algorithms. cbn. intros H Hav.
  rewrite Hav in H. congruence.
Qed.
End DigestFacts.








(** ** The concurrent scan *)

Section ScanFacts.
Local Open Scope nat_scope.

(** The loop handles the results it takes one after the other and
    drops the rest. *)
Lemma scan_loop_steps stop cb total futures : forall k st,
  scan_loop stop cb total futures k st
  = scan_steps cb total
      (firstn (iterations stop (length futures) k) futures) st.
Proof.
  induction futures as [|[p r] futures IH]; intros k st; simpl.
  - reflexivity.
  - destruct (stop k); simpl; [reflexivity|]. apply IH.
Qed.


Lemma iterations_all stop n k :
  (forall i, (k <= i < k + n)%nat -> stop i = false) ->
  iterations stop n k = n.
Proof.
  revert k. induction n as [|n IH]; intros k Hstop; simpl; [reflexivity|].
  rewrite Hstop by lia. f_equal. apply IH. intros i Hi. apply Hstop. lia.
Qed.




End ScanFacts.

Section ScanRun.
Context {HL : Hashlib}.
Local Open Scope nat_scope.

Lemma completion_order os stops sched algorithm file_list :
  Permutation file_list
    (map fst (as_completed sched (submit_all os stops algorithm file_list)))
  /\ length (as_completed sched (submit_all os stops algorithm file_list))
     = length file_list.
Proof.
  pose proof (as_completed_perm sched _
                (submit_all os stops algorithm file_list)) as Hperm.
  split.
  - apply (Permutation_map fst) in Hperm.
    unfold submit_all in Hperm at 1. rewrite map_map in Hperm.
    cbn [fst] in Hperm. now rewrite map_id in Hperm.
  - apply Permutation_length in Hperm. rewrite <- Hperm.
    unfold submit_all. apply length_map.
Qed.

(** A scan whose walk succeeded, with a usable pool: the results taken
    before the flag was seen are handled in completion order. *)
Lemma scan_location_run os stops sched location algorithm cb max_workers
    file_list :
  collect_files os stops location = inr file_list ->
  (0 < max_workers)%Z ->
  scan_location os stops sched location algorithm cb max_workers
  = let n := iterations (stop_loop stops) (length file_list) 0 in
    let done :=
      firstn n (as_completed sched
                  (submit_all os stops algorithm file_list)) in
    let st := scan_steps cb (length file_list) done scan_init in
    (inr (results st, error_files st), progress st).
Proof.
  intros Hcollect Hworkers. unfold scan_location. rewrite Hcollect.
  destruct (completion_order os stops sched algorithm file_list)
    as [Hperm Hlen].
  destruct file_list as [|p file_list].
  - cbn [length Nat.eqb iterations firstn scan_steps fold_left].
    reflexivity.
  - cbn [length Nat.eqb].
    destruct (Z.leb_spec max_workers 0) as [Hle|_]; [lia|].
    rewrite scan_loop_steps, Hlen. reflexivity.
Qed.
End ScanRun.






(** ** The manifest codec *)

Section FileFacts.

Lemma string_length_of_list l :
  String.length (string_of_list_ascii l) = length l.
Proof. induction l as [|c l IH]; simpl; [reflexivity | now rewrite IH]. Qed.

(** What was written is what is read back, when the text is UTF-8 and
    the file may be read. *)
Lemma read_after_write os p text os' :
  write_text os p text = inr os' ->
  utf8_valid (list_byte_of_string text) = true ->
  match os_files os !! p with
  | Some f => f_readable f = true
  | None => True
  end ->
  read_text os' p = inr text.
Proof.
  unfold write_text, read_text, open_rb.
  destruct (os_isdir os p); [discriminate|].
  destruct (os_writable os p); [|discriminate].
  cbn [negb]. intros [= <-] Hutf Hread. cbn [os_files].
  rewrite lookup_insert_eq. cbn [f_readable f_bytes].
  destruct (os_files os !! p) as [f|]; [rewrite Hread|];
    rewrite Hutf, string_of_list_byte_of_string; reflexivity.
Qed.

(** Writing one file leaves the others as they were. *)
Lemma read_other_after_write os q text os' p :
  write_text os q text = inr os' -> q <> p ->
  read_text os' p = read_text os p.
Proof.
  unfold write_text, read_text, open_rb.
  destruct (os_isdir os q); [discriminate|].
  destruct (os_writable os q); [|discriminate].
  cbn [negb]. intros [= <-] Hne. cbn [os_files os_isdir].
  now rewrite lookup_insert_ne.
Qed.
End FileFacts.

Section CodecFacts.
Context {JM : Json_module}.

(** The stored mapping gets one entry per hashed file, fewer only when
    two files have the same relative key. *)
Lemma add_records_len os base_path items : forall acc hashes,
  add_records os base_path items acc = inr hashes ->
  (dict_len hashes <= dict_len acc + length items)%nat /\
  (forall q, In q (dict_keys acc) -> In q (dict_keys hashes)) /\
  (NoDup (map (rel_key os base_path) (dict_keys items)) ->
   (forall q, In q (map (rel_key os base_path) (dict_keys items)) ->
              ~ In q (dict_keys acc)) ->
   dict_len hashes = (dict_len acc + length items)%nat).
Proof.
  induction items as [|[file_path hash_value] items IH];
    intros acc hashes Hadd; cbn in Hadd.
  - injection Hadd as <-. cbn. repeat split; auto; lia.
  - assert (Hkey : exists rel_path,
              rel_key os base_path file_path = rel_path /\
              add_records os base_path items
                (dict_set acc rel_path
                   (file_record os file_path hash_value)) = inr hashes).
    { unfold rel_key.
      destruct (os_relpath os file_path base_path) as [[]|rel_path];
        try discriminate; eauto. }
    destruct Hkey as (rel_path & Hrel & Hrest).
    destruct (IH _ _ Hrest) as (Hle & Hsub & Heq).
    pose proof (dict_set_len_le acc rel_path
                  (file_record os file_path hash_value)) as Hset.
    cbn [length dict_keys map fst]. rewrite Hrel.
    split; [lia|]. split.
    + intros q Hq. apply Hsub, dict_set_keys_in. now right.
    + intros Hnd Hfresh. apply NoDup_cons in Hnd as [Hnew Hnd].
      rewrite list_elem_of_In in Hnew.
      rewrite Heq.
      * rewrite dict_set_new by (apply Hfresh; now left).
        unfold dict_len. rewrite length_app. cbn. lia.
      * exact Hnd.
      * intros q Hq Hin. apply dict_set_keys_in in Hin as [->|Hin].
        -- contradiction.
        -- apply (Hfresh q); [now right | exact Hin].
Qed.

Lemma manifest_data_shape os hash_data error_files algorithm scan_location
    data :
  manifest_data os hash_data error_files algorithm scan_location
  = inr data ->
  exists hashes,
    data = JObj [ ("metadata",
                   manifest_metadata os hash_data error_files
                                     algorithm scan_location);
                  ("hashes", JObj hashes);
                  ("errors", JArr (map JStr error_files)) ] /\
    (dict_len hashes <= dict_len hash_data)%nat /\
    (NoDup (map (rel_key os (manifest_base os scan_location))
                (dict_keys hash_data)) ->
     dict_len hashes = dict_len hash_data).
Proof.
  unfold manifest_data. cbv zeta.
  destruct (add_records _ _ _ _) as [e|hashes] eqn:Hadd; [discriminate|].
  intros [= <-]. exists hashes. split; [reflexivity|].
  destruct (add_records_len _ _ _ _ _ Hadd) as (Hle & _ & Heq).
  cbn in Hle, Heq. split; [unfold dict_len in *; lia|].
  intros Hnd. apply Heq; [exact Hnd | tauto].
Qed.

(** [load_hashes] never raises. *)
Lemma load_hashes_returns os hash_file :
  exists r, load_hashes os hash_file = inr r.
Proof.
  unfold load_hashes, try_except.
  destruct (load_hashes_body os hash_file); cbn; eauto.
Qed.

(** The manifest comes back as it was written, unless the error report
    is written over it: that is excluded when there are no errors or
    when the name of the report differs from the output file. *)
Lemma save_load_roundtrip os hash_data error_files output_file algorithm
    scan_location data :
  manifest_data os hash_data error_files algorithm scan_location
  = inr data ->
  json_load (json_dump data) = inr data ->
  utf8_valid (list_byte_of_string (json_dump data)) = true ->
  os_isdir os output_file = false ->
  os_writable os output_file = true ->
  match os_files os !! output_file with
  | Some f => f_readable f = true
  | None => True
  end ->
  error_files = [] \/
  str_replace ".json" "_errors.txt" output_file <> output_file ->
  load_hashes
    (fst (save_hashes os hash_data error_files output_file algorithm
                      scan_location)) output_file
  = inr (Some data).
Proof.
  intros Hdata Hjson Hutf Hdir Hwr Hread Hname.
  destruct (manifest_data_shape _ _ _ _ _ _ Hdata) as (hashes & Hshape & _).
  assert (Hload : forall os1,
    read_text os1 output_file = inr (json_dump data) ->
    load_hashes os1 output_file = inr (Some data)).
  { intros os1 Hrd. unfold load_hashes, load_hashes_body.
    rewrite Hrd, Hjson. subst data. reflexivity. }
  unfold save_hashes. rewrite Hdata.
  destruct (write_text os output_file (json_dump data)) as [e|os1] eqn:Hw1.
  { unfold write_text in Hw1. rewrite Hdir, Hwr in Hw1. discriminate. }
  pose proof (read_after_write _ _ _ _ Hw1 Hutf Hread) as Hrd1.
  destruct error_files as [|err errs]; [now apply Hload|].
  destruct Hname as [Hnil|Hname]; [discriminate|].
  destruct (write_text os1 _ _) as [e|os2] eqn:Hw2; cbn [fst].
  - now apply Hload.
  - apply Hload.
    rewrite (read_other_after_write _ _ _ _ _ Hw2 Hname). exact Hrd1.
Qed.
End CodecFacts.

(** C3 (as the code has it). When the file holds a JSON object,
    [load_hashes] returns it if it has the keys "metadata" and "hashes"
    and returns [None] if one of the two is missing (the [ValueError] it
    raises is handled inside); a section "errors" is not required. The
    load never raises. *)
Theorem load_requires_metadata_and_hashes {JM : Json_module}
    (os : OS) (hash_file text : string) (members : dict json) :
  read_text os hash_file = inr text ->
  json_load text = inr (JObj members) ->
  load_hashes os hash_file
  = inr (if dict_mem "metadata" members && dict_mem "hashes" members
         then Some (JObj members) else None).
Proof.
  intros Hread Hjson. unfold load_hashes, load_hashes_body.
  rewrite Hread, Hjson. cbn [py_in].
  destruct (dict_mem "metadata" members); [|reflexivity].
  destruct (dict_mem "hashes" members); reflexivity.
Qed.

Lemma load_requires_metadata_and_hashes_witness :
  let data := JObj [("metadata", JObj []); ("errors", JArr [])] in
  let os := Demo.data_dir [("m.json", json_dump data)] in
  read_text os "/data/m.json" = inr (json_dump data) /\
  json_load (json_dump data) = inr data /\
  load_hashes os "/data/m.json" = inr None.
Proof.
  cbv zeta.
  match goal with
  | |- ?R /\ ?J /\ _ =>
      assert (Hread : R) by reflexivity; assert (Hjson : J) by reflexivity
  end.
  split; [exact Hread|]. split; [exact Hjson|].
  rewrite (load_requires_metadata_and_hashes _ _ _ _ Hread Hjson).
  reflexivity.
Defined.

(** C3 as stated fails: a manifest with the sections "metadata" and
    "hashes" but without "errors" is loaded. *)
Lemma manifest_without_errors_loads :
  let data := JObj [("metadata", JObj []); ("hashes", JObj [])] in
  let os := Demo.data_dir [("m.json", json_dump data)] in
  py_in "errors" data = inr false /\
  load_hashes os "/data/m.json" = inr (Some data).
Proof. cbv zeta. split; reflexivity. Qed.

(** C5, the failing input. A scan with one failed file is saved under a
    name without ".json": [save_hashes] returns [True], but the error
    report, whose name is derived by replacing ".json", is written to
    the same file after the manifest, and loading the file gives
    [None]. *)
Theorem manifest_overwritten_by_error_report :
  let saved :=
    save_hashes Demo.three_files [("/data/a.bin", "cbf43926")]
                ["/data/b.bin"] "/data/manifest.dat" "CRC32" "/data" in
  str_replace ".json" "_errors.txt" "/data/manifest.dat"
  = "/data/manifest.dat" /\
  snd saved = true /\
  load_hashes (fst saved) "/data/manifest.dat" = inr None /\
  exists data,
    manifest_data Demo.three_files [("/data/a.bin", "cbf43926")]
                  ["/data/b.bin"] "CRC32" "/data" = inr data /\
    json_load (json_dump data) = inr data.
Proof.
  cbv zeta. split; [reflexivity|]. split; [reflexivity|].
  split; [vm_compute; reflexivity|].
  eexists. split; [reflexivity|]. vm_compute. reflexivity.
Qed.

(** Under a name that ends in ".json" the same scan outcome is read back
    as it was written; the error report goes to a file of its own. *)
Example manifest_roundtrip_json_name :
  let saved :=
    save_hashes Demo.three_files [("/data/a.bin", "cbf43926")]
                ["/data/b.bin"] "/data/manifest.json" "CRC32" "/data" in
  snd saved = true /\
  sum_map id Some
    (manifest_data Demo.three_files [("/data/a.bin", "cbf43926")]
                   ["/data/b.bin"] "CRC32" "/data")
  = load_hashes (fst saved) "/data/manifest.json" /\
  is_Some (os_files (fst saved) !! "/data/manifest_errors.txt").
Proof.
  cbv zeta. split; [reflexivity|]. split; [vm_compute; reflexivity|].
  vm_compute. eauto.
Qed.




(** ** The verifier *)

Section ResolveFacts.

(** The [if]/[elif] chain is the first-match rule over the three
    candidates. *)
Lemma resolve_current_path_spec os base_path rel_path full_path :
  resolve_current_path os base_path rel_path (JStr full_path)
  = inr (resolve_spec os base_path rel_path full_path).
Proof.
  unfold resolve_current_path, resolve_spec, candidates.
  destruct (truthy base_path); cbn [andb app List.find].
  - destruct (os_path_exists os (os_path_join _ rel_path));
      [reflexivity|].
    destruct (os_path_exists os full_path); [reflexivity|].
    destruct (os_path_exists os rel_path); reflexivity.
  - destruct (os_path_exists os full_path); [reflexivity|].
    destruct (os_path_exists os rel_path); reflexivity.
Qed.

Lemma resolve_spec_some os base_path rel_path full_path p :
  resolve_spec os base_path rel_path full_path = Some p ->
  In p (candidates base_path rel_path full_path) /\
  os_path_exists os p = true /\ truthy (Some p) = true.
Proof.
  unfold resolve_spec. intros Hfind.
  apply List.find_some in Hfind as [Hin Hex].
  repeat split; try assumption.
  unfold os_path_exists in Hex. apply andb_prop in Hex as [Hne _].
  exact Hne.
Qed.

Lemma resolve_spec_none os base_path rel_path full_path :
  resolve_spec os base_path rel_path full_path = None ->
  forall p, In p (candidates base_path rel_path full_path) ->
            os_path_exists os p = false.
Proof.
  unfold resolve_spec. intros Hfind p Hin.
  exact (List.find_none _ _ Hfind p Hin).
Qed.
End ResolveFacts.

Section StepFacts.
Context {HL : Hashlib}.

Lemma resolve_current_path_ok os base_path rel_path full_path current :
  resolve_current_path os base_path rel_path full_path = inr current ->
  current = resolve_spec os base_path rel_path (json_path full_path).
Proof.
  destruct full_path as [| | | |fp| |];
    try (unfold resolve_current_path, resolve_spec, candidates;
         destruct (truthy base_path); cbn [andb app List.find];
         [destruct (os_path_exists os (os_path_join _ rel_path));
          [intros [= <-]; reflexivity | discriminate]
         |discriminate]).
  rewrite resolve_current_path_spec. now intros [= <-].
Qed.

(** One iteration of the verifying loop that does not raise: the path
    checked is the one the rule of precedence gives; without such a
    path the entry is marked FILE_NOT_FOUND with one error entry and no
    digest is computed, with one the digest of that path is computed and
    the outcome is another one. *)
Lemma verify_step_entry os stops base_path cb algorithm total_files
    rel_path file_info st st1 :
  verify_step os stops base_path cb algorithm total_files rel_path
              file_info st = inr st1 ->
  v_hashed st1
  = v_hashed st ++ resolved_paths os base_path [(rel_path, file_info)] /\
  (forall msg, In msg (v_errors st) -> In msg (v_errors st1)) /\
  match entry_path os base_path (rel_path, file_info) with
  | None =>
      v_results st1 = dict_set (v_results st) rel_path "FILE_NOT_FOUND" /\
      v_errors st1 = v_errors st ++ [rel_path +:+ " - File not found"] /\
      v_corrupted st1 = v_corrupted st
  | Some current_path =>
      exists outcome,
        v_results st1 = dict_set (v_results st) rel_path outcome /\
        In outcome ["MATCH"; "MISMATCH"; "READ_ERROR"; "VERIFICATION_ERROR"]
  end.
Proof.
  unfold verify_step, resolved_paths, entry_path.
  cbn [flat_map fst snd app].
  destruct file_info as [| | | | | |members]; cbn [json_getitem];
    try discriminate.
  destruct (dict_get members "hash") as [stored_hash|]; [|discriminate].
  cbn [entry_full_path].
  set (full_path := default (JStr "") (dict_get members "full_path")).
  destruct (resolve_current_path os base_path rel_path full_path)
    as [e|current] eqn:Hres; [discriminate|].
  apply resolve_current_path_ok in Hres. rewrite <- Hres.
  destruct current as [p|].
  - symmetry in Hres.
    destruct (resolve_spec_some _ _ _ _ _ Hres) as (_ & _ & Htruthy).
    rewrite Htruthy. cbn [negb from_option]. unfold id.
    intros [= <-]. rewrite app_nil_r.
    destruct (calculate_file_hash_json os (stop_hash stops p) p algorithm)
      as [e|[current_hash|]];
      [|destruct (is_JStr current_hash stored_hash)|];
      (split; [reflexivity|]);
      (split; [cbn; intros msg Hmsg; rewrite ?in_app_iff; auto|]);
      eexists; (split; [reflexivity|]); cbn; tauto.
  - cbn [truthy negb]. intros [= <-]. rewrite app_nil_r.
    split; [reflexivity|].
    split; [cbn; intros msg Hmsg; rewrite in_app_iff; auto|].
    repeat split.
Qed.

(** The loop, when it does not raise: it computes the digests of the
    paths found for the entries it handles and of no other path; errors
    are only added; the outcome of an entry whose key occurs once is
    the one its own iteration gave. *)
Lemma verify_loop_entries os stops base_path cb algorithm total_files
    items : forall k st st',
  verify_loop os stops base_path cb algorithm total_files items k st
  = (st', None) ->
  let done := firstn (iterations (stop_loop stops) (length items) k) items in
  v_hashed st' = v_hashed st ++ resolved_paths os base_path done /\
  (forall msg, In msg (v_errors st) -> In msg (v_errors st')) /\
  (forall q, ~ In q (dict_keys done) ->
             dict_get (v_results st') q = dict_get (v_results st) q) /\
  (dict_wf done ->
   forall rel_path file_info, In (rel_path, file_info) done ->
     match entry_path os base_path (rel_path, file_info) with
     | None =>
         dict_get (v_results st') rel_path = Some "FILE_NOT_FOUND" /\
         In (rel_path +:+ " - File not found") (v_errors st')
     | Some current_path =>
         exists outcome,
           dict_get (v_results st') rel_path = Some outcome /\
           In outcome
              ["MATCH"; "MISMATCH"; "READ_ERROR"; "VERIFICATION_ERROR"]
     end).
Proof.
  induction items as [|[rel info] items IH]; intros k st st' Hloop;
    cbn in Hloop; cbv zeta.
  - injection Hloop as <-. cbn. rewrite app_nil_r. intuition.
  - cbn [length iterations].
    destruct (stop_loop stops k).
    + injection Hloop as <-. cbn. rewrite app_nil_r. intuition.
    + destruct (verify_step _ _ _ _ _ _ _ _ _) as [e|st1] eqn:Hstep;
        [discriminate|].
      destruct (verify_step_entry _ _ _ _ _ _ _ _ _ _ Hstep)
        as (Hhashed1 & Herr1 & Hentry1).
      destruct (IH _ _ _ Hloop) as (Hhashed & Herr & Hother & Hdone).
      cbv zeta in Hdone.
      set (rest := firstn (iterations (stop_loop stops) (length items)
                             (S k)) items) in *.
      cbn [firstn]. fold rest.
      assert (Hset : forall q, q <> rel ->
                dict_get (v_results st1) q = dict_get (v_results st) q).
      { intros q Hq.
        destruct (entry_path os base_path (rel, info)).
        - destruct Hentry1 as (o & -> & _). now apply dict_get_set_ne.
        - destruct Hentry1 as (-> & _). now apply dict_get_set_ne. }
      split.
      { rewrite Hhashed, Hhashed1, <- app_assoc. f_equal.
        unfold resolved_paths. cbn [flat_map]. now rewrite app_nil_r. }
      split; [auto|]. split.
      { intros q Hq. cbn in Hq. rewrite Hother by tauto.
        apply Hset. intros ->. tauto. }
      intros Hwf rel_path file_info Hin.
      unfold dict_wf in Hwf. cbn [dict_keys map fst] in Hwf.
      apply NoDup_cons in Hwf as [Hfresh Hwf].
      rewrite list_elem_of_In in Hfresh.
      destruct Hin as [[= <- <-]|Hin].
      * rewrite Hother by exact Hfresh.
        destruct (entry_path os base_path (rel, info)).
        -- destruct Hentry1 as (o & -> & Ho). exists o.
           now rewrite dict_get_set_eq.
        -- destruct Hentry1 as (-> & Herrs & _).
           rewrite dict_get_set_eq. split; [reflexivity|].
           apply Herr. rewrite Herrs. apply in_app_iff. right. now left.
      * now apply Hdone.
Qed.
End StepFacts.

(** C4. In a verification that returns, with a manifest whose keys are
    distinct: the path checked for an entry is the first that exists
    among the override joined with the relative path (when an override
    is given), the stored absolute path, the relative path; the code's
    [if]/[elif] chain is that rule. An entry for which none exists has
    the outcome FILE_NOT_FOUND and one error entry, and no digest is
    computed for it: the digests computed are those of the paths found,
    one per entry with such a path. *)
Theorem verify_resolves_by_precedence {HL : Hashlib} {JM : Json_module}
    (os : OS) (stops : Stops) (hash_file : string)
    (base_path : option string) (cb : bool)
    (outcome_map : dict string) (corrupted : list json)
    (errors : list string) :
  run_return (verify_integrity os stops hash_file base_path cb)
  = inr (outcome_map, corrupted, errors) ->
  dict_wf (entries_considered os stops hash_file) ->
  (forall rel_path full_path,
     resolve_current_path os base_path rel_path (JStr full_path)
     = inr (List.find (os_path_exists os)
                      (candidates base_path rel_path full_path))) /\
  run_hashed (verify_integrity os stops hash_file base_path cb)
  = resolved_paths os base_path (entries_considered os stops hash_file) /\
  (forall rel_path file_info,
     In (rel_path, file_info) (entries_considered os stops hash_file) ->
     match List.find (os_path_exists os)
             (candidates base_path rel_path (entry_full_path file_info))
     with
     | None =>
         dict_get outcome_map rel_path = Some "FILE_NOT_FOUND" /\
         In (rel_path +:+ " - File not found") errors
     | Some current_path =>
         exists outcome,
           dict_get outcome_map rel_path = Some outcome /\
           In outcome
              ["MATCH"; "MISMATCH"; "READ_ERROR"; "VERIFICATION_ERROR"]
     end).
Proof.
  intros Hrun Hwf.
  split; [intros; apply resolve_current_path_spec|].
  revert Hrun Hwf. unfold verify_integrity, entries_considered.
  destruct (load_hashes os hash_file) as [e|[hash_data|]];
    cbn [run_return run_hashed]; [discriminate| |].
  - destruct (json_getitem hash_data "metadata") as [e|metadata];
      [discriminate|].
    destruct (json_getitem metadata "algorithm") as [e|algorithm];
      [discriminate|].
    destruct (json_getitem hash_data "hashes") as [e|hashes];
      [discriminate|].
    destruct (json_len hashes) as [e|total_files]; [discriminate|].
    destruct hashes as [| | | | | |items]; cbn [json_items];
      try discriminate.
    destruct (verify_loop _ _ _ _ _ _ _ _ _) as [st raised] eqn:Hloop.
    destruct raised as [e|]; cbn [run_return run_hashed]; [discriminate|].
    intros [= <- <- <-] Hwf.
    destruct (verify_loop_entries _ _ _ _ _ _ _ _ _ _ Hloop)
      as (Hhashed & _ & _ & Hdone).
    split; [exact Hhashed|]. exact (Hdone Hwf).
  - intros [= <- <- <-] _. split; [reflexivity|]. intros ? ? [].
Qed.

Lemma verify_resolves_by_precedence_witness :
  let manifest :=
    fst (save_hashes Demo.three_files
           [("/data/a.bin", "cbf43926"); ("/data/gone.bin", "352441c2")]
           [] "/data/out.json" "CRC32" "/data") in
  let run :=
    verify_integrity (HL := Demo.hashlib) manifest Demo.no_stop
                     "/data/out.json" (Some "/data") true in
  run_return run
  = inr ([("a.bin", "MATCH"); ("gone.bin", "FILE_NOT_FOUND")], [],
         ["gone.bin - File not found"]) /\
  dict_wf (entries_considered manifest Demo.no_stop "/data/out.json") /\
  run_hashed run = ["/data/a.bin"].
Proof.
  cbv zeta.
  match goal with
  | |- ?R /\ _ => assert (Hrun : R) by (vm_compute; reflexivity)
  end.
  assert (Hwf : dict_wf
                  (entries_considered
                     (fst (save_hashes Demo.three_files
                             [("/data/a.bin", "cbf43926");
                              ("/data/gone.bin", "352441c2")]
                             [] "/data/out.json" "CRC32" "/data"))
                     Demo.no_stop "/data/out.json")).
  { unfold dict_wf.
    match goal with
    | |- NoDup ?l =>
        let l' := eval vm_compute in l in
        change (NoDup l')
    end.
    apply NoDup_cons. split; [|apply NoDup_singleton].
    rewrite list_elem_of_In. intros [H|[]]. discriminate H. }
  split; [exact Hrun|]. split; [exact Hwf|].
  destruct (verify_resolves_by_precedence _ _ _ _ _ _ _ _ Hrun Hwf)
    as (_ & Hhashed & _).
  rewrite Hhashed. vm_compute. reflexivity.
Defined.

Section TallyFacts.
Context {HL : Hashlib} {JM : Json_module}.
Local Open Scope nat_scope.




End TallyFacts.

Section ReportFacts.
Context {HL : Hashlib} {JM : Json_module}.

End ReportFacts.



(** ** More about digests of single files *)

Section StreamFacts.
Context {S : Type}.
Variable u : S -> list byte -> S.
Variable stop : nat -> bool.
Variable chunk_size : Z.

(** When the flag is seen set at the check of chunk [k], and that chunk
    exists, the loop ends cancelled. *)
Lemma read_loop_cancelled (k : nat) :
  0 < chunk_size -> stop k = true ->
  forall (n : nat) (rest : list byte) (j : nat) (st : S),
    (j + n = k)%nat ->
    Z.of_nat n * chunk_size < Z.of_nat (length rest) ->
    snd (read_loop (fun st chunk => inr (u st chunk)) stop chunk_size
                   rest j st) = Cancelled.
Proof.
  intros Hcs Hstop. induction n as [|n IH]; intros rest j st Hj Hlen.
  - rewrite read_loop_step.
    destruct (f_read chunk_size rest) as [|b bs] eqn:Hread.
    + apply f_read_eof in Hread; [|lia]. subst rest. cbn in Hlen. lia.
    + replace j with k by lia. rewrite Hstop. reflexivity.
  - rewrite read_loop_step.
    pose proof (f_read_split chunk_size rest) as Hsplit.
    destruct (f_read chunk_size rest) as [|b bs] eqn:Hread.
    + apply f_read_eof in Hread; [|lia]. subst rest. cbn in Hlen. lia.
    + destruct (stop j); [reflexivity|]. cbn [snd].
      apply IH; [lia|].
      assert (Hchunk : length (b :: bs) = Z.to_nat chunk_size).
      { rewrite <- Hread. unfold f_read.
        destruct (Z.ltb_spec chunk_size 0) as [?|_]; [lia|].
        rewrite length_firstn. lia. }
      rewrite length_skipn, Hchunk. lia.
Qed.

End StreamFacts.

Section DigestRuns.
Context {HL : Hashlib}.

Ltac split_provider :=
  unfold SUPPORTED_ALGORITHMS, _get_supported_algorithms, algorithms;
  destruct HL as [hty md5 sha1 sha3 sha256 sha512 blake2b
                    xx xxh64 b3 blake3 update hexdigest];
  cbn [hasher hashlib_md5 hashlib_sha1 hashlib_sha3_256
       hashlib_sha256 hashlib_sha512 hashlib_blake2b XXHASH_AVAILABLE
       xxhash_xxh64 BLAKE3_AVAILABLE blake3_blake3];
  destruct md5, sha1, sha3, sha256, sha512, blake2b, xx, b3.

(** A name whose constructor gives a hasher is in the table of
    available algorithms, with that hasher. *)
Lemma fresh_hasher_supported algorithm h :
  fresh_hasher algorithm = Some h ->
  String.eqb algorithm "CRC32" = false /\
  dict_get SUPPORTED_ALGORITHMS algorithm = Some (inr (Some h)).
Proof.
  unfold fresh_hasher. split_provider; cbn; intros Hget;
    repeat match type of Hget with
      | context [String.eqb algorithm ?k] =>
          destruct (String.eqb_spec algorithm k) as [->|?];
          [cbn in Hget |- *;
           first [discriminate Hget
                 |injection Hget as <-; split; reflexivity]
          |]
      end;
    discriminate Hget.
Qed.

Lemma open_rb_error os file_path e :
  open_rb os file_path = inl e -> is_os_error e = true.
Proof.
  unfold open_rb. destruct (os_files os !! file_path) as [f|].
  - destruct (f_readable f); [discriminate|]. now intros [= <-].
  - destruct (os_isdir os file_path); now intros [= <-].
Qed.

(** For an available algorithm the body of the [try] is the chunk loop
    over the file: with the running CRC, or with the hasher the
    constructor of the algorithm gives. *)
Lemma calculate_file_hash_body_supported os stop file_path algorithm
    chunk_size :
  dict_mem algorithm SUPPORTED_ALGORITHMS = true ->
  (algorithm = "CRC32" /\
   calculate_file_hash_body os stop file_path algorithm chunk_size
   = hash_stream (fun crc chunk => inr (zlib_crc32 chunk crc)) 0
                 (fun crc => inr (format_08x (Z.land crc mask32)))
                 os stop file_path chunk_size) \/
  (exists h,
     String.eqb algorithm "CRC32" = false /\
     fresh_hasher algorithm = Some h /\
     calculate_file_hash_body os stop file_path algorithm chunk_size
     = hasher_stream h os stop file_path chunk_size).
Proof.
  intros Hmem. unfold calculate_file_hash_body. rewrite Hmem. cbn [negb].
  unfold dict_mem in Hmem.
  destruct (dict_get SUPPORTED_ALGORITHMS algorithm) as [v|] eqn:Hget;
    [|discriminate].
  destruct (supported_lookup _ _ Hget) as [[-> _]|(Hne & h & -> & Hfresh)].
  - left. split; reflexivity.
  - right. exists h. rewrite Hne. split; [reflexivity|].
    split; [exact Hfresh|].
    destruct (String.eqb_spec algorithm "xxHash64") as [->|_].
    + destruct XXHASH_AVAILABLE eqn:Hxx; cbn [andb].
      * now rewrite (fresh_hasher_xxhash h Hfresh Hxx).
      * reflexivity.
    + cbn [andb]. destruct (String.eqb_spec algorithm "Blake3") as [->|_].
      * destruct BLAKE3_AVAILABLE eqn:Hb3; cbn [andb].
        -- now rewrite (fresh_hasher_blake3 h Hfresh Hb3).
        -- reflexivity.
      * reflexivity.
Qed.

(** Both handlers of [calculate_file_hash] return [None]: no exception
    reaches the caller. *)
Lemma calculate_file_hash_returns os stop file_path algorithm chunk_size :
  exists v,
    snd (calculate_file_hash os stop file_path algorithm chunk_size) = inr v.
Proof.
  unfold calculate_file_hash.
  destruct (calculate_file_hash_body _ _ _ _ _) as [tr [e|v]].
  - destruct (is_os_error e); now exists None.
  - now exists v.
Qed.

(** A chunk loop whose update cannot raise, on a file that opens. *)
Lemma hash_stream_opened {S} (u : S -> list byte -> S) (init : S)
    (fin : S -> string) os stop file_path chunk_size data :
  open_rb os file_path = inr data ->
  hash_stream (fun st chunk => inr (u st chunk)) init
              (fun st => inr (fin st)) os stop file_path chunk_size
  = let r := read_loop (fun st chunk => inr (u st chunk)) stop chunk_size
                       data 0%nat init in
    (EvOpen file_path :: map (EvRead file_path) (fst r),
     match snd r with
     | Finished st => inr (Some (fin st))
     | Cancelled => inr None
     | Raised e => inl e
     end).
Proof.
  intros Hopen. unfold hash_stream. rewrite Hopen. cbv zeta.
  destruct (snd (read_loop _ _ _ _ _ _)); reflexivity.
Qed.
End DigestRuns.

(** X1. The table of available algorithms holds CRC32 and exactly the
    names whose constructor returns a hasher: xxHash64 and Blake3 are in
    it precisely when their module was imported, and a name whose
    [hashlib] constructor raises is left out without any error. The
    names are distinct and all come from the fixed table of nine. *)
Theorem supported_algorithms_exact {HL : Hashlib} (algorithm : string) :
  (dict_mem algorithm SUPPORTED_ALGORITHMS = true <->
   algorithm = "CRC32" \/ is_Some (fresh_hasher algorithm)) /\
  dict_mem "xxHash64" SUPPORTED_ALGORITHMS = XXHASH_AVAILABLE /\
  dict_mem "Blake3" SUPPORTED_ALGORITHMS = BLAKE3_AVAILABLE /\
  (forall e, dict_get algorithms algorithm = Some (inl e) ->
             dict_mem algorithm SUPPORTED_ALGORITHMS = false) /\
  (dict_mem algorithm SUPPORTED_ALGORITHMS = true ->
   In algorithm ["MD5"; "SHA1"; "SHA-3"; "SHA256"; "SHA512"; "xxHash64";
                 "Blake2b"; "Blake3"; "CRC32"]).
Proof.
  assert (Hiff : dict_mem algorithm SUPPORTED_ALGORITHMS = true <->
                 algorithm = "CRC32" \/ is_Some (fresh_hasher algorithm)).
  { split.
    - unfold dict_mem.
      destruct (dict_get SUPPORTED_ALGORITHMS algorithm) as [v|] eqn:Hget;
        [|discriminate].
      intros _.
      destruct (supported_lookup _ _ Hget) as [[-> _]|(_ & h & _ & Hfresh)].
      + now left.
      + right. rewrite Hfresh. now exists h.
    - intros [->|[h Hfresh]].
      + apply crc32_supported.
      + unfold dict_mem.
        now rewrite (proj2 (fresh_hasher_supported _ _ Hfresh)). }
  split; [exact Hiff|].
  split.
  { destruct HL as [hty md5 sha1 sha3 sha256 sha512 blake2b
                      xx xxh64 b3 blake3 update hexdigest].
    unfold SUPPORTED_ALGORITHMS, _get_supported_algorithms, algorithms.
    cbn [hasher hashlib_md5 hashlib_sha1 hashlib_sha3_256
         hashlib_sha256 hashlib_sha512 hashlib_blake2b XXHASH_AVAILABLE
         xxhash_xxh64 BLAKE3_AVAILABLE blake3_blake3].
    destruct md5, sha1, sha3, sha256, sha512, blake2b, xx, b3; reflexivity. }
  split.
  { destruct HL as [hty md5 sha1 sha3 sha256 sha512 blake2b
                      xx xxh64 b3 blake3 update hexdigest].
    unfold SUPPORTED_ALGORITHMS, _get_supported_algorithms, algorithms.
    cbn [hasher hashlib_md5 hashlib_sha1 hashlib_sha3_256
         hashlib_sha256 hashlib_sha512 hashlib_blake2b XXHASH_AVAILABLE
         xxhash_xxh64 BLAKE3_AVAILABLE blake3_blake3].
    destruct md5, sha1, sha3, sha256, sha512, blake2b, xx, b3; reflexivity. }
  split.
  { intros e Hraise.
    destruct (dict_mem algorithm SUPPORTED_ALGORITHMS) eqn:Hmem;
      [|reflexivity].
    destruct (proj1 Hiff eq_refl) as [->|[h Hfresh]].
    - cbn in Hraise. discriminate Hraise.
    - unfold fresh_hasher in Hfresh. rewrite Hraise in Hfresh.
      discriminate Hfresh. }
  intros Hmem. apply Hiff in Hmem as [->|[h Hfresh]].
  - cbn. tauto.
  - unfold fresh_hasher in Hfresh.
    destruct (dict_get algorithms algorithm) as [v|] eqn:Hget;
      [|discriminate].
    assert (Hin : In algorithm (dict_keys (algorithms (HL := HL)))).
    { apply dict_get_in_keys. unfold dict_mem. now rewrite Hget. }
    exact Hin.
Qed.



(** X3. Cancellation never yields a partial digest. For an available
    algorithm and a positive chunk size: when the flag is seen set at
    the check made for chunk number [k] (counting from zero) of a file
    that has such a chunk, the call returns [None], and it prints
    nothing, so that the caller cannot tell the cancelled file from one
    that failed. *)
Theorem cancelled_digest_gives_none {HL : Hashlib}
    (os : OS) (stop : nat -> bool) (file_path algorithm : string)
    (chunk_size : Z) (data : list byte) (k : nat) :
  dict_mem algorithm SUPPORTED_ALGORITHMS = true ->
  open_rb os file_path = inr data ->
  0 < chunk_size ->
  Z.of_nat k * chunk_size < Z.of_nat (length data) ->
  stop k = true ->
  snd (calculate_file_hash os stop file_path algorithm chunk_size)
  = inr None /\
  forallb is_file_io
    (fst (calculate_file_hash os stop file_path algorithm chunk_size))
  = true.
Proof.
  intros Hmem Hopen Hcs Hlen Hstop.
  assert (Hio : forall l, forallb is_file_io
                            (EvOpen file_path :: map (EvRead file_path) l)
                          = true).
  { intros l. cbn. induction l as [|n l IH]; [reflexivity | exact IH]. }
  unfold calculate_file_hash.
  destruct (calculate_file_hash_body_supported os stop file_path algorithm
              chunk_size Hmem) as [[_ ->]|(h & _ & _ & ->)];
    unfold hasher_stream;
    rewrite (hash_stream_opened _ _ _ _ _ _ _ _ Hopen); cbv zeta;
    rewrite (read_loop_cancelled _ stop chunk_size k Hcs Hstop k data 0%nat)
      by (try lia; exact Hlen);
    (split; [reflexivity | apply Hio]).
Qed.

Lemma cancelled_digest_gives_none_witness :
  snd (calculate_file_hash (HL := Demo.hashlib) Demo.three_files
         (Demo.from 2) "/data/a.bin" "CRC32" 4) = inr None.
Proof.
  assert (Hmem : dict_mem "CRC32" (SUPPORTED_ALGORITHMS (HL := Demo.hashlib))
                 = true) by reflexivity.
  assert (Hopen : open_rb Demo.three_files "/data/a.bin"
                  = inr (list_byte_of_string "123456789")) by reflexivity.
  assert (Hlen : Z.of_nat 2 * 4
                 < Z.of_nat (length (list_byte_of_string "123456789")))
    by (vm_compute; reflexivity).
  exact (proj1 (cancelled_digest_gives_none (HL := Demo.hashlib)
                  Demo.three_files (Demo.from 2) "/data/a.bin" "CRC32" 4
                  (list_byte_of_string "123456789") 2
                  Hmem Hopen eq_refl Hlen eq_refl)).
Defined.



(** ** More about the scan *)

Section DictLookup.
Context {V : Type}.

Lemma dict_get_in (d : dict V) k v :
  dict_wf d -> (dict_get d k = Some v <-> In (k, v) d).
Proof.
  unfold dict_wf. induction d as [|[k' v'] d IH]; cbn; intros Hwf.
  - split; [discriminate | tauto].
  - apply NoDup_cons in Hwf as [Hnin Hwf].
    destruct (String.eqb_spec k k') as [->|Hne].
    + split.
      * intros [= ->]. now left.
      * intros [[= ->]|Hin]; [reflexivity|].
        exfalso. apply Hnin. apply list_elem_of_In.
        apply (in_map fst) in Hin. exact Hin.
    + rewrite (IH Hwf). split; [auto|].
      intros [[= -> ->]|Hin]; [congruence | exact Hin].
Qed.

Lemma dict_get_app (d1 d2 : dict V) k :
  dict_get (d1 ++ d2) k
  = match dict_get d1 k with Some v => Some v | None => dict_get d2 k end.
Proof.
  induction d1 as [|[k' v'] d1 IH]; cbn; [reflexivity|].
  destruct (String.eqb k k'); [reflexivity | exact IH].
Qed.

(** Two dictionaries with the same entries in another order answer
    every lookup alike. *)
Lemma dict_get_perm (d1 d2 : dict V) k :
  dict_wf d1 -> Permutation d1 d2 -> dict_get d1 k = dict_get d2 k.
Proof.
  intros Hwf Hperm.
  assert (Hwf2 : dict_wf d2).
  { unfold dict_wf, dict_keys in *. now rewrite <- Hperm. }
  destruct (dict_get d1 k) as [v|] eqn:H1.
  - symmetry. apply (dict_get_in d2 k v Hwf2).
    apply (Permutation_in _ Hperm). now apply (dict_get_in d1 k v Hwf).
  - destruct (dict_get d2 k) as [v|] eqn:H2; [|reflexivity].
    apply (dict_get_in d2 k v Hwf2) in H2.
    apply (Permutation_in _ (Permutation_sym Hperm)) in H2.
    apply (dict_get_in d1 k v Hwf) in H2. congruence.
Qed.
End DictLookup.

Lemma firstn_incl {A} (n : nat) (l : list A) (x : A) :
  In x (firstn n l) -> In x l.
Proof.
  intros Hin. rewrite <- (firstn_skipn n l). apply in_or_app. now left.
Qed.

Section ScanOutcome.
Implicit Types (done : list (string * (exn + option string))).

Lemma hashed_of_keys done p :
  In p (dict_keys (flat_map hashed_of done)) -> In p (map fst done).
Proof.
  induction done as [|[q r] done IH]; cbn; [tauto|].
  unfold dict_keys. rewrite map_app, in_app_iff. intros [Hin|Hin].
  - left. unfold hashed_of in Hin. cbn in Hin.
    destruct r as [e|[h|]]; cbn in Hin; try tauto.
    destruct (String.eqb h ""); cbn in Hin; tauto.
  - right. now apply IH.
Qed.

Lemma failed_of_paths done p :
  (forall fut, In fut done -> exists hv, snd fut = inr hv) ->
  In p (flat_map failed_of done) -> In p (map fst done).
Proof.
  induction done as [|[q r] done IH]; cbn; [tauto|]. intros Hret.
  rewrite in_app_iff. intros [Hin|Hin].
  - left. destruct (Hret (q, r) (or_introl eq_refl)) as [hv Hr].
    cbn in Hr. subst r. unfold failed_of in Hin. cbn in Hin.
    destruct (truthy hv); cbn in Hin; tauto.
  - right. apply IH; [|exact Hin]. intros fut Hfut. apply Hret. now right.
Qed.

(** The failures are those of the results handled, in their order. *)
Lemma scan_steps_failed cb total done : forall st,
  error_files (scan_steps cb total done st)
  = error_files st ++ flat_map failed_of done.
Proof.
  unfold scan_steps.
  induction done as [|[p r] done IH]; intros st; cbn [fold_left flat_map].
  - now rewrite app_nil_r.
  - rewrite IH. rewrite app_assoc. f_equal.
    unfold scan_step, failed_of. cbn [fst snd].
    destruct r as [e|hv]; [reflexivity|].
    destruct (truthy hv); cbn; [now rewrite app_nil_r | reflexivity].
Qed.

(** With one result per path, the mapping gets the digests of the
    results handled, in their order. *)
Lemma scan_steps_hashed cb total done : forall st,
  NoDup (map fst done) ->
  (forall p, In p (map fst done) -> ~ In p (dict_keys (results st))) ->
  results (scan_steps cb total done st)
  = results st ++ flat_map hashed_of done.
Proof.
  unfold scan_steps.
  induction done as [|[p r] done IH]; intros st Hnd Hfresh;
    cbn [fold_left flat_map].
  - now rewrite app_nil_r.
  - cbn [map fst] in Hnd. apply NoDup_cons in Hnd as [Hp Hnd].
    assert (Hstep :
      results (scan_step cb total p r st)
      = results st ++ hashed_of (p, r)).
    { unfold scan_step, hashed_of. cbn [fst snd].
      destruct r as [e|[h|]]; cbn; try now rewrite app_nil_r.
      destruct (String.eqb h ""); cbn; [now rewrite app_nil_r|].
      apply dict_set_new. apply Hfresh. now left. }
    cbn [fst snd].
    rewrite IH; [rewrite Hstep; now rewrite app_assoc | exact Hnd |].
    intros q Hq. rewrite Hstep.
    unfold dict_keys. rewrite map_app, in_app_iff. intros [Hin|Hin].
    + apply (Hfresh q); [now right | exact Hin].
    + assert (Hqp : In q (map fst [(p, r)])).
      { apply (hashed_of_keys [(p, r)]). cbn [flat_map].
        now rewrite app_nil_r. }
      destruct Hqp as [<-|[]]. cbn in Hp. apply Hp.
      apply list_elem_of_In. exact Hq.
Qed.

(** Where a path with one result ends up. *)
Lemma scan_outcome_lookup done p hv :
  NoDup (map fst done) ->
  (forall fut, In fut done -> exists hv, snd fut = inr hv) ->
  In (p, inr hv) done ->
  if truthy hv
  then dict_get (flat_map hashed_of done) p = hv /\
       ~ In p (flat_map failed_of done)
  else dict_get (flat_map hashed_of done) p = None /\
       In p (flat_map failed_of done).
Proof.
  induction done as [|[q r] done IH]; cbn [In map fst flat_map];
    [tauto|].
  intros Hnd Hret Hin. apply NoDup_cons in Hnd as [Hq Hnd].
  assert (Hret' : forall fut, In fut done -> exists hv, snd fut = inr hv).
  { intros fut Hfut. apply Hret. now right. }
  rewrite dict_get_app.
  destruct Hin as [[= -> ->]|Hin].
  - assert (Hrest : ~ In p (map fst done)).
    { intros Hin. apply Hq. now apply list_elem_of_In. }
    change (hashed_of (p, inr hv))
      with (match hv with
            | Some h => if String.eqb h "" then [] else [(p, h)]
            | None => []
            end).
    change (failed_of (p, inr hv)) with (if truthy hv then [] else [p]).
    destruct hv as [h|]; cbn [truthy].
    + destruct (String.eqb h "") eqn:Hh; cbn [negb dict_get app].
      * split.
        -- apply dict_get_not_in. intros Hk. apply Hrest.
           now apply hashed_of_keys.
        -- now left.
      * rewrite String.eqb_refl. split; [reflexivity|].
        intros Hf. apply Hrest. now apply failed_of_paths.
    + cbn [dict_get app]. split.
      * apply dict_get_not_in. intros Hk. apply Hrest.
        now apply hashed_of_keys.
      * now left.
  - assert (Hne : q <> p).
    { intros ->. apply Hq. apply list_elem_of_In.
      apply (in_map fst) in Hin. exact Hin. }
    assert (Hhead : dict_get (hashed_of (q, r)) p = None).
    { apply dict_get_not_in. intros Hk.
      assert (Hqp : In p (map fst [(q, r)])).
      { apply (hashed_of_keys [(q, r)]). cbn [flat_map].
        now rewrite app_nil_r. }
      destruct Hqp as [Hqp|[]]. now apply Hne. }
    assert (Hfail : ~ In p (failed_of (q, r))).
    { intros Hf.
      assert (Hqp : In p (map fst [(q, r)])).
      { apply (failed_of_paths [(q, r)]).
        - intros fut [<-|[]]. apply Hret. now left.
        - cbn [flat_map]. now rewrite app_nil_r. }
      destruct Hqp as [Hqp|[]]. now apply Hne. }
    rewrite Hhead. specialize (IH Hnd Hret' Hin).
    destruct (truthy hv).
    + destruct IH as [Hget Hnf]. split; [exact Hget|].
      rewrite in_app_iff. tauto.
    + destruct IH as [Hget Hf]. split; [exact Hget|].
      rewrite in_app_iff. tauto.
Qed.

(** Every digest the mapping holds was delivered for its path and is
    not empty. *)
Lemma scan_steps_sound cb total done (P : string -> string -> Prop) :
  (forall p h, In (p, inr (Some h)) done -> h <> "" -> P p h) ->
  forall st,
    (forall p h, dict_get (results st) p = Some h -> P p h) ->
    forall p h,
      dict_get (results (scan_steps cb total done st)) p = Some h -> P p h.
Proof.
  unfold scan_steps. intros Hdone.
  induction done as [|[q r] done IH]; intros st Hst; cbn [fold_left];
    [exact Hst|].
  apply IH.
  - intros p h Hin. apply Hdone. now right.
  - intros p h. unfold scan_step. cbn [fst snd].
    destruct r as [e|[d|]]; cbn; try apply Hst.
    destruct (String.eqb_spec d "") as [->|Hd]; cbn; [apply Hst|].
    destruct (string_dec q p) as [->|Hne].
    + rewrite dict_get_set_eq. intros [= <-].
      apply Hdone; [now left | exact Hd].
    + rewrite dict_get_set_ne by exact Hne. apply Hst.
Qed.
End ScanOutcome.

Section ScanMore.
Context {HL : Hashlib}.

Lemma collect_files_regular os stops location file_list :
  collect_files os stops location = inr file_list ->
  forall p, In p file_list -> os_path_isfile os p = true.
Proof.
  unfold collect_files.
  destruct (os_path_isfile os location) eqn:Hfile.
  - intros [= <-] p [<-|[]]. exact Hfile.
  - destruct (os_isdir os location); [|intros [= <-] p []].
    destruct (os_walk os location) as [e|triples]; [discriminate|].
    intros [= <-]. generalize 0%nat.
    induction triples as [|[[root dirs] files] triples IH]; intros k p;
      cbn [walk_loop]; [intros []|].
    destruct (stop_walk stops k); [intros []|].
    rewrite in_app_iff. intros [Hin|Hin]; [|exact (IH _ _ Hin)].
    unfold walk_files in Hin. apply filter_In in Hin. apply Hin.
Qed.

Lemma submit_all_in os stops algorithm file_list p r :
  In (p, r) (submit_all os stops algorithm file_list) <->
  In p file_list /\
  r = snd (calculate_file_hash os (stop_hash stops p) p algorithm
                               default_chunk_size).
Proof.
  unfold submit_all. rewrite in_map_iff. split.
  - intros (q & [= <- <-] & Hq). auto.
  - intros [Hp ->]. now exists p.
Qed.

Lemma submit_all_returns os stops algorithm file_list fut :
  In fut (submit_all os stops algorithm file_list) ->
  exists hv, snd fut = inr hv.
Proof.
  destruct fut as [p r]. rewrite submit_all_in. intros [_ ->].
  apply calculate_file_hash_returns.
Qed.

Lemma submit_all_paths os stops algorithm file_list :
  map fst (submit_all os stops algorithm file_list) = file_list.
Proof.
  unfold submit_all. rewrite map_map. cbn. apply map_id.
Qed.

(** What a scan that is not cancelled returns, for distinct paths. *)
Lemma scan_location_complete os stops sched location algorithm cb
    max_workers file_list :
  collect_files os stops location = inr file_list ->
  0 < max_workers ->
  NoDup file_list ->
  (forall k, (k < length file_list)%nat -> stop_loop stops k = false) ->
  let done := as_completed sched (submit_all os stops algorithm file_list) in
  fst (scan_location os stops sched location algorithm cb max_workers)
  = inr (flat_map hashed_of done, flat_map failed_of done) /\
  Permutation (submit_all os stops algorithm file_list) done /\
  NoDup (map fst done).
Proof.
  intros Hcollect Hmw Hnd Hstop done.
  pose proof (as_completed_perm sched _
                (submit_all os stops algorithm file_list)) as Hperm.
  fold done in Hperm.
  assert (Hnd' : NoDup (map fst done)).
  { rewrite <- Hperm. now rewrite submit_all_paths. }
  assert (Hlen : length done = length file_list).
  { rewrite <- Hperm. unfold submit_all. apply length_map. }
  rewrite (scan_location_run _ _ _ _ _ _ _ _ Hcollect Hmw). cbv zeta.
  fold done.
  rewrite iterations_all by (intros i Hi; apply Hstop; lia).
  rewrite <- Hlen, firstn_all. cbn [fst].
  rewrite scan_steps_failed, scan_steps_hashed;
    [|exact Hnd' | intros p _ []].
  cbn. auto.
Qed.
End ScanMore.



(** X6. A scan that is not cancelled accounts for every collected file
    exactly once (the paths being distinct): a file whose digest was
    computed, and is not empty, is in the results with that digest and
    not in the error list; any other file is in the error list and not in
    the results. *)
Theorem scan_partitions_files {HL : Hashlib}
    (os : OS) (stops : Stops) (sched : Scheduler)
    (location algorithm : string) (cb : bool) (max_workers : Z)
    (file_list : list string) :
  collect_files os stops location = inr file_list ->
  0 < max_workers ->
  NoDup file_list ->
  (forall k, (k < length file_list)%nat -> stop_loop stops k = false) ->
  exists hash_data failed,
    fst (scan_location os stops sched location algorithm cb max_workers)
    = inr (hash_data, failed) /\
    forall p, In p file_list ->
      match snd (calculate_file_hash os (stop_hash stops p) p algorithm
                                     default_chunk_size) with
      | inr (Some h) =>
          if String.eqb h ""
          then dict_get hash_data p = None /\ In p failed
          else dict_get hash_data p = Some h /\ ~ In p failed
      | _ => dict_get hash_data p = None /\ In p failed
      end.
Proof.
  intros Hcollect Hmw Hnd Hstop.
  destruct (scan_location_complete os stops sched location algorithm cb
              max_workers file_list Hcollect Hmw Hnd Hstop)
    as (Hrun & Hperm & Hnd').
  eexists _, _. split; [exact Hrun|].
  intros p Hp.
  set (done := as_completed sched _) in *.
  destruct (calculate_file_hash_returns os (stop_hash stops p) p algorithm
              default_chunk_size) as [hv Hhv].
  assert (Hin : In (p, inr hv) done).
  { apply (Permutation_in _ Hperm). apply submit_all_in. auto. }
  assert (Hret : forall fut, In fut done -> exists hv, snd fut = inr hv).
  { intros fut Hfut. apply (submit_all_returns os stops algorithm file_list).
    apply (Permutation_in _ (Permutation_sym Hperm) Hfut). }
  pose proof (scan_outcome_lookup done p hv Hnd' Hret Hin) as Hlook.
  rewrite Hhv. destruct hv as [h|]; cbn [truthy] in Hlook; [|exact Hlook].
  destruct (String.eqb h ""); exact Hlook.
Qed.

Lemma scan_partitions_files_witness :
  exists hash_data failed,
    fst (scan_location (HL := Demo.hashlib) Demo.one_locked Demo.no_stop
           Demo.lifo "/data" "CRC32" false 4) = inr (hash_data, failed) /\
    dict_get hash_data "/data/a.bin" = Some "cbf43926" /\
    dict_get hash_data "/data/b.bin" = None /\
    In "/data/b.bin" failed.
Proof.
  assert (Hcollect :
    collect_files Demo.one_locked Demo.no_stop "/data"
    = inr ["/data/a.bin"; "/data/b.bin"; "/data/c.bin"])
    by (vm_compute; reflexivity).
  assert (Hmw : 0 < 4) by reflexivity.
  assert (Hnd : NoDup ["/data/a.bin"; "/data/b.bin"; "/data/c.bin"]).
  { repeat (apply NoDup_cons; split;
            [rewrite list_elem_of_In; cbn; intuition discriminate|]).
    apply NoDup_nil_2. }
  destruct (scan_partitions_files (HL := Demo.hashlib) Demo.one_locked
              Demo.no_stop Demo.lifo "/data" "CRC32" false 4 _
              Hcollect Hmw Hnd (fun _ _ => eq_refl))
    as (hash_data & failed & Hrun & Hall).
  exists hash_data, failed. split; [exact Hrun|].
  pose proof (Hall "/data/a.bin" (or_introl eq_refl)) as Ha.
  pose proof (Hall "/data/b.bin" (or_intror (or_introl eq_refl))) as Hb.
  vm_compute in Ha. vm_compute in Hb. tauto.
Defined.

(** X7. The order in which the thread pool completes its tasks changes
    the order of the entries only: two scans of the same files that are
    not cancelled return the same digest for every path and the same
    failures, up to rearrangement. *)
Theorem scan_result_independent_of_schedule {HL : Hashlib}
    (os : OS) (stops : Stops) (sched1 sched2 : Scheduler)
    (location algorithm : string) (cb : bool) (max_workers : Z)
    (file_list : list string) :
  collect_files os stops location = inr file_list ->
  0 < max_workers ->
  NoDup file_list ->
  (forall k, (k < length file_list)%nat -> stop_loop stops k = false) ->
  exists hash_data1 failed1 hash_data2 failed2,
    fst (scan_location os stops sched1 location algorithm cb max_workers)
    = inr (hash_data1, failed1) /\
    fst (scan_location os stops sched2 location algorithm cb max_workers)
    = inr (hash_data2, failed2) /\
    Permutation hash_data1 hash_data2 /\
    Permutation failed1 failed2 /\
    (forall p, dict_get hash_data1 p = dict_get hash_data2 p).
Proof.
  intros Hcollect Hmw Hnd Hstop.
  destruct (scan_location_complete os stops sched1 location algorithm cb
              max_workers file_list Hcollect Hmw Hnd Hstop)
    as (Hrun1 & Hperm1 & Hnd1).
  destruct (scan_location_complete os stops sched2 location algorithm cb
              max_workers file_list Hcollect Hmw Hnd Hstop)
    as (Hrun2 & Hperm2 & Hnd2).
  eexists _, _, _, _. split; [exact Hrun1|]. split; [exact Hrun2|].
  set (done1 := as_completed sched1 _) in *.
  set (done2 := as_completed sched2 _) in *.
  assert (Hperm : Permutation done1 done2).
  { now rewrite <- Hperm1, <- Hperm2. }
  assert (Hh : Permutation (flat_map hashed_of done1)
                           (flat_map hashed_of done2)).
  { clear -Hperm. induction Hperm; cbn [flat_map].
    - constructor.
    - now apply Permutation_app_head.
    - rewrite !app_assoc. apply Permutation_app_tail.
      apply Permutation_app_comm.
    - etransitivity; eassumption. }
  assert (Hf : Permutation (flat_map failed_of done1)
                           (flat_map failed_of done2)).
  { clear -Hperm. induction Hperm; cbn [flat_map].
    - constructor.
    - now apply Permutation_app_head.
    - rewrite !app_assoc. apply Permutation_app_tail.
      apply Permutation_app_comm.
    - etransitivity; eassumption. }
  split; [exact Hh|]. split; [exact Hf|].
  intros p. apply dict_get_perm; [|exact Hh].
  unfold dict_wf.
  assert (Hwf : forall done : list (string * (exn + option string)),
             NoDup (map fst done) ->
             NoDup (dict_keys (flat_map hashed_of done))).
  { clear. induction done as [|[q r] done IH]; cbn [flat_map map fst].
    - intros _. apply NoDup_nil_2.
    - intros Hnd. apply NoDup_cons in Hnd as [Hq Hnd].
      unfold hashed_of at 1. cbn [fst snd].
      destruct r as [e|[h|]]; cbn [app]; try now apply IH.
      destruct (String.eqb h ""); cbn [app]; [now apply IH|].
      cbn. apply NoDup_cons. split; [|now apply IH].
      intros Hin. apply Hq. apply list_elem_of_In.
      apply hashed_of_keys. now apply list_elem_of_In. }
  now apply Hwf.
Qed.

Lemma scan_result_independent_of_schedule_witness :
  exists hash_data1 failed1 hash_data2 failed2,
    fst (scan_location (HL := Demo.hashlib) Demo.one_locked Demo.no_stop
           Demo.fifo "/data" "CRC32" false 4) = inr (hash_data1, failed1) /\
    fst (scan_location (HL := Demo.hashlib) Demo.one_locked Demo.no_stop
           Demo.lifo "/data" "CRC32" false 4) = inr (hash_data2, failed2) /\
    dict_get hash_data1 "/data/c.bin" = dict_get hash_data2 "/data/c.bin" /\
    Permutation failed1 failed2.
Proof.
  assert (Hcollect :
    collect_files Demo.one_locked Demo.no_stop "/data"
    = inr ["/data/a.bin"; "/data/b.bin"; "/data/c.bin"])
    by (vm_compute; reflexivity).
  assert (Hmw : 0 < 4) by reflexivity.
  assert (Hnd : NoDup ["/data/a.bin"; "/data/b.bin"; "/data/c.bin"]).
  { repeat (apply NoDup_cons; split;
            [rewrite list_elem_of_In; cbn; intuition discriminate|]).
    apply NoDup_nil_2. }
  destruct (scan_result_independent_of_schedule (HL := Demo.hashlib)
              Demo.one_locked Demo.no_stop Demo.fifo Demo.lifo "/data"
              "CRC32" false 4 _ Hcollect Hmw Hnd (fun _ _ => eq_refl))
    as (h1 & f1 & h2 & f2 & Hrun1 & Hrun2 & _ & Hfailed & Hget).
  exists h1, f1, h2, f2. auto.
Defined.


(** ** More about the manifest codec *)

Section ReplaceFacts.
Local Open Scope nat_scope.

Lemma string_length_append (a b : string) :
  String.length (a +:+ b) = String.length a + String.length b.
Proof. induction a as [|c a IH]; simpl; [reflexivity | now f_equal]. Qed.

Lemma prefix_length (old s : string) :
  String.prefix old s = true -> String.length old <= String.length s.
Proof.
  revert s. induction old as [|c old IH]; intros s; [cbn; lia|].
  destruct s as [|c' s]; cbn; [discriminate|].
  destruct (ascii_dec c c'); [|discriminate].
  intros H. apply IH in H. lia.
Qed.

(** Replacing what does not occur changes nothing. *)
Lemma str_replace_absent (old new s : string) :
  is_substring old s = false -> str_replace old new s = s.
Proof.
  unfold str_replace. induction s as [|c s IH]; [reflexivity|].
  cbn [is_substring str_replace_from]. intros H.
  apply orb_false_iff in H as [Hpre Hrest].
  rewrite Hpre. f_equal. now apply IH.
Qed.

Lemma str_replace_from_length (old new : string) :
  String.length old <= String.length new -> old <> "" ->
  forall s skip,
    skip <= String.length s ->
    String.length s
    <= String.length (str_replace_from old new skip s) + skip.
Proof.
  intros Hlen Hold. induction s as [|c s IH]; intros skip Hskip.
  - cbn. lia.
  - cbn [str_replace_from]. destruct skip as [|n].
    + destruct (String.prefix old (String c s)) eqn:Hpre.
      * apply prefix_length in Hpre. cbn [String.length] in Hpre.
        assert (0 < String.length old).
        { destruct old; [congruence | cbn; lia]. }
        rewrite string_length_append.
        specialize (IH (String.length old - 1)). cbn [String.length].
        lia.
      * cbn [String.length]. specialize (IH 0). lia.
    + cbn [String.length] in *. specialize (IH n). lia.
Qed.

(** Replacing by something longer what does occur makes the string
    longer. *)
Lemma str_replace_longer (old new s : string) :
  String.length old < String.length new -> old <> "" ->
  is_substring old s = true ->
  String.length s < String.length (str_replace old new s).
Proof.
  intros Hlen Hold. unfold str_replace.
  induction s as [|c s IH]; cbn [is_substring str_replace_from].
  - destruct old; [congruence | discriminate].
  - destruct (String.prefix old (String c s)) eqn:Hpre.
    + intros _. apply prefix_length in Hpre. cbn [String.length] in Hpre.
      assert (0 < String.length old).
      { destruct old; [congruence | cbn; lia]. }
      rewrite string_length_append.
      pose proof (str_replace_from_length old new ltac:(lia) Hold s
                    (String.length old - 1) ltac:(lia)).
      cbn [String.length]. lia.
    + cbn [orb String.length]. intros H. apply IH in H. lia.
Qed.

(** The name of the companion text file differs from the name it is
    derived from exactly when that name contains ".json". *)
Lemma companion_name (suffix output_file : string) :
  String.length ".json" < String.length suffix ->
  (is_substring ".json" output_file = true <->
   str_replace ".json" suffix output_file <> output_file).
Proof.
  intros Hlen. split.
  - intros Hsub Heq.
    pose proof (str_replace_longer ".json" suffix output_file Hlen
                  ltac:(discriminate) Hsub) as Hlt.
    rewrite Heq in Hlt. lia.
  - intros Hne. destruct (is_substring ".json" output_file) eqn:Hsub;
      [reflexivity|].
    exfalso. apply Hne. now apply str_replace_absent.
Qed.
End ReplaceFacts.

Section WriteFacts.

Lemma write_text_files os p text os' :
  write_text os p text = inr os' ->
  (exists f, os_files os' !! p = Some f /\
             f_bytes f = list_byte_of_string text) /\
  (forall q, q <> p -> os_files os' !! q = os_files os !! q) /\
  os_isdir os' = os_isdir os /\ os_writable os' = os_writable os.
Proof.
  unfold write_text.
  destruct (os_isdir os p); [discriminate|].
  destruct (os_writable os p); [|discriminate].
  cbn [negb]. intros [= <-]. cbn [os_files os_isdir os_writable].
  split; [|split; [|split; reflexivity]].
  - rewrite lookup_insert_eq. eauto.
  - intros q Hne. now rewrite lookup_insert_ne.
Qed.

Lemma write_text_ok os p text :
  (exists os', write_text os p text = inr os') <->
  os_isdir os p = false /\ os_writable os p = true.
Proof.
  unfold write_text.
  destruct (os_isdir os p), (os_writable os p); cbn [negb]; split;
    first [ intros [os' Hw]; discriminate Hw
          | intros [Hd Hw]; discriminate
          | intros _; eauto ].
Qed.
End WriteFacts.

Section RecordFacts.

Lemma dict_set_in {V} (d : dict V) k v k' v' :
  In (k', v') (dict_set d k v) -> (k', v') = (k, v) \/ In (k', v') d.
Proof.
  induction d as [|[k0 v0] d IH]; cbn.
  - intros [H|[]]. now left.
  - destruct (String.eqb_spec k k0) as [->|Hne]; cbn.
    + intros [H|H]; [now left | right; now right].
    + intros [H|H]; [right; now left|].
      destruct (IH H); [now left | right; now right].
Qed.

(** When the loop over the hashed files does not raise, it stores each
    of them under its relative key. *)
Lemma add_records_fold os base_path items : forall acc hashes,
  add_records os base_path items acc = inr hashes ->
  hashes
  = fold_left (fun d '(file_path, hash_value) =>
                 dict_set d (rel_key os base_path file_path)
                          (file_record os file_path hash_value))
              items acc.
Proof.
  induction items as [|[file_path hash_value] items IH];
    intros acc hashes Hadd; cbn in Hadd.
  - now injection Hadd as <-.
  - cbn [fold_left]. unfold rel_key at 2.
    destruct (os_relpath os file_path base_path) as [[]|rel_path];
      try discriminate; now apply IH.
Qed.

Lemma add_records_in os base_path items : forall acc k info,
  In (k, info)
     (fold_left (fun d '(file_path, hash_value) =>
                   dict_set d (rel_key os base_path file_path)
                            (file_record os file_path hash_value))
                items acc) ->
  In (k, info) acc \/
  exists file_path hash_value,
    In (file_path, hash_value) items /\
    k = rel_key os base_path file_path /\
    info = file_record os file_path hash_value.
Proof.
  induction items as [|[file_path hash_value] items IH];
    intros acc k info; cbn [fold_left]; [now left|].
  intros Hin. apply IH in Hin as [Hin|(p & h & Hin & Hk & Hinfo)].
  - apply dict_set_in in Hin as [[= -> ->]|Hin]; [|now left].
    right. exists file_path, hash_value. split; [now left | auto].
  - right. exists p, h. split; [now right | auto].
Qed.

Lemma add_records_distinct os base_path items : forall acc,
  NoDup (map (rel_key os base_path) (dict_keys items)) ->
  (forall q, In q (map (rel_key os base_path) (dict_keys items)) ->
             ~ In q (dict_keys acc)) ->
  fold_left (fun d '(file_path, hash_value) =>
               dict_set d (rel_key os base_path file_path)
                        (file_record os file_path hash_value))
            items acc
  = acc ++ map (fun '(file_path, hash_value) =>
                  (rel_key os base_path file_path,
                   file_record os file_path hash_value)) items.
Proof.
  induction items as [|[file_path hash_value] items IH];
    intros acc Hnd Hfresh; cbn [fold_left map].
  - now rewrite app_nil_r.
  - cbn [dict_keys map fst] in Hnd, Hfresh.
    apply NoDup_cons in Hnd as [Hnew Hnd].
    rewrite list_elem_of_In in Hnew.
    rewrite IH.
    + rewrite dict_set_new by (apply Hfresh; now left).
      now rewrite <- app_assoc.
    + exact Hnd.
    + intros q Hq Hin. apply dict_set_keys_in in Hin as [->|Hin].
      * contradiction.
      * apply (Hfresh q); [now right | exact Hin].
Qed.

Lemma file_record_fields os file_path hash_value :
  json_getitem (file_record os file_path hash_value) "hash"
  = inr (JStr hash_value) /\
  json_getitem (file_record os file_path hash_value) "full_path"
  = inr (JStr file_path) /\
  (forall f, os_files os !! file_path = Some f ->
     json_getitem (file_record os file_path hash_value) "size"
     = inr (JInt (Z.of_nat (length (f_bytes f))))).
Proof.
  unfold file_record, os_stat.
  destruct (os_files os !! file_path) as [f|]; cbn.
  - split; [reflexivity|]. split; [reflexivity|]. now intros f' [= <-].
  - split; [reflexivity|]. split; [reflexivity|]. intros f' [=].
Qed.
End RecordFacts.

(** X9. What a manifest stores. Every entry of its section "hashes" is
    the record of one of the hashed files, filed under the path of that
    file relative to the scanned directory, with the digest of the scan
    and the absolute path. When the relative paths of the hashed files
    are distinct, every hashed file is found under its relative path,
    with its digest, its absolute path and its size in bytes. *)
Theorem manifest_entries_are_records
    (os : OS) (hash_data : dict string) (failed : list string)
    (algorithm location : string) (data : json) :
  manifest_data os hash_data failed algorithm location = inr data ->
  let base_path := manifest_base os location in
  exists hashes,
    json_getitem data "hashes" = inr (JObj hashes) /\
    (forall rel_path file_info,
       In (rel_path, file_info) hashes ->
       exists file_path hash_value,
         In (file_path, hash_value) hash_data /\
         rel_path = rel_key os base_path file_path /\
         json_getitem file_info "hash" = inr (JStr hash_value) /\
         json_getitem file_info "full_path" = inr (JStr file_path)) /\
    (NoDup (map (rel_key os base_path) (dict_keys hash_data)) ->
     forall file_path hash_value,
       In (file_path, hash_value) hash_data ->
       exists file_info,
         dict_get hashes (rel_key os base_path file_path) = Some file_info /\
         json_getitem file_info "hash" = inr (JStr hash_value) /\
         json_getitem file_info "full_path" = inr (JStr file_path) /\
         (forall f, os_files os !! file_path = Some f ->
            json_getitem file_info "size"
            = inr (JInt (Z.of_nat (length (f_bytes f)))))).
Proof.
  unfold manifest_data. cbv zeta.
  destruct (add_records _ _ _ _) as [e|hashes] eqn:Hadd; [discriminate|].
  intros [= <-]. exists hashes. split; [reflexivity|].
  apply add_records_fold in Hadd. split.
  - intros rel_path file_info Hin. rewrite Hadd in Hin.
    apply add_records_in in Hin as [[]|(p & h & Hin & -> & ->)].
    exists p, h. split; [exact Hin|]. split; [reflexivity|].
    destruct (file_record_fields os p h) as (Hh & Hp & _). auto.
  - intros Hnd file_path hash_value Hin.
    rewrite add_records_distinct in Hadd; [|exact Hnd | intros q _ []].
    cbn [app] in Hadd.
    exists (file_record os file_path hash_value).
    split; [|apply file_record_fields].
    apply dict_get_in.
    + unfold dict_wf, dict_keys. rewrite Hadd, map_map.
      unfold dict_keys in Hnd. rewrite map_map in Hnd.
      erewrite map_ext; [exact Hnd|]. now intros [p h].
    + rewrite Hadd.
      apply (in_map (fun '(p, h) => (rel_key os (manifest_base os location) p,
                                      file_record os p h))
                    _ _ Hin).
Qed.

Lemma manifest_entries_are_records_witness :
  exists data hashes file_info,
    manifest_data Demo.three_files
      [("/data/a.bin", "cbf43926"); ("/data/c.bin", "352441c2")] []
      "CRC32" "/data" = inr data /\
    json_getitem data "hashes" = inr (JObj hashes) /\
    dict_get hashes "a.bin" = Some file_info /\
    json_getitem file_info "size" = inr (JInt 9).
Proof.
  match goal with
  | |- exists data hashes file_info, ?M = inr data /\ _ =>
      destruct M as [e|data] eqn:Hdata; [vm_compute in Hdata; discriminate|]
  end.
  destruct (manifest_entries_are_records _ _ _ _ _ _ Hdata)
    as (hashes & Hget & _ & Hall).
  assert (Hnd : NoDup (map (rel_key Demo.three_files
                              (manifest_base Demo.three_files "/data"))
                           (dict_keys [("/data/a.bin", "cbf43926");
                                       ("/data/c.bin", "352441c2")]))).
  { vm_compute.
    repeat (apply NoDup_cons; split;
            [rewrite list_elem_of_In; cbn; intuition discriminate|]).
    apply NoDup_nil_2. }
  destruct (Hall Hnd "/data/a.bin" "cbf43926" (or_introl eq_refl))
    as (file_info & Hinfo & _ & _ & Hsize).
  exists data, hashes, file_info. split; [reflexivity|].
  split; [exact Hget|]. split; [exact Hinfo|].
  exact (Hsize (mkFile (list_byte_of_string "123456789") true) eq_refl).
Defined.

(** X10. Where the error report goes. When a save with failures
    succeeds, the report is in the file named by replacing ".json" in the
    name of the manifest. That name differs from the name of the manifest
    exactly when the latter contains ".json": then both files hold what
    was meant for them; otherwise the report is all that the manifest
    file holds, and the call still returns [True]. *)
Theorem error_report_target {JM : Json_module}
    (os : OS) (hash_data : dict string) (failed : list string)
    (output_file algorithm location : string) :
  failed <> [] ->
  snd (save_hashes os hash_data failed output_file algorithm location)
  = true ->
  let os' :=
    fst (save_hashes os hash_data failed output_file algorithm location) in
  let error_file := str_replace ".json" "_errors.txt" output_file in
  (is_substring ".json" output_file = true <-> error_file <> output_file) /\
  (exists f,
     os_files os' !! error_file = Some f /\
     f_bytes f
     = list_byte_of_string (error_report os failed algorithm location)) /\
  (is_substring ".json" output_file = true ->
   exists data f,
     manifest_data os hash_data failed algorithm location = inr data /\
     os_files os' !! output_file = Some f /\
     f_bytes f = list_byte_of_string (json_dump data)) /\
  (is_substring ".json" output_file = false ->
   exists f,
     os_files os' !! output_file = Some f /\
     f_bytes f
     = list_byte_of_string (error_report os failed algorithm location)).
Proof.
  intros Hfailed. unfold save_hashes.
  destruct (manifest_data os hash_data failed algorithm location)
    as [e|data]; [discriminate|].
  destruct (write_text os output_file (json_dump data)) as [e|os1] eqn:Hw1;
    [discriminate|].
  destruct failed as [|err errs]; [congruence|].
  destruct (write_text os1 _ _) as [e|os2] eqn:Hw2; [discriminate|].
  intros _. cbn [fst]. cbv zeta.
  pose proof (companion_name "_errors.txt" output_file
                ltac:(cbn; lia)) as Hname.
  destruct (write_text_files _ _ _ _ Hw1) as (Hf1 & _).
  destruct (write_text_files _ _ _ _ Hw2) as (Hf2 & Hother & _).
  split; [exact Hname|]. split; [exact Hf2|]. split.
  - intros Hsub. apply Hname in Hsub.
    destruct Hf1 as (f & Hf & Hbytes). exists data, f.
    split; [reflexivity|]. split; [|exact Hbytes].
    rewrite Hother by congruence. exact Hf.
  - intros Hsub. rewrite (str_replace_absent _ _ _ Hsub) in Hf2.
    exact Hf2.
Qed.

Lemma error_report_target_witness :
  let saved :=
    save_hashes Demo.three_files [("/data/a.bin", "cbf43926")]
                ["/data/b.bin"] "/data/manifest" "CRC32" "/data" in
  exists f,
    os_files (fst saved) !! "/data/manifest" = Some f /\
    f_bytes f
    = list_byte_of_string
        (error_report Demo.three_files ["/data/b.bin"] "CRC32" "/data").
Proof.
  cbv zeta.
  assert (Hfailed : ["/data/b.bin"] <> @nil string) by discriminate.
  match goal with
  | |- exists f, os_files (fst ?S) !! _ = _ /\ _ =>
      assert (Hok : snd S = true) by (vm_compute; reflexivity)
  end.
  destruct (error_report_target (JM := py_json) Demo.three_files
              [("/data/a.bin", "cbf43926")] ["/data/b.bin"] "/data/manifest"
              "CRC32" "/data" Hfailed Hok) as (_ & _ & _ & Hlost).
  exact (Hlost eq_refl).
Defined.

(** X11. A save writes to the manifest file and, when there are
    failures, to the file of the error report, and to nothing else: every
    other file is afterwards what it was before. A manifest file that
    cannot be written leaves the file system untouched and makes the call
    return [False]. *)
Theorem save_hashes_frame {JM : Json_module}
    (os : OS) (hash_data : dict string) (failed : list string)
    (output_file algorithm location : string) :
  (forall p,
     p <> output_file ->
     failed = [] \/ p <> str_replace ".json" "_errors.txt" output_file ->
     os_files (fst (save_hashes os hash_data failed output_file algorithm
                                location)) !! p
     = os_files os !! p) /\
  (os_isdir os output_file = true \/ os_writable os output_file = false ->
   save_hashes os hash_data failed output_file algorithm location
   = (os, false)).
Proof.
  unfold save_hashes. split.
  - intros p Hout Herr.
    destruct (manifest_data os hash_data failed algorithm location)
      as [e|data]; [reflexivity|].
    destruct (write_text os output_file (json_dump data)) as [e|os1] eqn:Hw1;
      [reflexivity|].
    destruct (write_text_files _ _ _ _ Hw1) as (_ & Hother1 & _).
    destruct failed as [|err errs]; cbn [fst]; [now apply Hother1|].
    destruct Herr as [Herr|Herr]; [discriminate|].
    destruct (write_text os1 _ _) as [e|os2] eqn:Hw2; cbn [fst];
      [now apply Hother1|].
    destruct (write_text_files _ _ _ _ Hw2) as (_ & Hother2 & _).
    rewrite Hother2 by exact Herr. now apply Hother1.
  - intros Hbad.
    destruct (manifest_data os hash_data failed algorithm location)
      as [e|data]; [reflexivity|].
    destruct (write_text os output_file (json_dump data)) as [e|os1] eqn:Hw1;
      [reflexivity|].
    exfalso.
    destruct (proj1 (write_text_ok os output_file (json_dump data))
                (ex_intro _ os1 Hw1)) as [Hdir Hwr].
    destruct Hbad; congruence.
Qed.

Lemma save_hashes_frame_witness :
  os_files
    (fst (save_hashes Demo.three_files [("/data/a.bin", "cbf43926")]
            ["/data/b.bin"] "/data/manifest.json" "CRC32" "/data"))
    !! "/data/a.bin"
  = os_files Demo.three_files !! "/data/a.bin".
Proof.
  apply (proj1 (save_hashes_frame (JM := py_json) Demo.three_files
                  [("/data/a.bin", "cbf43926")] ["/data/b.bin"]
                  "/data/manifest.json" "CRC32" "/data")).
  - discriminate.
  - right. vm_compute. discriminate.
Defined.

(** X12. A manifest saved under a name that contains ".json" is read
    back as the very data that was saved, with or without failures (the
    error report goes to another file): the algorithm, the scanned
    location and the list of failures can be read off it. This needs of
    the [json] module only that loading the text it dumped for this data
    gives the data back, and that the text is UTF-8. *)
Theorem saved_manifest_loads_back {JM : Json_module}
    (os : OS) (hash_data : dict string) (failed : list string)
    (output_file algorithm location : string) (data : json) :
  manifest_data os hash_data failed algorithm location = inr data ->
  json_load (json_dump data) = inr data ->
  utf8_valid (list_byte_of_string (json_dump data)) = true ->
  os_isdir os output_file = false ->
  os_writable os output_file = true ->
  match os_files os !! output_file with
  | Some f => f_readable f = true
  | None => True
  end ->
  is_substring ".json" output_file = true ->
  load_hashes
    (fst (save_hashes os hash_data failed output_file algorithm location))
    output_file
  = inr (Some data) /\
  metadata_field data "algorithm" = inr (JStr algorithm) /\
  metadata_field data "scan_location" = inr (JStr location) /\
  json_getitem data "errors" = inr (JArr (map JStr failed)).
Proof.
  intros Hdata Hjson Hutf Hdir Hwr Hread Hsub. split.
  - apply (save_load_roundtrip os hash_data failed output_file algorithm
             location data Hdata Hjson Hutf Hdir Hwr Hread).
    right. apply companion_name; [cbn; lia | exact Hsub].
  - destruct (manifest_data_shape _ _ _ _ _ _ Hdata) as (hashes & -> & _).
    repeat split.
Qed.

Lemma saved_manifest_loads_back_witness :
  exists data,
    manifest_data Demo.one_locked [("/data/a.bin", "cbf43926")]
                  ["/data/b.bin"] "CRC32" "/data" = inr data /\
    load_hashes
      (fst (save_hashes Demo.one_locked [("/data/a.bin", "cbf43926")]
              ["/data/b.bin"] "/data/out.json" "CRC32" "/data"))
      "/data/out.json"
    = inr (Some data).
Proof.
  match goal with
  | |- exists data, ?M = inr data /\ _ =>
      destruct M as [e|data] eqn:Hdata; [vm_compute in Hdata; discriminate|]
  end.
  exists data. split; [reflexivity|].
  assert (Hjson : json_load (json_dump data) = inr data).
  { vm_compute in Hdata. injection Hdata as <-. vm_compute. reflexivity. }
  assert (Hutf : utf8_valid (list_byte_of_string (json_dump data)) = true).
  { vm_compute in Hdata. injection Hdata as <-. vm_compute. reflexivity. }
  assert (Hread : match os_files Demo.one_locked !! "/data/out.json" with
                  | Some f => f_readable f = true
                  | None => True
                  end) by (vm_compute; exact I).
  exact (proj1 (saved_manifest_loads_back (JM := py_json) Demo.one_locked
                  [("/data/a.bin", "cbf43926")] ["/data/b.bin"]
                  "/data/out.json" "CRC32" "/data" data
                  Hdata Hjson Hutf eq_refl eq_refl Hread eq_refl)).
Defined.

(** X13. [load_hashes] never raises, whatever the file holds: a file
    that cannot be opened or is not UTF-8, a text the [json] module
    rejects, and a JSON value that is [null], a boolean or a number (on
    which the test [in] raises [TypeError]) all give [None]. *)
Theorem load_hashes_failure_modes {JM : Json_module}
    (os : OS) (hash_file : string) :
  (exists r, load_hashes os hash_file = inr r) /\
  (forall e, read_text os hash_file = inl e ->
             load_hashes os hash_file = inr None) /\
  (forall text e,
     read_text os hash_file = inr text -> json_load text = inl e ->
     load_hashes os hash_file = inr None) /\
  (forall text data,
     read_text os hash_file = inr text -> json_load text = inr data ->
     match data with
     | JNull | JBool _ | JInt _ | JFloat _ => True
     | _ => False
     end ->
     load_hashes os hash_file = inr None) /\
  (os_path_isfile os hash_file = false ->
   load_hashes os hash_file = inr None).
Proof.
  split; [apply load_hashes_returns|].
  unfold load_hashes, load_hashes_body, try_except.
  split; [now intros e ->|].
  split; [now intros text e -> ->|].
  split.
  - intros text data -> -> Hscalar.
    destruct data; cbn; first [reflexivity | contradiction].
  - intros Hfile. unfold read_text, open_rb.
    unfold os_path_isfile in Hfile. apply bool_decide_eq_false in Hfile.
    destruct (os_files os !! hash_file) as [f|].
    + exfalso. apply Hfile. eauto.
    + destruct (os_isdir os hash_file); reflexivity.
Qed.

(** ** More about the verifier *)

Section FoldFacts.
Context {V E : Type}.
Variable key : E -> string.
Variable val : E -> V.

(** Assigning entries with distinct new keys one after the other
    appends them. *)
Lemma fold_dict_set_distinct (done : list E) : forall (d : dict V),
  NoDup (map key done) ->
  (forall q, In q (map key done) -> ~ In q (dict_keys d)) ->
  fold_left (fun d e => dict_set d (key e) (val e)) done d
  = d ++ map (fun e => (key e, val e)) done.
Proof.
  induction done as [|e done IH]; intros d Hnd Hfresh;
    cbn [fold_left map].
  - now rewrite app_nil_r.
  - cbn [map] in Hnd, Hfresh. apply NoDup_cons in Hnd as [Hnew Hnd].
    rewrite list_elem_of_In in Hnew.
    rewrite IH.
    + rewrite dict_set_new by (apply Hfresh; now left).
      now rewrite <- app_assoc.
    + exact Hnd.
    + intros q Hq Hin. apply dict_set_keys_in in Hin as [->|Hin].
      * contradiction.
      * apply (Hfresh q); [now right | exact Hin].
Qed.
End FoldFacts.

Section EntryFacts.
Context {HL : Hashlib}.

Lemma calculate_file_hash_json_returns os stop file_path algorithm :
  exists v, calculate_file_hash_json os stop file_path algorithm = inr v.
Proof.
  destruct algorithm; cbn; eauto. apply calculate_file_hash_returns.
Qed.

(** One iteration that does not raise does to every accumulator what
    the entry alone determines. *)
Lemma verify_step_exact os stops base_path cb algorithm total_files
    rel_path file_info st st1 :
  verify_step os stops base_path cb algorithm total_files rel_path
              file_info st = inr st1 ->
  let entry := (rel_path, file_info) in
  v_results st1
  = dict_set (v_results st) rel_path
             (entry_outcome os stops base_path algorithm entry) /\
  v_corrupted st1
  = v_corrupted st ++ entry_corrupted os stops base_path algorithm entry /\
  v_errors st1
  = v_errors st ++ entry_errors os stops base_path algorithm entry /\
  v_progress st1
  = v_progress st
    ++ (if cb then [(S (v_completed st), total_files,
                     entry_reported os base_path entry)] else []) /\
  v_completed st1 = S (v_completed st).
Proof.
  unfold verify_step, entry_outcome, entry_corrupted, entry_errors,
    entry_reported, entry_digest, entry_stored_hash, entry_path.
  cbn [fst snd].
  destruct file_info as [| | | | | |members]; cbn [json_getitem];
    try discriminate.
  destruct (dict_get members "hash") as [stored_hash|]; [|discriminate].
  cbn [entry_full_path].
  set (full_path := default (JStr "") (dict_get members "full_path")).
  destruct (resolve_current_path os base_path rel_path full_path)
    as [e|current] eqn:Hres; [discriminate|].
  apply resolve_current_path_ok in Hres. rewrite <- Hres.
  destruct current as [p|].
  - symmetry in Hres.
    destruct (resolve_spec_some _ _ _ _ _ Hres) as (_ & _ & Htruthy).
    rewrite Htruthy. cbn [negb from_option]. unfold id.
    intros [= <-].
    destruct (calculate_file_hash_json os (stop_hash stops p) p algorithm)
      as [e|[current_hash|]];
      [|destruct (is_JStr current_hash stored_hash)|];
      cbn; destruct cb; rewrite ?app_nil_r; repeat split.
  - cbn [truthy negb]. intros [= <-]. cbn.
    destruct cb; rewrite ?app_nil_r; repeat split.
Qed.

(** The loop, when it does not raise, handles the entries it reaches
    one after the other, each on its own. *)
Lemma verify_loop_exact os stops base_path cb algorithm total_files
    items : forall k st st',
  verify_loop os stops base_path cb algorithm total_files items k st
  = (st', None) ->
  let done := firstn (iterations (stop_loop stops) (length items) k) items in
  v_results st'
  = fold_left (fun d e =>
                 dict_set d (fst e)
                   (entry_outcome os stops base_path algorithm e))
              done (v_results st) /\
  v_corrupted st'
  = v_corrupted st
    ++ flat_map (entry_corrupted os stops base_path algorithm) done /\
  v_errors st'
  = v_errors st ++ flat_map (entry_errors os stops base_path algorithm) done /\
  v_progress st'
  = v_progress st
    ++ (if cb
        then number_from (v_completed st) total_files
               (map (entry_reported os base_path) done)
        else []) /\
  v_completed st' = (v_completed st + length done)%nat.
Proof.
  induction items as [|[rel info] items IH]; intros k st st' Hloop;
    cbn in Hloop; cbv zeta.
  - injection Hloop as <-. cbn. rewrite !app_nil_r.
    destruct cb; rewrite ?app_nil_r; repeat split; lia.
  - cbn [length iterations].
    destruct (stop_loop stops k).
    + injection Hloop as <-. cbn. rewrite !app_nil_r.
      destruct cb; rewrite ?app_nil_r; repeat split; lia.
    + destruct (verify_step _ _ _ _ _ _ _ _ _) as [e|st1] eqn:Hstep;
        [discriminate|].
      destruct (verify_step_exact _ _ _ _ _ _ _ _ _ _ Hstep)
        as (Hr1 & Hc1 & He1 & Hp1 & Hn1).
      destruct (IH _ _ _ Hloop) as (Hr & Hc & He & Hp & Hn).
      cbn [firstn fold_left flat_map map number_from length fst].
      rewrite Hr, Hc, He, Hp, Hn, Hr1, Hc1, He1, Hp1, Hn1.
      rewrite <- !app_assoc.
      split; [reflexivity|]. split; [reflexivity|]. split; [reflexivity|].
      split; [destruct cb; reflexivity | lia].
Qed.

(** Every entry the loop handled without raising has a stored
    digest. *)
Lemma verify_loop_stored os stops base_path cb algorithm total_files
    items : forall k st st',
  verify_loop os stops base_path cb algorithm total_files items k st
  = (st', None) ->
  forall rel_path file_info,
    In (rel_path, file_info)
       (firstn (iterations (stop_loop stops) (length items) k) items) ->
    exists stored, json_getitem file_info "hash" = inr stored.
Proof.
  induction items as [|[rel info] items IH]; intros k st st' Hloop
    rel_path file_info Hin; cbn [length iterations firstn] in Hin;
    [destruct Hin|].
  cbn in Hloop. destruct (stop_loop stops k); [destruct Hin|].
  destruct (verify_step _ _ _ _ _ _ _ _ _) as [e|st1] eqn:Hstep;
    [discriminate|].
  destruct Hin as [[= <- <-]|Hin]; [|exact (IH _ _ _ Hloop _ _ Hin)].
  unfold verify_step in Hstep.
  destruct (json_getitem info "hash") as [e|stored]; [discriminate|].
  eauto.
Qed.

Lemma entry_outcome_cases os stops base_path algorithm entry :
  In (entry_outcome os stops base_path algorithm entry)
     ["MATCH"; "MISMATCH"; "FILE_NOT_FOUND"; "READ_ERROR"].
Proof.
  unfold entry_outcome, entry_digest.
  destruct (entry_path os base_path entry) as [p|]; [|cbn; tauto].
  destruct (calculate_file_hash_json_returns os (stop_hash stops p) p
              algorithm) as [v ->].
  destruct v as [h|]; [|cbn; tauto].
  destruct (is_JStr h _); cbn; tauto.
Qed.


End EntryFacts.

Section RunFacts.
Context {HL : Hashlib} {JM : Json_module}.

(** The two ways in which a verification returns. *)
Lemma verify_integrity_returned os stops hash_file base_path cb
    outcome_map corrupted errors :
  run_return (verify_integrity os stops hash_file base_path cb)
  = inr (outcome_map, corrupted, errors) ->
  (load_hashes os hash_file = inr None /\
   verify_integrity os stops hash_file base_path cb
   = mkRun (inr ([], [], ["Failed to load hash file"])) [] []) \/
  (exists hash_data algorithm items st,
     load_hashes os hash_file = inr (Some hash_data) /\
     metadata_field hash_data "algorithm" = inr algorithm /\
     json_getitem hash_data "hashes" = inr (JObj items) /\
     verify_loop os stops base_path cb algorithm (length items) items 0
                 verify_init = (st, None) /\
     outcome_map = v_results st /\ corrupted = v_corrupted st /\
     errors = v_errors st /\
     run_progress (verify_integrity os stops hash_file base_path cb)
     = v_progress st /\
     entries_considered os stops hash_file
     = firstn (iterations (stop_loop stops) (length items) 0) items).
Proof.
  unfold verify_integrity, entries_considered, metadata_field.
  destruct (load_hashes os hash_file) as [e|[hash_data|]];
    cbn [run_return run_progress]; [discriminate| |].
  - destruct (json_getitem hash_data "metadata") as [e|metadata] eqn:Hmeta;
      [discriminate|].
    destruct (json_getitem metadata "algorithm") as [e|algorithm] eqn:Halg;
      [discriminate|].
    destruct (json_getitem hash_data "hashes") as [e|hashes] eqn:Hhashes;
      [discriminate|].
    destruct (json_len hashes) as [e|total_files] eqn:Hlen; [discriminate|].
    destruct hashes as [| | | | | |items]; cbn [json_items];
      try discriminate.
    cbn in Hlen. injection Hlen as <-.
    destruct (verify_loop _ _ _ _ _ _ _ _ _) as [st raised] eqn:Hloop.
    destruct raised as [e|]; cbn [run_return run_progress]; [discriminate|].
    intros [= <- <- <-]. right.
    exists hash_data, algorithm, items, st.
    rewrite Hmeta, Halg, Hhashes. repeat split; auto.
  - intros _. left. split; reflexivity.
Qed.
End RunFacts.

(** X14. A verification that returns has handled the entries of the
    manifest one by one, each on its own and in the order of the
    manifest: the outcome mapping, the list of corrupted files, the list
    of errors and the calls of the progress callback are what each
    considered entry alone determines (its path by the rule of
    precedence, the digest computed for that path, the stored digest),
    put one after the other. The callback gets the counts 1, 2, ... with
    the number of entries of the manifest as total. *)
Theorem verify_is_entrywise {HL : Hashlib} {JM : Json_module}
    (os : OS) (stops : Stops) (hash_file : string)
    (base_path : option string) (cb : bool)
    (hash_data algorithm : json)
    (outcome_map : dict string) (corrupted : list json)
    (errors : list string) :
  load_hashes os hash_file = inr (Some hash_data) ->
  metadata_field hash_data "algorithm" = inr algorithm ->
  run_return (verify_integrity os stops hash_file base_path cb)
  = inr (outcome_map, corrupted, errors) ->
  dict_wf (entries_considered os stops hash_file) ->
  let entries := entries_considered os stops hash_file in
  outcome_map
  = map (fun e => (fst e, entry_outcome os stops base_path algorithm e))
        entries /\
  corrupted = flat_map (entry_corrupted os stops base_path algorithm) entries /\
  errors = flat_map (entry_errors os stops base_path algorithm) entries /\
  exists hashes,
    json_getitem hash_data "hashes" = inr (JObj hashes) /\
    run_progress (verify_integrity os stops hash_file base_path cb)
    = if cb
      then number_from 0 (length hashes)
             (map (entry_reported os base_path) entries)
      else [].
Proof.
  intros Hload Halg Hrun Hwf.
  destruct (verify_integrity_returned _ _ _ _ _ _ _ _ Hrun)
    as [[Hnone _]|(hd & alg & items & st & Hload' & Halg' & Hitems & Hloop
                   & -> & -> & -> & Hprog & Hentries)];
    [congruence|].
  assert (hd = hash_data) as -> by congruence.
  assert (alg = algorithm) as -> by congruence.
  cbv zeta. rewrite Hentries in *.
  destruct (verify_loop_exact _ _ _ _ _ _ _ _ _ _ Hloop)
    as (Hr & Hc & He & Hp & _).
  cbv zeta in Hr, Hc, He, Hp. cbn in Hr, Hc, He, Hp.
  split.
  { rewrite Hr.
    rewrite (fold_dict_set_distinct fst
               (entry_outcome os stops base_path algorithm));
      [reflexivity | exact Hwf | intros q _ []]. }
  split; [exact Hc|]. split; [exact He|].
  exists items. split; [exact Hitems|]. rewrite Hprog, Hp.
  destruct cb; reflexivity.
Qed.

Lemma verify_is_entrywise_witness :
  let manifest :=
    fst (save_hashes Demo.three_files
           [("/data/a.bin", "cbf43926"); ("/data/b.bin", "00000001");
            ("/data/gone.bin", "352441c2")]
           [] "/data/out.json" "CRC32" "/data") in
  exists corrupted,
    run_return (verify_integrity (HL := Demo.hashlib) manifest Demo.no_stop
                  "/data/out.json" None true)
    = inr ([("a.bin", "MATCH"); ("b.bin", "MISMATCH");
            ("gone.bin", "FILE_NOT_FOUND")],
           corrupted, ["gone.bin - File not found"]) /\
    length corrupted = 1%nat.
Proof.
  cbv zeta.
  set (manifest := fst (save_hashes _ _ _ _ _ _)).
  destruct (load_hashes manifest "/data/out.json") as [e|[hash_data|]]
    eqn:Hload; [vm_compute in Hload; discriminate | |
                vm_compute in Hload; discriminate].
  assert (Halg : metadata_field hash_data "algorithm" = inr (JStr "CRC32")).
  { vm_compute in Hload. injection Hload as <-. reflexivity. }
  destruct (run_return (verify_integrity (HL := Demo.hashlib) manifest
                          Demo.no_stop "/data/out.json" None true))
    as [e|[[outcome_map corrupted] errors]] eqn:Hrun;
    [vm_compute in Hrun; discriminate|].
  assert (Hwf : dict_wf (entries_considered manifest Demo.no_stop
                           "/data/out.json")).
  { vm_compute.
    repeat (apply NoDup_cons; split;
            [rewrite list_elem_of_In; cbn; intuition discriminate|]).
    apply NoDup_nil_2. }
  destruct (verify_is_entrywise (HL := Demo.hashlib) manifest Demo.no_stop
              "/data/out.json" None true hash_data (JStr "CRC32")
              outcome_map corrupted errors Hload Halg Hrun Hwf)
    as (-> & -> & -> & _).
  eexists. split; vm_compute; reflexivity.
Defined.



(** X16. MATCH is reported for an entry exactly when a path was found
    for it, the digest of that path was computed, and it equals the
    stored digest, which then is a string: never for a missing or
    unreadable file, never for a digest that differs. (The manifest has
    distinct keys and the algorithm is the one its metadata name.) *)
Theorem match_means_same_digest {HL : Hashlib} {JM : Json_module}
    (os : OS) (stops : Stops) (hash_file : string)
    (base_path : option string) (cb : bool)
    (hash_data algorithm : json)
    (outcome_map : dict string) (corrupted : list json)
    (errors : list string) (rel_path : string) (file_info : json) :
  load_hashes os hash_file = inr (Some hash_data) ->
  metadata_field hash_data "algorithm" = inr algorithm ->
  run_return (verify_integrity os stops hash_file base_path cb)
  = inr (outcome_map, corrupted, errors) ->
  dict_wf (entries_considered os stops hash_file) ->
  In (rel_path, file_info) (entries_considered os stops hash_file) ->
  (dict_get outcome_map rel_path = Some "MATCH" <->
   exists current_path current_hash,
     List.find (os_path_exists os)
       (candidates base_path rel_path (entry_full_path file_info))
     = Some current_path /\
     calculate_file_hash_json os (stop_hash stops current_path)
                              current_path algorithm
     = inr (Some current_hash) /\
     json_getitem file_info "hash" = inr (JStr current_hash)).
Proof.
  intros Hload Halg Hrun Hwf Hin.
  destruct (verify_integrity_returned _ _ _ _ _ _ _ _ Hrun)
    as [[Hnone _]|(hd & alg & items & st & Hload' & Halg' & Hitems & Hloop
                   & -> & -> & -> & Hprog & Hentries)];
    [congruence|].
  assert (hd = hash_data) as -> by congruence.
  assert (alg = algorithm) as -> by congruence.
  rewrite Hentries in Hwf, Hin.
  set (done := firstn _ items) in *.
  destruct (verify_loop_exact _ _ _ _ _ _ _ _ _ _ Hloop) as (Hr & _).
  cbv zeta in Hr. cbn in Hr. fold done in Hr.
  rewrite (fold_dict_set_distinct fst
             (entry_outcome os stops base_path algorithm)) in Hr;
    [|exact Hwf | intros q _ []].
  cbn [app] in Hr.
  assert (Hget : dict_get (v_results st) rel_path
                 = Some (entry_outcome os stops base_path algorithm
                           (rel_path, file_info))).
  { apply dict_get_in.
    - unfold dict_wf, dict_keys. rewrite Hr, map_map. exact Hwf.
    - rewrite Hr.
      apply (in_map (fun e => (fst e,
                               entry_outcome os stops base_path algorithm e))
                    _ _ Hin). }
  rewrite Hget.
  (* a step that did not raise found the stored digest *)
  destruct (verify_loop_stored _ _ _ _ _ _ _ _ _ _ Hloop _ _ Hin)
    as [stored Hstored].
  unfold entry_outcome, entry_digest, entry_stored_hash, entry_path,
    resolve_spec.
  cbn [fst snd]. rewrite Hstored.
  destruct (List.find _ _) as [p|]; [|split; [discriminate|]].
  - destruct (calculate_file_hash_json os (stop_hash stops p) p algorithm)
      as [e|[h|]] eqn:Hcalc.
    + split; [discriminate|]. intros (p' & h' & [= <-] & Hc & _).
      congruence.
    + destruct (is_JStr h stored) eqn:Hsame.
      * split; [|reflexivity]. intros _. exists p, h.
        split; [reflexivity|]. split; [exact Hcalc|].
        destruct stored; try discriminate Hsame.
        cbn in Hsame. apply String.eqb_eq in Hsame. now subst.
      * split; [discriminate|]. intros (p' & h' & [= <-] & Hc & [= ->]).
        assert (h' = h) as -> by congruence.
        cbn in Hsame. rewrite String.eqb_refl in Hsame. discriminate.
    + split; [discriminate|]. intros (p' & h' & [= <-] & Hc & _).
      congruence.
  - intros (p' & h' & [=] & _).
Qed.

Lemma match_means_same_digest_witness :
  let manifest :=
    fst (save_hashes Demo.three_files
           [("/data/a.bin", "cbf43926"); ("/data/b.bin", "00000001")]
           [] "/data/out.json" "CRC32" "/data") in
  exists hash_data outcome_map corrupted errors file_info,
    load_hashes manifest "/data/out.json" = inr (Some hash_data) /\
    run_return (verify_integrity (HL := Demo.hashlib) manifest Demo.no_stop
                  "/data/out.json" None false)
    = inr (outcome_map, corrupted, errors) /\
    In ("a.bin", file_info)
       (entries_considered manifest Demo.no_stop "/data/out.json") /\
    dict_get outcome_map "a.bin" = Some "MATCH" /\
    json_getitem file_info "hash" = inr (JStr "cbf43926").
Proof.
  cbv zeta.
  set (manifest := fst (save_hashes _ _ _ _ _ _)).
  destruct (load_hashes manifest "/data/out.json") as [e|[hash_data|]]
    eqn:Hload; [vm_compute in Hload; discriminate | |
                vm_compute in Hload; discriminate].
  assert (Halg : metadata_field hash_data "algorithm" = inr (JStr "CRC32")).
  { vm_compute in Hload. injection Hload as <-. reflexivity. }
  destruct (run_return (verify_integrity (HL := Demo.hashlib) manifest
                          Demo.no_stop "/data/out.json" None false))
    as [e|[[outcome_map corrupted] errors]] eqn:Hrun;
    [vm_compute in Hrun; discriminate|].
  assert (Hwf : dict_wf (entries_considered manifest Demo.no_stop
                           "/data/out.json")).
  { vm_compute.
    repeat (apply NoDup_cons; split;
            [rewrite list_elem_of_In; cbn; intuition discriminate|]).
    apply NoDup_nil_2. }
  set (file_info := file_record Demo.three_files "/data/a.bin" "cbf43926").
  assert (Hin : In ("a.bin", file_info)
                   (entries_considered manifest Demo.no_stop
                      "/data/out.json")).
  { vm_compute. now left. }
  pose proof (match_means_same_digest (HL := Demo.hashlib) manifest
                Demo.no_stop "/data/out.json" None false hash_data
                (JStr "CRC32") outcome_map corrupted errors "a.bin"
                file_info Hload Halg Hrun Hwf Hin) as Hiff.
  exists hash_data, outcome_map, corrupted, errors, file_info.
  split; [reflexivity|]. split; [reflexivity|]. split; [exact Hin|].
  split; [|reflexivity].
  apply Hiff. exists "/data/a.bin", "cbf43926".
  split; [vm_compute; reflexivity|].
  split; vm_compute; reflexivity.
Defined.

(** X17. A manifest that cannot be loaded is not an exception for the
    verifier: when the file is missing, is not UTF-8 or is rejected by
    the [json] module, [verify_integrity] returns empty results, no
    corrupted file and the single error "Failed to load hash file", calls
    the progress callback never and computes no digest. *)
Theorem verify_unloadable_manifest {HL : Hashlib} {JM : Json_module}
    (os : OS) (stops : Stops) (hash_file : string)
    (base_path : option string) (cb : bool) :
  (os_path_isfile os hash_file = false \/
   (exists e, read_text os hash_file = inl e) \/
   (exists text e,
      read_text os hash_file = inr text /\ json_load text = inl e)) ->
  verify_integrity os stops hash_file base_path cb
  = mkRun (inr ([], [], ["Failed to load hash file"])) [] [].
Proof.
  intros Hbad.
  assert (Hload : load_hashes os hash_file = inr None).
  { unfold load_hashes, load_hashes_body, try_except.
    destruct Hbad as [Hfile|[[e ->]|(text & e & -> & ->)]];
      [|reflexivity|reflexivity].
    unfold read_text, open_rb.
    unfold os_path_isfile in Hfile. apply bool_decide_eq_false in Hfile.
    destruct (os_files os !! hash_file) as [f|].
    - exfalso. apply Hfile. eauto.
    - destruct (os_isdir os hash_file); reflexivity. }
  unfold verify_integrity. now rewrite Hload.
Qed.

Lemma verify_unloadable_manifest_witness :
  run_return (verify_integrity (HL := Demo.hashlib) Demo.three_files
                Demo.no_stop "/data/none.json" None true)
  = inr ([], [], ["Failed to load hash file"]).
Proof.
  assert (Hbad :
    os_path_isfile Demo.three_files "/data/none.json" = false \/
    (exists e, read_text Demo.three_files "/data/none.json" = inl e) \/
    (exists text e,
       read_text Demo.three_files "/data/none.json" = inr text /\
       json_load text = inl e)).
  { left. vm_compute. reflexivity. }
  rewrite (verify_unloadable_manifest (HL := Demo.hashlib) (JM := py_json)
             Demo.three_files Demo.no_stop "/data/none.json" None true Hbad).
  reflexivity.
Defined.

(** X18. The test of [load_hashes] is a test of membership, not of
    shape: a JSON array that has the strings "metadata" and "hashes"
    among its items passes it and is returned as the manifest. The
    verifier then indexes it with a string and raises [TypeError]; here
    an exception does reach the caller of [verify_integrity], and
    nothing is reported to the callback. *)
Theorem array_manifest_raises {HL : Hashlib} {JM : Json_module}
    (os : OS) (stops : Stops) (hash_file text : string)
    (base_path : option string) (cb : bool) (items : list json) :
  read_text os hash_file = inr text ->
  json_load text = inr (JArr items) ->
  In (JStr "metadata") items -> In (JStr "hashes") items ->
  load_hashes os hash_file = inr (Some (JArr items)) /\
  verify_integrity os stops hash_file base_path cb
  = mkRun (inl (TypeError "indices must be integers")) [] [].
Proof.
  intros Hread Hjson Hmeta Hhashes.
  assert (Hin : forall k, In (JStr k) items ->
                          existsb (is_JStr k) items = true).
  { intros k Hk. apply existsb_exists. exists (JStr k).
    split; [exact Hk|]. cbn. apply String.eqb_refl. }
  assert (Hload : load_hashes os hash_file = inr (Some (JArr items))).
  { unfold load_hashes, load_hashes_body, try_except.
    rewrite Hread, Hjson. cbn [py_in].
    rewrite (Hin _ Hmeta), (Hin _ Hhashes). reflexivity. }
  split; [exact Hload|].
  unfold verify_integrity. rewrite Hload. reflexivity.
Qed.

Lemma array_manifest_raises_witness :
  let data := JArr [JStr "metadata"; JStr "hashes"] in
  let os := Demo.data_dir [("m.json", json_dump data)] in
  run_return (verify_integrity (HL := Demo.hashlib) os Demo.no_stop
                "/data/m.json" None true)
  = inl (TypeError "indices must be integers").
Proof.
  cbv zeta.
  set (data := JArr [JStr "metadata"; JStr "hashes"]).
  set (os := Demo.data_dir _).
  assert (Hread : read_text os "/data/m.json" = inr (json_dump data))
    by (vm_compute; reflexivity).
  assert (Hjson : json_load (json_dump data) = inr data)
    by (vm_compute; reflexivity).
  destruct (array_manifest_raises (HL := Demo.hashlib) os Demo.no_stop
              "/data/m.json" _ None true _ Hread Hjson
              (or_introl eq_refl) (or_intror (or_introl eq_refl)))
    as [_ ->].
  reflexivity.
Defined.

(** ** From the scan to the verification *)

Section UncancelledFacts.
Context {S : Type}.
Variable upd : S -> list byte -> exn + S.
Variable chunk_size : Z.

(** A loop that finished saw the flag clear at every check it made: it
    ends alike under any run in which the flag is never set. *)
Lemma read_loop_finished_any (stop stop' : nat -> bool) :
  (forall k, stop' k = false) ->
  forall (rest : list byte) (k k' : nat) (st st' : S),
    snd (read_loop upd stop chunk_size rest k st) = Finished st' ->
    snd (read_loop upd stop' chunk_size rest k' st) = Finished st'.
Proof.
  intros Hstop' rest.
  remember (length rest) as n eqn:Hn. revert rest Hn.
  induction n as [n IH] using lt_wf_ind. intros rest Hn k k' st st'.
  rewrite !read_loop_step.
  pose proof (f_read_split chunk_size rest) as Hsplit.
  destruct (f_read chunk_size rest) as [|b bs] eqn:Hread; [auto|].
  destruct (stop k); [discriminate|]. rewrite Hstop'.
  destruct (upd st (b :: bs)) as [e|st1]; [discriminate|].
  cbn [snd]. apply (IH (length (skipn (length (b :: bs)) rest)));
    [|reflexivity].
  subst n.
  assert (Hlen : length rest
                 = (length (b :: bs)
                    + length (skipn (length (b :: bs)) rest))%nat).
  { rewrite Hsplit at 1. apply length_app. }
  simpl in Hlen. simpl. lia.
Qed.
End UncancelledFacts.

Section FreshFacts.
Context {HL : Hashlib}.

(** The digest of a path depends on the file system through what
    opening that path gives. *)
Lemma calculate_file_hash_same_file os os' stop file_path algorithm
    chunk_size :
  open_rb os file_path = open_rb os' file_path ->
  calculate_file_hash os stop file_path algorithm chunk_size
  = calculate_file_hash os' stop file_path algorithm chunk_size.
Proof.
  intros Hopen.
  unfold calculate_file_hash, calculate_file_hash_body, hasher_stream,
    hash_stream.
  rewrite Hopen. reflexivity.
Qed.

(** A digest that was computed is the digest computed in any run in
    which the flag is never set. *)
Lemma calculate_file_hash_uncancelled os stop stop' file_path algorithm
    chunk_size h :
  snd (calculate_file_hash os stop file_path algorithm chunk_size)
  = inr (Some h) ->
  (forall k, stop' k = false) ->
  snd (calculate_file_hash os stop' file_path algorithm chunk_size)
  = inr (Some h).
Proof.
  intros Hsome Hstop'.
  destruct (dict_mem algorithm SUPPORTED_ALGORITHMS) eqn:Hmem.
  2: { unfold calculate_file_hash, calculate_file_hash_body in Hsome.
       rewrite Hmem in Hsome. discriminate Hsome. }
  unfold calculate_file_hash in *.
  destruct (open_rb os file_path) as [e|data] eqn:Hopen.
  { exfalso. pose proof (open_rb_error _ _ _ Hopen) as Hos.
    destruct (calculate_file_hash_body_supported os stop file_path
                algorithm chunk_size Hmem) as [[_ Hb]|(h0 & _ & _ & Hb)];
      rewrite Hb in Hsome; unfold hasher_stream, hash_stream in Hsome;
      rewrite Hopen, Hos in Hsome; discriminate Hsome. }
  destruct (calculate_file_hash_body_supported os stop file_path
              algorithm chunk_size Hmem) as [[Hcrc Hb]|(h0 & Hne & Hf & Hb)];
    destruct (calculate_file_hash_body_supported os stop' file_path
                algorithm chunk_size Hmem)
      as [[Hcrc' Hb']|(h1 & Hne' & Hf' & Hb')];
    try (subst algorithm; discriminate).
  - rewrite Hb in Hsome. rewrite Hb'.
    rewrite (hash_stream_opened _ _ _ os stop _ _ _ Hopen) in Hsome.
    rewrite (hash_stream_opened _ _ _ os stop' _ _ _ Hopen).
    cbv zeta in Hsome |- *.
    destruct (snd (read_loop _ stop _ _ _ _)) as [st| |e] eqn:Hloop;
      [|discriminate Hsome
       |cbn in Hsome; destruct (is_os_error e); discriminate Hsome].
    rewrite (read_loop_finished_any _ _ stop stop' Hstop' _ _ 0%nat _ _
               Hloop).
    exact Hsome.
  - assert (h1 = h0) as -> by congruence.
    rewrite Hb in Hsome. rewrite Hb'. unfold hasher_stream in Hsome |- *.
    rewrite (hash_stream_opened _ _ _ os stop _ _ _ Hopen) in Hsome.
    rewrite (hash_stream_opened _ _ _ os stop' _ _ _ Hopen).
    cbv zeta in Hsome |- *.
    destruct (snd (read_loop _ stop _ _ _ _)) as [st| |e] eqn:Hloop;
      [|discriminate Hsome
       |cbn in Hsome; destruct (is_os_error e); discriminate Hsome].
    rewrite (read_loop_finished_any _ _ stop stop' Hstop' _ _ 0%nat _ _
               Hloop).
    exact Hsome.
Qed.

Lemma scan_steps_wf cb total done : forall st,
  dict_wf (results st) -> dict_wf (results (scan_steps cb total done st)).
Proof.
  unfold scan_steps.
  induction done as [|[q r] done IH]; intros st Hwf; cbn [fold_left];
    [exact Hwf|].
  apply IH. unfold scan_step. cbn [fst snd].
  destruct r as [e|hv]; cbn [results]; [exact Hwf|].
  destruct (truthy hv); cbn [results]; [|exact Hwf].
  now apply dict_set_wf.
Qed.

(** The digests a scan returns are those of collected files. *)
Lemma scan_location_digests os stops sched location algorithm cb
    max_workers file_list hash_data failed :
  collect_files os stops location = inr file_list ->
  fst (scan_location os stops sched location algorithm cb max_workers)
  = inr (hash_data, failed) ->
  dict_wf hash_data /\
  forall p h,
    dict_get hash_data p = Some h ->
    In p file_list /\
    snd (calculate_file_hash os (stop_hash stops p) p algorithm
                             default_chunk_size) = inr (Some h).
Proof.
  intros Hcollect Hrun.
  unfold scan_location in Hrun. rewrite Hcollect in Hrun.
  destruct (Nat.eqb (length file_list) 0).
  { injection Hrun as <- <-. split; [apply NoDup_nil_2|]. intros p h [=]. }
  destruct (max_workers <=? 0); [discriminate|].
  cbn [fst] in Hrun. rewrite scan_loop_steps in Hrun.
  set (futures := as_completed sched
                    (submit_all os stops algorithm file_list)) in *.
  set (done := firstn _ futures) in *.
  injection Hrun as <- <-.
  assert (Hdone : forall fut, In fut done ->
            In fut (submit_all os stops algorithm file_list)).
  { intros fut Hin. apply firstn_incl in Hin.
    apply (Permutation_in _
             (Permutation_sym (as_completed_perm sched _ _)) Hin). }
  split.
  - apply scan_steps_wf. apply NoDup_nil_2.
  - apply (scan_steps_sound cb (length file_list) done
             (fun p h =>
                In p file_list /\
                snd (calculate_file_hash os (stop_hash stops p) p algorithm
                                         default_chunk_size)
                = inr (Some h))).
    + intros p h Hin _. apply Hdone in Hin. apply submit_all_in in Hin.
      destruct Hin as [Hp Hr]. split; [exact Hp | now symmetry].
    + intros p h [=].
Qed.
End FreshFacts.

Section SaveElsewhere.
Context {JM : Json_module}.

(** Files other than the two a save writes are opened as before. *)
Lemma save_hashes_elsewhere os hash_data failed output_file algorithm
    location p :
  p <> output_file ->
  p <> str_replace ".json" "_errors.txt" output_file ->
  let os' := fst (save_hashes os hash_data failed output_file algorithm
                              location) in
  os_files os' !! p = os_files os !! p /\ os_isdir os' p = os_isdir os p.
Proof.
  intros Hout Herr. cbv zeta. unfold save_hashes.
  destruct (manifest_data os hash_data failed algorithm location)
    as [e|data]; [auto|].
  destruct (write_text os output_file (json_dump data)) as [e|os1] eqn:Hw1;
    [auto|].
  destruct (write_text_files _ _ _ _ Hw1) as (_ & Hother1 & Hdir1 & _).
  assert (H1 : os_files os1 !! p = os_files os !! p /\
               os_isdir os1 p = os_isdir os p).
  { split; [now apply Hother1 | now rewrite Hdir1]. }
  destruct failed as [|err errs]; cbn [fst]; [exact H1|].
  destruct (write_text os1 _ _) as [e|os2] eqn:Hw2; cbn [fst]; [exact H1|].
  destruct (write_text_files _ _ _ _ Hw2) as (_ & Hother2 & Hdir2 & _).
  rewrite Hother2 by exact Herr. rewrite Hdir2. exact H1.
Qed.
End SaveElsewhere.

Section FreshManifest.
Context {HL : Hashlib}.

(** An entry as [save_hashes] stores it, for a file that is still there
    with the digest stored: the iteration marks it MATCH. *)
Lemma verify_step_match os stops cb algorithm total_files rel_path members
    file_path h st :
  dict_get members "hash" = Some (JStr h) ->
  dict_get members "full_path" = Some (JStr file_path) ->
  os_path_exists os file_path = true ->
  snd (calculate_file_hash os (stop_hash stops file_path) file_path
                           algorithm default_chunk_size) = inr (Some h) ->
  verify_step os stops None cb (JStr algorithm) total_files rel_path
              (JObj members) st
  = inr (record_progress cb total_files file_path
           (set_outcome rel_path "MATCH" (add_hashed file_path st))).
Proof.
  intros Hhash Hfull Hex Hcalc. unfold verify_step.
  cbn [json_getitem]. rewrite Hhash, Hfull. cbn [from_option]. unfold id.
  unfold resolve_current_path. cbn [truthy andb]. rewrite Hex.
  assert (Htruthy : truthy (Some file_path) = true).
  { unfold os_path_exists in Hex. apply andb_prop in Hex as [Hne _].
    exact Hne. }
  rewrite Htruthy. cbn [negb from_option]. unfold id.
  unfold calculate_file_hash_json. rewrite Hcalc.
  cbn [is_JStr]. now rewrite String.eqb_refl.
Qed.

Lemma verify_loop_match os stops cb algorithm total_files
    (items : list (string * json)) :
  (forall k, stop_loop stops k = false) ->
  (forall rel_path file_info, In (rel_path, file_info) items ->
     exists members file_path h,
       file_info = JObj members /\
       dict_get members "hash" = Some (JStr h) /\
       dict_get members "full_path" = Some (JStr file_path) /\
       os_path_exists os file_path = true /\
       snd (calculate_file_hash os (stop_hash stops file_path) file_path
                                algorithm default_chunk_size)
       = inr (Some h)) ->
  forall k st,
  exists st',
    verify_loop os stops None cb (JStr algorithm) total_files items k st
    = (st', None) /\
    v_results st'
    = fold_left (fun d e => dict_set d (fst e) "MATCH") items (v_results st) /\
    v_corrupted st' = v_corrupted st /\ v_errors st' = v_errors st.
Proof.
  intros Hstop. induction items as [|[rel info] items IH];
    intros Hgood k st; cbn [verify_loop fold_left].
  - exists st. auto.
  - rewrite Hstop.
    destruct (Hgood rel info (or_introl eq_refl))
      as (members & p & h & -> & Hhash & Hfull & Hex & Hcalc).
    rewrite (verify_step_match os stops cb algorithm total_files rel members
               p h st Hhash Hfull Hex Hcalc).
    destruct (IH (fun r i Hin => Hgood r i (or_intror Hin)) (S k)
                 (record_progress cb total_files p
                    (set_outcome rel "MATCH" (add_hashed p st))))
      as (st' & Hloop & Hr & Hc & He).
    exists st'. split; [exact Hloop|]. auto.
Qed.
End FreshManifest.

(** X19. Scan, save, verify. The manifest saved for the result of a
    scan, verified while the scanned files are unchanged and without
    cancellation, reports MATCH for every hashed file and nothing else:
    no corrupted file, no error. The manifest is saved under a name
    containing ".json", and neither it nor the error report is written
    over a scanned file; the relative paths of the hashed files are
    distinct; no override directory is given; of the [json] module it is
    needed that the text dumped for the manifest loads back as the
    manifest. The scan itself may have been cancelled or have had
    failures. *)
Theorem fresh_manifest_verifies {HL : Hashlib} {JM : Json_module}
    (os : OS) (stops : Stops) (sched : Scheduler)
    (location algorithm : string) (cb : bool) (max_workers : Z)
    (file_list : list string)
    (hash_data : dict string) (failed : list string)
    (output_file : string) (data : json)
    (stops' : Stops) (cb' : bool) :
  collect_files os stops location = inr file_list ->
  fst (scan_location os stops sched location algorithm cb max_workers)
  = inr (hash_data, failed) ->
  manifest_data os hash_data failed algorithm location = inr data ->
  json_load (json_dump data) = inr data ->
  utf8_valid (list_byte_of_string (json_dump data)) = true ->
  os_isdir os output_file = false ->
  os_writable os output_file = true ->
  match os_files os !! output_file with
  | Some f => f_readable f = true
  | None => True
  end ->
  is_substring ".json" output_file = true ->
  (forall p, In p file_list ->
     p <> output_file /\
     p <> str_replace ".json" "_errors.txt" output_file) ->
  NoDup (map (rel_key os (manifest_base os location))
             (dict_keys hash_data)) ->
  os_files os !! "" = None ->
  (forall k, stop_loop stops' k = false) ->
  (forall p k, stop_hash stops' p k = false) ->
  run_return
    (verify_integrity
       (fst (save_hashes os hash_data failed output_file algorithm location))
       stops' output_file None cb')
  = inr (map (fun '(p, _) =>
                (rel_key os (manifest_base os location) p, "MATCH"))
             hash_data,
         [], []).
Proof.
  intros Hcollect Hscan Hdata Hjson Hutf Hdir Hwr Hread Hsub Hnames Hnd
    Hempty Hloop_stop Hhash_stop.
  set (os' := fst (save_hashes os hash_data failed output_file algorithm
                               location)).
  set (base := manifest_base os location) in *.
  assert (Hload : load_hashes os' output_file = inr (Some data)).
  { apply (save_load_roundtrip os hash_data failed output_file algorithm
             location data Hdata Hjson Hutf Hdir Hwr Hread).
    right. apply companion_name; [cbn; lia | exact Hsub]. }
  destruct (scan_location_digests os stops sched location algorithm cb
              max_workers file_list hash_data failed Hcollect Hscan)
    as (Hwf & Hdigests).
  (* the stored entries *)
  assert (Hhashes :
    data = JObj [ ("metadata",
                   manifest_metadata os hash_data failed algorithm location);
                  ("hashes",
                   JObj (map (fun '(p, h) =>
                                (rel_key os base p, file_record os p h))
                             hash_data));
                  ("errors", JArr (map JStr failed)) ]).
  { unfold manifest_data in Hdata. cbv zeta in Hdata. fold base in Hdata.
    destruct (add_records os base hash_data []) as [e|hashes] eqn:Hadd;
      [discriminate|].
    injection Hdata as <-. apply add_records_fold in Hadd.
    rewrite add_records_distinct in Hadd; [|exact Hnd | intros q _ []].
    cbn [app] in Hadd. now subst hashes. }
  set (items := map (fun '(p, h) => (rel_key os base p, file_record os p h))
                    hash_data) in *.
  (* every stored entry is good *)
  assert (Hgood : forall rel_path file_info,
    In (rel_path, file_info) items ->
    exists members file_path h,
      file_info = JObj members /\
      dict_get members "hash" = Some (JStr h) /\
      dict_get members "full_path" = Some (JStr file_path) /\
      os_path_exists os' file_path = true /\
      snd (calculate_file_hash os' (stop_hash stops' file_path) file_path
                               algorithm default_chunk_size)
      = inr (Some h)).
  { intros rel_path file_info Hin. subst items.
    apply in_map_iff in Hin as ([p h] & [= <- <-] & Hin).
    assert (Hget : dict_get hash_data p = Some h)
      by (now apply dict_get_in).
    destruct (Hdigests p h Hget) as [Hp Hcalc].
    destruct (Hnames p Hp) as [Hout Herr].
    destruct (save_hashes_elsewhere os hash_data failed output_file
                algorithm location p Hout Herr) as [Hfiles Hisdir].
    fold os' in Hfiles, Hisdir.
    pose proof (collect_files_regular _ _ _ _ Hcollect p Hp) as Hfile.
    assert (Hopen : open_rb os p = open_rb os' p).
    { unfold open_rb. now rewrite Hfiles, Hisdir. }
    unfold file_record.
    destruct (match os_stat os p with
              | inr (size, mtime) => (JInt size, JFloat mtime)
              | inl _ => (JInt 0, JInt 0)
              end) as [file_size file_mtime].
    eexists _, p, h. split; [reflexivity|].
    split; [reflexivity|]. split; [reflexivity|]. split.
    - unfold os_path_exists, os_path_isfile. rewrite Hfiles.
      unfold os_path_isfile in Hfile. rewrite Hfile.
      destruct (String.eqb_spec p "") as [->|_]; [|reflexivity].
      apply bool_decide_eq_true in Hfile. rewrite Hempty in Hfile.
      destruct Hfile as [? [=]].
    - rewrite <- (calculate_file_hash_same_file os os' _ p algorithm
                    default_chunk_size Hopen).
      apply (calculate_file_hash_uncancelled os (stop_hash stops p)
               (stop_hash stops' p) p algorithm default_chunk_size h Hcalc).
      apply Hhash_stop. }
  destruct (verify_loop_match os' stops' cb' algorithm (length items) items
              Hloop_stop Hgood 0%nat verify_init)
    as (st' & Hloop & Hr & Hc & He).
  unfold verify_integrity. rewrite Hload, Hhashes.
  cbn [json_getitem dict_get String.eqb Ascii.eqb Bool.eqb manifest_metadata
       json_len json_items].
  fold items. rewrite Hloop. cbn [run_return].
  rewrite Hr, Hc, He. cbn [verify_init v_results v_corrupted v_errors].
  assert (Hkeys : NoDup (map fst items)).
  { subst items. rewrite map_map. unfold dict_keys in Hnd.
    rewrite map_map in Hnd. erewrite map_ext; [exact Hnd|].
    now intros [p h]. }
  rewrite (fold_dict_set_distinct fst (fun _ => "MATCH"));
    [|exact Hkeys | intros q _ []].
  cbn [app]. subst items. rewrite map_map.
  erewrite map_ext; [reflexivity|]. now intros [p h].
Qed.

Lemma fresh_manifest_verifies_witness :
  exists hash_data failed,
    fst (scan_location (HL := Demo.hashlib) Demo.one_locked Demo.no_stop
           Demo.lifo "/data" "SHA256" true 4) = inr (hash_data, failed) /\
    failed = ["/data/b.bin"] /\
    run_return
      (verify_integrity (HL := Demo.hashlib)
         (fst (save_hashes Demo.one_locked hash_data failed
                 "/data/out.json" "SHA256" "/data"))
         Demo.no_stop "/data/out.json" None true)
    = inr ([("c.bin", "MATCH"); ("a.bin", "MATCH")], [], []).
Proof.
  assert (Hcollect :
    collect_files Demo.one_locked Demo.no_stop "/data"
    = inr ["/data/a.bin"; "/data/b.bin"; "/data/c.bin"])
    by (vm_compute; reflexivity).
  destruct (fst (scan_location (HL := Demo.hashlib) Demo.one_locked
                   Demo.no_stop Demo.lifo "/data" "SHA256" true 4))
    as [e|[hash_data failed]] eqn:Hscan; [vm_compute in Hscan; discriminate|].
  assert (Hres : hash_data = [("/data/c.bin", format_08x (zlib_crc32
                                 (list_byte_of_string "abc") 3));
                              ("/data/a.bin", format_08x (zlib_crc32
                                 (list_byte_of_string "123456789") 3))]
                 /\ failed = ["/data/b.bin"]).
  { vm_compute in Hscan. injection Hscan as <- <-.
    split; vm_compute; reflexivity. }
  destruct Hres as [Hhd Hfl].
  destruct (manifest_data Demo.one_locked hash_data failed "SHA256" "/data")
    as [e|data] eqn:Hdata;
    [subst hash_data failed; vm_compute in Hdata; discriminate|].
  assert (Hjson : json_load (json_dump data) = inr data).
  { subst hash_data failed. vm_compute in Hdata. injection Hdata as <-.
    vm_compute. reflexivity. }
  assert (Hutf : utf8_valid (list_byte_of_string (json_dump data)) = true).
  { subst hash_data failed. vm_compute in Hdata. injection Hdata as <-.
    vm_compute. reflexivity. }
  assert (Hread : match os_files Demo.one_locked !! "/data/out.json" with
                  | Some f => f_readable f = true
                  | None => True
                  end) by (vm_compute; exact I).
  assert (Hnames : forall p,
    In p ["/data/a.bin"; "/data/b.bin"; "/data/c.bin"] ->
    p <> "/data/out.json" /\
    p <> str_replace ".json" "_errors.txt" "/data/out.json").
  { intros p [<-|[<-|[<-|[]]]]; split; vm_compute; discriminate. }
  assert (Hnd : NoDup (map (rel_key Demo.one_locked
                              (manifest_base Demo.one_locked "/data"))
                           (dict_keys hash_data))).
  { subst hash_data. vm_compute.
    repeat (apply NoDup_cons; split;
            [rewrite list_elem_of_In; cbn; intuition discriminate|]).
    apply NoDup_nil_2. }
  pose proof (fresh_manifest_verifies (HL := Demo.hashlib) (JM := py_json)
                Demo.one_locked Demo.no_stop Demo.lifo "/data" "SHA256"
                true 4 _ hash_data failed "/data/out.json" data
                Demo.no_stop true
                Hcollect Hscan Hdata Hjson Hutf eq_refl eq_refl Hread
                eq_refl Hnames Hnd eq_refl (fun _ => eq_refl)
                (fun _ _ => eq_refl)) as Hrun.
  exists hash_data, failed. split; [reflexivity|]. split; [exact Hfl|].
  rewrite Hrun. subst hash_data. vm_compute. reflexivity.
Defined.

(** ** The verification report on disk *)

Section ListingFacts.
Context {PR : Python_repr}.



End ListingFacts.

Section ReportOnDisk.
Context {JM : Json_module} {PR : Python_repr}.

(** What [save_verification_report] does once the report itself is
    written, for a corrupted list that is not empty. *)
Lemma save_verification_report_run os results corrupted errors output_file
    hash_file os1 :
  corrupted <> [] ->
  write_text os output_file
    (json_dump (verification_report os results corrupted errors hash_file))
  = inr os1 ->
  save_verification_report os results corrupted errors output_file hash_file
  = match write_text os1 (str_replace ".json" "_corrupted.txt" output_file)
            (corrupted_listing os corrupted hash_file) with
    | inl _ => (os1, false)
    | inr os2 =>
        (os2, match snd (write_corrupted 1 corrupted) with
              | None => true
              | Some _ => false
              end)
    end.
Proof.
  intros Hne Hw1. unfold save_verification_report. cbv zeta. rewrite Hw1.
  destruct corrupted; [congruence | reflexivity].
Qed.
End ReportOnDisk.

Section VerifiedRecords.
Context {HL : Hashlib} {JM : Json_module}.

End VerifiedRecords.

(** X20. Where the list of corrupted files goes. When a report with
    corrupted files is saved and the call returns [True], the list is in
    the file named by replacing ".json" in the name of the report. That
    name differs from the name of the report exactly when the latter
    contains ".json": then both files hold what was meant for them;
    otherwise the list is all that the report file holds. *)
Theorem corrupted_listing_target {JM : Json_module} {PR : Python_repr}
    (os : OS) (results : dict string) (corrupted : list json)
    (errors : list string) (output_file hash_file : string) :
  corrupted <> [] ->
  snd (save_verification_report os results corrupted errors output_file
                                hash_file) = true ->
  let os' :=
    fst (save_verification_report os results corrupted errors output_file
                                  hash_file) in
  let corrupted_file := str_replace ".json" "_corrupted.txt" output_file in
  (is_substring ".json" output_file = true
   <-> corrupted_file <> output_file) /\
  (exists f,
     os_files os' !! corrupted_file = Some f /\
     f_bytes f
     = list_byte_of_string (corrupted_listing os corrupted hash_file)) /\
  (is_substring ".json" output_file = true ->
   exists f,
     os_files os' !! output_file = Some f /\
     f_bytes f
     = list_byte_of_string
         (json_dump (verification_report os results corrupted errors
                                         hash_file))) /\
  (is_substring ".json" output_file = false ->
   exists f,
     os_files os' !! output_file = Some f /\
     f_bytes f
     = list_byte_of_string (corrupted_listing os corrupted hash_file)).
Proof.
  intros Hne.
  destruct (write_text os output_file
              (json_dump (verification_report os results corrupted errors
                                              hash_file)))
    as [e|os1] eqn:Hw1.
  { unfold save_verification_report. cbv zeta. rewrite Hw1. discriminate. }
  rewrite (save_verification_report_run os results corrupted errors
             output_file hash_file os1 Hne Hw1).
  destruct (write_text os1 _ _) as [e|os2] eqn:Hw2; [discriminate|].
  intros _. cbn [fst]. cbv zeta.
  pose proof (companion_name "_corrupted.txt" output_file
                ltac:(cbn; lia)) as Hname.
  destruct (write_text_files _ _ _ _ Hw1) as (Hf1 & _).
  destruct (write_text_files _ _ _ _ Hw2) as (Hf2 & Hother & _).
  split; [exact Hname|]. split; [exact Hf2|]. split.
  - intros Hsub. apply Hname in Hsub.
    destruct Hf1 as (f & Hf & Hbytes). exists f.
    split; [|exact Hbytes]. rewrite Hother by congruence. exact Hf.
  - intros Hsub. rewrite (str_replace_absent _ _ _ Hsub) in Hf2.
    exact Hf2.
Qed.

Lemma corrupted_listing_target_witness :
  let record :=
    JObj [ ("path", JStr "/data/b.bin"); ("relative_path", JStr "b.bin");
           ("stored_hash", JStr "00000001");
           ("current_hash", JStr "00000000");
           ("algorithm", JStr "CRC32") ] in
  let saved :=
    save_verification_report Demo.three_files [("b.bin", "MISMATCH")]
      [record] [] "/data/report" "/data/out.json" in
  exists f,
    os_files (fst saved) !! "/data/report" = Some f /\
    f_bytes f
    = list_byte_of_string
        (corrupted_listing Demo.three_files [record] "/data/out.json").
Proof.
  cbv zeta.
  set (record := JObj _).
  assert (Hne : [record] <> []) by discriminate.
  match goal with
  | |- exists f, os_files (fst ?S) !! _ = _ /\ _ =>
      assert (Hok : snd S = true) by (vm_compute; reflexivity)
  end.
  destruct (corrupted_listing_target (JM := py_json) (PR := py_repr_ref)
              Demo.three_files [("b.bin", "MISMATCH")] [record] []
              "/data/report" "/data/out.json" Hne Hok)
    as (_ & _ & _ & Hlost).
  exact (Hlost eq_refl).
Defined.





(** ** Edge cases *)

Section EdgeFacts.
Context {HL : Hashlib}.

Lemma hash_stream_zero {S} (upd : S -> list byte -> exn + S) (init : S)
    (fin : S -> exn + string) os stop file_path data :
  open_rb os file_path = inr data ->
  hash_stream upd init fin os stop file_path 0
  = ([EvOpen file_path; EvRead file_path 0],
     sum_map id Some (fin init)).
Proof.
  intros Hopen. unfold hash_stream.
  rewrite Hopen, read_loop_step. reflexivity.
Qed.


Lemma verify_step_wellformed os stops base_path cb algorithm total_files
    rel_path file_info st :
  entry_wellformed file_info ->
  exists st1,
    verify_step os stops base_path cb algorithm total_files rel_path
                file_info st = inr st1.
Proof.
  intros (members & stored & -> & Hhash & Hfull).
  unfold verify_step. cbn [json_getitem]. rewrite Hhash.
  assert (Hres : exists current,
    resolve_current_path os base_path rel_path
      (default (JStr "") (dict_get members "full_path")) = inr current).
  { destruct Hfull as [->|[fp ->]]; cbn [from_option]; unfold id;
      rewrite resolve_current_path_spec; eauto. }
  destruct Hres as [current ->].
  destruct (negb (truthy current)); eauto.
Qed.

Lemma verify_loop_wellformed os stops base_path cb algorithm total_files
    items : forall k st,
  Forall (fun entry => entry_wellformed (snd entry)) items ->
  exists st',
    verify_loop os stops base_path cb algorithm total_files items k st
    = (st', None).
Proof.
  induction items as [|[rel info] items IH]; intros k st Hall;
    cbn [verify_loop]; [eauto|].
  apply Forall_cons_iff in Hall as [Hhead Hall].
  destruct (stop_loop stops k); [eauto|].
  destruct (verify_step_wellformed os stops base_path cb algorithm
              total_files rel info st Hhead) as [st1 ->].
  now apply IH.
Qed.

(** The loop over well-formed entries followed by an entry that makes
    its iteration raise. *)
Lemma verify_loop_raises os stops base_path cb algorithm total_files
    items rel_path file_info rest e : forall k st,
  Forall (fun entry => entry_wellformed (snd entry)) items ->
  (forall i, (i <= length items)%nat -> stop_loop stops (k + i) = false) ->
  (forall st1, verify_step os stops base_path cb algorithm total_files
                 rel_path file_info st1 = inl e) ->
  exists st',
    verify_loop os stops base_path cb algorithm total_files
                (items ++ (rel_path, file_info) :: rest) k st
    = (st', Some e) /\
    v_completed st' = (v_completed st + length items)%nat.
Proof.
  induction items as [|[rel info] items IH]; intros k st Hall Hstop Hbad;
    cbn [verify_loop app length].
  - rewrite <- (Nat.add_0_r k), Hstop by (cbn; lia). rewrite Hbad.
    exists st. split; [reflexivity | lia].
  - apply Forall_cons_iff in Hall as [Hhead Hall].
    rewrite <- (Nat.add_0_r k), Hstop by lia. rewrite Nat.add_0_r.
    destruct (verify_step_wellformed os stops base_path cb algorithm
                total_files rel info st Hhead) as [st1 Hstep].
    rewrite Hstep.
    destruct (verify_step_exact _ _ _ _ _ _ _ _ _ _ Hstep)
      as (_ & _ & _ & _ & Hn).
    destruct (IH (S k) st1 Hall) as (st' & Hloop & Hcount).
    + intros i Hi. replace (S k + i)%nat with (k + S i)%nat by lia.
      apply Hstop. cbn [length]. lia.
    + exact Hbad.
    + exists st'. split; [exact Hloop|]. rewrite Hcount, Hn. lia.
Qed.
End EdgeFacts.

(** X23. The chunk size zero reads nothing: for an available algorithm
    and a file that opens, [calculate_file_hash] with [chunk_size = 0]
    makes one empty read and returns the digest of the empty input (for
    CRC32, "00000000"), whatever the file holds and whatever the state
    of the stop flag. *)
Theorem zero_chunk_size_digest {HL : Hashlib}
    (os : OS) (stop : nat -> bool) (file_path algorithm : string)
    (data : list byte) :
  dict_mem algorithm SUPPORTED_ALGORITHMS = true ->
  open_rb os file_path = inr data ->
  calculate_file_hash os stop file_path algorithm 0
  = ([EvOpen file_path; EvRead file_path 0],
     inr (Some (empty_digest algorithm))).
Proof.
  intros Hmem Hopen. unfold calculate_file_hash.
  destruct (calculate_file_hash_body_supported os stop file_path algorithm
              0 Hmem) as [[-> ->]|(h & Hne & Hfresh & ->)];
    unfold hasher_stream; rewrite (hash_stream_zero _ _ _ _ _ _ _ Hopen);
    cbn [sum_map]; unfold empty_digest.
  - reflexivity.
  - now rewrite Hne, Hfresh.
Qed.

Lemma zero_chunk_size_digest_witness :
  snd (calculate_file_hash (HL := Demo.hashlib) Demo.three_files
         Demo.always "/data/a.bin" "CRC32" 0)
  = inr (Some "00000000").
Proof.
  assert (Hmem : dict_mem "CRC32" (SUPPORTED_ALGORITHMS (HL := Demo.hashlib))
                 = true) by reflexivity.
  assert (Hopen : open_rb Demo.three_files "/data/a.bin"
                  = inr (list_byte_of_string "123456789")) by reflexivity.
  rewrite (zero_chunk_size_digest (HL := Demo.hashlib) Demo.three_files
             Demo.always "/data/a.bin" "CRC32" _ Hmem Hopen).
  reflexivity.
Defined.



(** X25. When does a verification return. For a manifest that loads,
    whose metadata name an algorithm and whose section "hashes" is an
    object, [verify_integrity] returns (no exception reaches the caller)
    as soon as every entry is an object with a stored digest whose
    absolute path, if present, is a string: for every file system,
    override directory and moment of cancellation. *)
Theorem verify_returns_for_wellformed {HL : Hashlib} {JM : Json_module}
    (os : OS) (stops : Stops) (hash_file : string)
    (base_path : option string) (cb : bool)
    (hash_data algorithm : json) (items : list (string * json)) :
  load_hashes os hash_file = inr (Some hash_data) ->
  metadata_field hash_data "algorithm" = inr algorithm ->
  json_getitem hash_data "hashes" = inr (JObj items) ->
  Forall (fun entry => entry_wellformed (snd entry)) items ->
  exists outcome_map corrupted errors,
    run_return (verify_integrity os stops hash_file base_path cb)
    = inr (outcome_map, corrupted, errors).
Proof.
  intros Hload Halg Hhashes Hall.
  destruct (verify_loop_wellformed os stops base_path cb algorithm
              (length items) items 0%nat verify_init Hall) as [st Hloop].
  unfold verify_integrity. rewrite Hload.
  unfold metadata_field in Halg.
  destruct (json_getitem hash_data "metadata") as [e|metadata];
    [discriminate|].
  rewrite Halg, Hhashes. cbn [json_len json_items]. rewrite Hloop.
  cbn [run_return]. eauto.
Qed.

Lemma verify_returns_for_wellformed_witness :
  let manifest :=
    fst (save_hashes Demo.three_files
           [("/data/a.bin", "cbf43926"); ("/data/gone.bin", "352441c2")]
           [] "/data/out.json" "CRC32" "/data") in
  exists outcome_map corrupted errors,
    run_return (verify_integrity (HL := Demo.hashlib) manifest
                  (Demo.stop_after 1) "/data/out.json" (Some "/data") true)
    = inr (outcome_map, corrupted, errors).
Proof.
  cbv zeta.
  set (manifest := fst (save_hashes _ _ _ _ _ _)).
  destruct (load_hashes manifest "/data/out.json") as [e|[hash_data|]]
    eqn:Hload; [vm_compute in Hload; discriminate | |
                vm_compute in Hload; discriminate].
  assert (Hdata : exists items,
    metadata_field hash_data "algorithm" = inr (JStr "CRC32") /\
    json_getitem hash_data "hashes" = inr (JObj items) /\
    Forall (fun entry => entry_wellformed (snd entry)) items).
  { vm_compute in Hload. injection Hload as <-.
    eexists. split; [reflexivity|]. split; [reflexivity|].
    repeat constructor; cbn [snd]; eexists _, _;
      (split; [reflexivity|]); (split; [reflexivity|]);
      right; eexists; reflexivity. }
  destruct Hdata as (items & Halg & Hhashes & Hall).
  exact (verify_returns_for_wellformed (HL := Demo.hashlib) manifest
           (Demo.stop_after 1) "/data/out.json" (Some "/data") true
           hash_data (JStr "CRC32") items Hload Halg Hhashes Hall).
Defined.

(** X26. An entry without a stored digest makes the verification
    raise. When the loop, not cancelled so far, comes after [n]
    well-formed entries to an entry that is an object without the key
    "hash", [verify_integrity] raises [KeyError]: the outcomes of the
    [n] entries already checked are not returned, although the callback
    was called for each of them. *)
Theorem verify_raises_on_missing_hash {HL : Hashlib} {JM : Json_module}
    (os : OS) (stops : Stops) (hash_file : string)
    (base_path : option string) (cb : bool)
    (hash_data algorithm : json) (items rest : list (string * json))
    (rel_path : string) (members : list (string * json)) :
  load_hashes os hash_file = inr (Some hash_data) ->
  metadata_field hash_data "algorithm" = inr algorithm ->
  json_getitem hash_data "hashes"
  = inr (JObj (items ++ (rel_path, JObj members) :: rest)) ->
  Forall (fun entry => entry_wellformed (snd entry)) items ->
  dict_get members "hash" = None ->
  (forall i, (i <= length items)%nat -> stop_loop stops i = false) ->
  run_return (verify_integrity os stops hash_file base_path cb)
  = inl (KeyError "hash") /\
  (cb = true ->
   length (run_progress (verify_integrity os stops hash_file base_path cb))
   = length items).
Proof.
  intros Hload Halg Hhashes Hall Hmissing Hstop.
  destruct (verify_loop_raises os stops base_path cb algorithm
              (length (items ++ (rel_path, JObj members) :: rest))
              items rel_path (JObj members) rest (KeyError "hash")
              0%nat verify_init Hall Hstop)
    as (st & Hloop & Hcount).
  { intros st1. unfold verify_step. cbn [json_getitem].
    now rewrite Hmissing. }
  unfold verify_integrity. rewrite Hload.
  unfold metadata_field in Halg.
  destruct (json_getitem hash_data "metadata") as [e|metadata];
    [discriminate|].
  rewrite Halg, Hhashes. cbn [json_len json_items]. rewrite Hloop.
  cbn [run_return run_progress]. split; [reflexivity|].
  intros ->.
  (* the calls made are those of the entries handled *)
  clear -Hloop Hall Hstop Hmissing.
  revert Hloop. generalize (length (items ++ (rel_path, JObj members) :: rest)).
  intros total.
  assert (Hgen : forall its k st0,
    Forall (fun entry => entry_wellformed (snd entry)) its ->
    (forall i, (i <= length its)%nat -> stop_loop stops (k + i) = false) ->
    verify_loop os stops base_path true algorithm total
      (its ++ (rel_path, JObj members) :: rest) k st0 = (st, Some (KeyError "hash")) ->
    length (v_progress st) = (length (v_progress st0) + length its)%nat).
  { induction its as [|[rel info] its IH]; intros k st0 Hwf Hs;
      cbn [app verify_loop length].
    - rewrite <- (Nat.add_0_r k), Hs by (cbn; lia).
      unfold verify_step. cbn [json_getitem]. rewrite Hmissing.
      intros [= <-]. lia.
    - apply Forall_cons_iff in Hwf as [Hhead Hwf].
      rewrite <- (Nat.add_0_r k), Hs by lia. rewrite Nat.add_0_r.
      destruct (verify_step_wellformed os stops base_path true algorithm
                  total rel info st0 Hhead) as [st1 Hstep].
      rewrite Hstep.
      destruct (verify_step_exact _ _ _ _ _ _ _ _ _ _ Hstep)
        as (_ & _ & _ & Hp & _).
      intros Hloop. apply IH in Hloop; [|exact Hwf|].
      + rewrite Hloop, Hp, length_app. cbn. lia.
      + intros i Hi. replace (S k + i)%nat with (k + S i)%nat by lia.
        apply Hs. cbn [length]. lia. }
  intros Hloop. apply Hgen in Hloop; [exact Hloop | exact Hall | exact Hstop].
Qed.

Lemma verify_raises_on_missing_hash_witness :
  let good := JObj [("hash", JStr "cbf43926");
                    ("full_path", JStr "/data/a.bin")] in
  let data :=
    JObj [("metadata", JObj [("algorithm", JStr "CRC32")]);
          ("hashes", JObj [("a.bin", good); ("b.bin", JObj [])])] in
  let os := Demo.data_dir [("a.bin", "123456789"); ("m.json", json_dump data)] in
  let run := verify_integrity (HL := Demo.hashlib) os Demo.no_stop
               "/data/m.json" None true in
  run_return run = inl (KeyError "hash") /\
  length (run_progress run) = 1%nat.
Proof.
  cbv zeta.
  set (good := JObj [("hash", JStr "cbf43926");
                     ("full_path", JStr "/data/a.bin")]).
  set (data := JObj [("metadata", _); ("hashes", _)]).
  set (os := Demo.data_dir _).
  assert (Hload : load_hashes os "/data/m.json" = inr (Some data))
    by (vm_compute; reflexivity).
  assert (Hall : Forall (fun entry : string * json =>
                           entry_wellformed (snd entry)) [("a.bin", good)]).
  { repeat constructor. cbn [snd]. eexists _, _.
    split; [reflexivity|]. split; [reflexivity|].
    right. eexists. reflexivity. }
  destruct (verify_raises_on_missing_hash (HL := Demo.hashlib) os
              Demo.no_stop "/data/m.json" None true data (JStr "CRC32")
              [("a.bin", good)] [] "b.bin" [] Hload eq_refl eq_refl Hall
              eq_refl (fun _ _ => eq_refl)) as [Hraise Hcalls].
  split; [exact Hraise | exact (Hcalls eq_refl)].
Defined.



(** ** The window *)

Section ViewFacts.
Local Open Scope nat_scope.

Lemma status_counts_fold (values : list string) : forall counts s,
  dict_get
    (fold_left
       (fun counts status =>
          dict_set counts status (S (default 0 (dict_get counts status))))
       values counts) s
  = let n := length (List.filter (String.eqb s) values) in
    match dict_get counts s with
    | Some c => Some (c + n)
    | None => if Nat.eqb n 0 then None else Some n
    end.
Proof.
  induction values as [|v values IH]; intros counts s; cbn [fold_left].
  - cbn. destruct (dict_get counts s); [apply f_equal; lia | reflexivity].
  - rewrite IH. cbv zeta. cbn [List.filter].
    destruct (String.eqb_spec s v) as [->|Hne].
    + rewrite dict_get_set_eq. cbn [length].
      destruct (dict_get counts v) as [c|]; cbn [from_option]; unfold id;
        apply f_equal; lia.
    + rewrite dict_get_set_ne by congruence. reflexivity.
Qed.

Lemma grouped_step_get (groups : dict (list string)) file_path status s :
  dict_get
    (let groups1 :=
       if dict_mem status groups then groups
       else dict_set groups status [] in
     dict_set groups1 status
       (default [] (dict_get groups1 status) ++ [file_path])) s
  = if String.eqb s status
    then Some (default [] (dict_get groups status) ++ [file_path])
    else dict_get groups s.
Proof.
  cbv zeta. destruct (String.eqb_spec s status) as [->|Hne].
  - rewrite dict_get_set_eq. unfold dict_mem.
    destruct (dict_get groups status) as [l|] eqn:Hget.
    + now rewrite Hget.
    + now rewrite dict_get_set_eq.
  - rewrite dict_get_set_ne by congruence. unfold dict_mem.
    destruct (dict_get groups status);
      [reflexivity | now rewrite dict_get_set_ne by congruence].
Qed.

Lemma grouped_fold (items : dict string) : forall groups s,
  dict_get
    (fold_left
       (fun groups '(file_path, status) =>
          let groups1 :=
            if dict_mem status groups then groups
            else dict_set groups status [] in
          dict_set groups1 status
            (default [] (dict_get groups1 status) ++ [file_path]))
       items groups) s
  = match dict_get groups s, paths_with s items with
    | Some l, ps => Some (l ++ ps)
    | None, [] => None
    | None, ps => Some ps
    end.
Proof.
  unfold paths_with.
  induction items as [|[file_path status] items IH]; intros groups s;
    cbn [fold_left].
  - cbn. destruct (dict_get groups s); [now rewrite app_nil_r | reflexivity].
  - rewrite IH, grouped_step_get. cbn [List.filter snd].
    destruct (String.eqb_spec s status) as [->|Hne]; cbn [map fst].
    + destruct (dict_get groups status) as [l|]; cbn [from_option];
        unfold id.
      * now rewrite <- app_assoc.
      * reflexivity.
    + reflexivity.
Qed.

Lemma paths_with_length status (results : dict string) :
  length (paths_with status results) = count_outcome status results.
Proof.
  unfold paths_with, count_outcome, dict_values.
  rewrite length_map.
  induction results as [|[p o] results IH]; [reflexivity|].
  cbn [List.filter map snd]. destruct (String.eqb status o); cbn [length];
    now rewrite IH.
Qed.
End ViewFacts.

Section SubstringFacts.

Lemma prefix_app (old rest : string) : String.prefix old (old +:+ rest) = true.
Proof.
  induction old as [|c old IH]; [now destruct rest|].
  change (String.prefix (String c old) (String c (old +:+ rest)) = true).
  unfold String.prefix; fold String.prefix.
  destruct (ascii_dec c c); [exact IH | contradiction].
Qed.

Lemma is_substring_here (old s : string) :
  String.prefix old s = true -> is_substring old s = true.
Proof. intros H. destruct s; cbn in *; now rewrite H. Qed.

(** What ends with [old] (or goes on after it) contains it. *)
Lemma is_substring_app (before old rest : string) :
  is_substring old (before +:+ old +:+ rest) = true.
Proof.
  induction before as [|c before IH].
  - change ("" +:+ old +:+ rest) with (old +:+ rest).
    apply is_substring_here, prefix_app.
  - change (String c before +:+ old +:+ rest)
      with (String c (before +:+ old +:+ rest)).
    cbn [is_substring]. rewrite IH. apply orb_true_r.
Qed.

Lemma string_app_assoc (a b c : string) :
  (a +:+ b) +:+ c = a +:+ b +:+ c.
Proof.
  induction a as [|x a IH]; [reflexivity|].
  change (String x ((a +:+ b) +:+ c) = String x (a +:+ b +:+ c)).
  now rewrite IH.
Qed.

(** An automatic file name contains ".json". *)
Lemma auto_filename_json prefix timestamp :
  is_substring ".json" (auto_filename prefix timestamp) = true.
Proof.
  unfold auto_filename.
  pose proof (is_substring_app (prefix +:+ timestamp) ".json" "") as H.
  change (".json" +:+ "") with ".json" in H.
  now rewrite string_app_assoc in H.
Qed.
End SubstringFacts.

(** X28. The result view and the saved report count alike. For each
    of the five outcomes, the count [display_verify_results] shows is
    the count [save_verification_report] stores in the summary; the
    files it lists under an outcome are exactly the paths with that
    outcome, in the order of the results, as many as the count; and an
    outcome that no path has gets no group. *)
Theorem view_agrees_with_report
    (os : OS) (results : dict string) (corrupted : list json)
    (errors : list string) (hash_file status : string) :
  (In status outcomes ->
   dict_get (status_counts results) status
   = Some (count_outcome status results)) /\
  dict_get (grouped results) status
  = match paths_with status results with
    | [] => None
    | paths => Some paths
    end /\
  length (paths_with status results) = count_outcome status results /\
  (forall path, In path (paths_with status results)
                <-> In (path, status) results) /\
  (forall name key,
     In (name, key)
        [("MATCH", "matches"); ("MISMATCH", "mismatches");
         ("FILE_NOT_FOUND", "not_found"); ("READ_ERROR", "read_errors");
         ("VERIFICATION_ERROR", "verification_errors")] ->
     exists n,
       dict_get (status_counts results) name = Some n /\
       summary_field
         (verification_report os results corrupted errors hash_file) key
       = inr (JInt (Z.of_nat n))).
Proof.
  assert (Hcount : forall s, In s outcomes ->
            dict_get (status_counts results) s
            = Some (count_outcome s results)).
  { intros s Hs. unfold status_counts. rewrite status_counts_fold.
    cbv zeta. fold (count_outcome s results).
    cbn in Hs. destruct Hs as [<-|[<-|[<-|[<-|[<-|[]]]]]]; reflexivity. }
  split; [apply Hcount|]. split.
  { unfold grouped. rewrite grouped_fold. cbn [dict_get].
    destruct (paths_with status results); reflexivity. }
  split; [apply paths_with_length|]. split.
  { intros path. unfold paths_with. rewrite in_map_iff. split.
    - intros ([p o] & <- & Hin). apply filter_In in Hin as [Hin Ho].
      cbn in Ho. apply String.eqb_eq in Ho. now subst.
    - intros Hin. exists (path, status). split; [reflexivity|].
      apply filter_In. split; [exact Hin|]. cbn. apply String.eqb_refl. }
  intros name key Hin. cbn in Hin.
  destruct Hin as [H|[H|[H|[H|[H|[]]]]]]; injection H as <- <-;
    eexists; (split; [apply Hcount; cbn; tauto | reflexivity]).
Qed.

(** X29. An auto-saved manifest is intact. When a scan started from
    the window returns anything and auto-save is on, [hash_thread] saves
    it under "hash_results_<timestamp>.json"; since that name contains
    ".json", the error report goes to another file, and the manifest can
    be loaded back as the data of the scan, with or without failures.
    The thread assigns the results, announces the file and shows no
    error dialog. (The file
    can be written, and the [json] module loads back what it dumped for
    this manifest.) *)
Theorem autosaved_manifest_loads_back {HL : Hashlib} {JM : Json_module}
    (os : OS) (stops : Stops) (sched : Scheduler)
    (location algorithm : string) (max_workers : Z) (timestamp : string)
    (hash_data : dict string) (failed : list string) (data : json) :
  fst (scan_location os stops sched location algorithm true max_workers)
  = inr (hash_data, failed) ->
  hash_data <> [] \/ failed <> [] ->
  manifest_data os hash_data failed algorithm location = inr data ->
  json_load (json_dump data) = inr data ->
  utf8_valid (list_byte_of_string (json_dump data)) = true ->
  os_isdir os (auto_filename "hash_results_" timestamp) = false ->
  os_writable os (auto_filename "hash_results_" timestamp) = true ->
  match os_files os !! auto_filename "hash_results_" timestamp with
  | Some f => f_readable f = true
  | None => True
  end ->
  let run := hash_thread os stops sched location algorithm max_workers true
                         timestamp in
  load_hashes (t_os run) (auto_filename "hash_results_" timestamp)
  = inr (Some data) /\
  t_result run = Some (hash_data, failed) /\
  In (UpdateStatus ("Results auto-saved to "
                    +:+ auto_filename "hash_results_" timestamp))
     (t_calls run) /\
  forall message, ~ In (ShowError message) (t_calls run).
Proof.
  intros Hscan Hsome Hdata Hjson Hutf Hdir Hwr Hread. cbv zeta.
  unfold hash_thread.
  destruct (scan_location os stops sched location algorithm true
                          max_workers) as [returned progress].
  cbn [fst] in Hscan. subst returned.
  assert (Hne : nonempty hash_data || nonempty failed = true).
  { destruct Hsome as [H|H]; [destruct hash_data | destruct failed];
      try congruence; cbn; [reflexivity | apply orb_true_r]. }
  rewrite Hne. cbn [andb t_os t_result t_calls].
  split.
  { apply (save_load_roundtrip os hash_data failed _ algorithm location
             data Hdata Hjson Hutf Hdir Hwr Hread).
    right. apply companion_name; [cbn; lia | apply auto_filename_json]. }
  split; [reflexivity|]. split.
  - rewrite !in_app_iff. right. now left.
  - intros message. rewrite !in_app_iff. intros [[Hin|Hin]|Hin].
    + cbn in Hin. destruct Hin as [H|[H|[]]]; discriminate H.
    + unfold progress_calls in Hin. apply in_map_iff in Hin
        as ([[c t] f] & H & _). discriminate H.
    + cbn in Hin. destruct Hin as [H|[H|[H|[]]]]; discriminate H.
Qed.

Lemma autosaved_manifest_loads_back_witness :
  let run := hash_thread (HL := Demo.hashlib) Demo.one_locked Demo.no_stop
               Demo.fifo "/data" "CRC32" 4 true "20240101_000000" in
  is_Some (os_files (t_os run) !! "hash_results_20240101_000000.json") /\
  exists data,
    load_hashes (t_os run) "hash_results_20240101_000000.json"
    = inr (Some data) /\
    json_getitem data "errors" = inr (JArr [JStr "/data/b.bin"]).
Proof.
  cbv zeta.
  destruct (fst (scan_location (HL := Demo.hashlib) Demo.one_locked
                   Demo.no_stop Demo.fifo "/data" "CRC32" true 4))
    as [e|[hash_data failed]] eqn:Hscan; [vm_compute in Hscan; discriminate|].
  assert (Hres : hash_data = [("/data/a.bin", "cbf43926");
                              ("/data/c.bin", "352441c2")]
                 /\ failed = ["/data/b.bin"]).
  { vm_compute in Hscan. injection Hscan as <- <-. split; reflexivity. }
  destruct Hres as [Hhd Hfl].
  destruct (manifest_data Demo.one_locked hash_data failed "CRC32" "/data")
    as [e|data] eqn:Hdata;
    [subst hash_data failed; vm_compute in Hdata; discriminate|].
  assert (Hjson : json_load (json_dump data) = inr data).
  { subst hash_data failed. vm_compute in Hdata. injection Hdata as <-.
    vm_compute. reflexivity. }
  assert (Hutf : utf8_valid (list_byte_of_string (json_dump data)) = true).
  { subst hash_data failed. vm_compute in Hdata. injection Hdata as <-.
    vm_compute. reflexivity. }
  assert (Hsome : hash_data <> [] \/ failed <> []).
  { right. subst failed. discriminate. }
  assert (Hread : match os_files Demo.one_locked
                        !! auto_filename "hash_results_" "20240101_000000"
                  with
                  | Some f => f_readable f = true
                  | None => True
                  end) by (vm_compute; exact I).
  destruct (autosaved_manifest_loads_back (HL := Demo.hashlib)
              (JM := py_json) Demo.one_locked Demo.no_stop Demo.fifo "/data"
              "CRC32" 4 "20240101_000000" hash_data failed data
              Hscan Hsome Hdata Hjson Hutf eq_refl eq_refl Hread)
    as (Hload & _).
  split.
  - vm_compute. eexists. reflexivity.
  - exists data. split; [exact Hload|].
    subst hash_data failed. vm_compute in Hdata. injection Hdata as <-.
    reflexivity.
Defined.


